(** * PXE synchronizer and deferred-note serialization

    A shallow embedding of
    [yarn-project/pxe/src/database/deferred_note_dao.ts] (the
    [DeferredNoteDao] class) and of the [Synchronizer] class that follows it
    in the same source file, together with the properties the specification
    states about them.

    Control flow that can raise is written in a small state-and-exception
    monad [ST]: a JavaScript [throw] keeps every mutation made before it, so
    the state is returned on both outcomes. *)

From Stdlib Require Import ZArith Lia List Bool String.
From Stdlib.Strings Require Import Byte HexString.
From stdpp Require Import base option list gmap strings.

Local Open Scope Z_scope.

(** ** Outcomes and the state-and-exception monad *)

Inductive Error :=
| RangeError (msg : string)
| TypeError (msg : string)
| JsError (msg : string)
| NodeError (msg : string)
| DatabaseError (msg : string).

Inductive Outcome (A : Type) :=
| Ret (a : A)
| Throw (e : Error).
Arguments Ret {A} a.
Arguments Throw {A} e.

Definition ST (S A : Type) : Type := S -> Outcome A * S.

Definition ret {S A} (a : A) : ST S A := fun s => (Ret a, s).

Definition throw {S A} (e : Error) : ST S A := fun s => (Throw e, s).

Definition bind {S A B} (m : ST S A) (k : A -> ST S B) : ST S B :=
  fun s =>
    match m s with
    | (Ret a, s') => k a s'
    | (Throw e, s') => (Throw e, s')
    end.

Definition try_catch {S A} (m : ST S A) (handler : Error -> ST S A) : ST S A :=
  fun s =>
    match m s with
    | (Ret a, s') => (Ret a, s')
    | (Throw e, s') => handler e s'
    end.

Definition get {S} : ST S S := fun s => (Ret s, s).

Definition modify {S} (f : S -> S) : ST S unit := fun s => (Ret tt, f s).

Definition lift {S A} (o : Outcome A) : ST S A := fun s => (o, s).

Notation "'do' x <- m ; k" := (bind m (fun x => k))
  (at level 10, x name, m at level 100, k at level 200, only parsing).
Notation "'exec' m ; k" := (bind m (fun _ => k))
  (at level 10, m at level 100, k at level 200, only parsing).

(** [for (const x of xs) await body(x)] *)
Fixpoint forEach {S A} (xs : list A) (body : A -> ST S unit) : ST S unit :=
  match xs with
  | [] => ret tt
  | x :: rest => exec body x; forEach rest body
  end.

(** [xs.map(f)] for an [f] that can raise. *)
Fixpoint mapST {S A B} (f : A -> ST S B) (xs : list A) : ST S (list B) :=
  match xs with
  | [] => ret []
  | x :: rest => do y <- f x; do ys <- mapST f rest; ret (y :: ys)
  end.

(** ** Buffers and big-endian integers *)

Definition Buffer := list byte.

Definition byte_of_Z (z : Z) : byte :=
  match Byte.of_N (Z.to_N (z mod 256)) with
  | Some b => b
  | None => x00
  end.

Definition Z_of_byte (b : byte) : Z := Z.of_N (Byte.to_N b).

(** [toBufferBE(value, width)]: the [width] low bytes of [value], most
    significant first. *)
Fixpoint toBufferBE (value : Z) (width : nat) : Buffer :=
  match width with
  | O => []
  | S w => byte_of_Z (value / 256 ^ Z.of_nat w) :: toBufferBE value w
  end.

(** [toBigIntBE(buf)] *)
Definition toBigIntBE (buf : Buffer) : Z :=
  fold_left (fun acc b => acc * 256 + Z_of_byte b) buf 0.

(** Modelled from the spec: [numToUInt32BE] of [@aztec/foundation], the
    [u32(...)] of section 6: four bytes, big-endian.  Node's
    [Buffer.writeUInt32BE] raises a [RangeError] outside the u32 range. *)
Definition numToUInt32BE (n : Z) : Outcome Buffer :=
  if (0 <=? n) && (n <? 2 ^ 32) then Ret (toBufferBE n 4)
  else Throw (RangeError "The value of 'value' is out of range").

(** ** The buffer reader *)

(** Modelled from the spec: [BufferReader] of [@aztec/types].  The reader is
    a cursor over a buffer; its state here is the unread suffix.  Reading
    past the end raises. *)
Definition BufferReader := Buffer.

Definition Read (T : Type) : Type := ST BufferReader T.

Definition readBytes (n : nat) : Read Buffer :=
  fun r =>
    if (n <=? length r)%nat then (Ret (take n r), drop n r)
    else (Throw (RangeError "Attempt to access memory outside buffer bounds"), r).

Definition readNumber : Read Z :=
  do bs <- readBytes 4; ret (toBigIntBE bs).

(** A class with a [toBuffer()] method and a static [fromBuffer(reader)]:
    what [serializeToBuffer] and [reader.readObject] accept. *)
Class Serializable (T : Type) := {
  toBuffer : T -> Buffer;
  fromBuffer : Read T;
}.

Definition readObject (T : Type) `{Serializable T} : Read T := fromBuffer.

Fixpoint readArray (n : nat) (T : Type) `{Serializable T} : Read (list T) :=
  match n with
  | O => ret []
  | S k => do x <- readObject T; do xs <- readArray k T; ret (x :: xs)
  end.

(** [reader.readVector(T)]: a u32 length, then that many [T]. *)
Definition readVector (T : Type) `{Serializable T} : Read (list T) :=
  do size <- readNumber; readArray (Z.to_nat size) T.

(** Modelled from the spec: [Vector.toBuffer] (glossary, "Vector"): a u32
    big-endian length followed by the elements. *)
Definition Vector_toBuffer {T} `{Serializable T} (items : list T) : Outcome Buffer :=
  match numToUInt32BE (Z.of_nat (length items)) with
  | Ret len => Ret (len ++ concat (map toBuffer items))
  | Throw e => Throw e
  end.

(** Modelled from the spec: [serializeToBuffer] of [@aztec/circuits.js/utils]
    concatenates the serialization of its arguments: a buffer as it is, a
    number as a u32, an object through its [toBuffer()]. *)
Inductive Bufferable :=
| OfBuffer (b : Buffer)
| OfNumber (n : Z)
| OfObject (serialized : Outcome Buffer).

Definition serializeToBufferArray (obj : Bufferable) : Outcome Buffer :=
  match obj with
  | OfBuffer b => Ret b
  | OfNumber n => numToUInt32BE n
  | OfObject o => o
  end.

Fixpoint serializeToBuffer (objs : list Bufferable) : Outcome Buffer :=
  match objs with
  | [] => Ret []
  | obj :: rest =>
      match serializeToBufferArray obj with
      | Ret b =>
          match serializeToBuffer rest with
          | Ret bs => Ret (b ++ bs)
          | Throw e => Throw e
          end
      | Throw e => Throw e
      end
  end.

(** ** Field elements, points, addresses and hashes *)

Record Fr := mkFr { asBigInt : Z }.

Record Point := mkPoint { x : Fr; y : Fr }.

Definition PublicKey := Point.

Record AztecAddress := mkAztecAddress { asField : Fr }.

Record TxHash := mkTxHash { buffer : Buffer }.

#[global] Instance Fr_eq_dec : EqDecision Fr.
Proof. solve_decision. Defined.
#[global] Instance Point_eq_dec : EqDecision Point.
Proof. solve_decision. Defined.
#[global] Instance AztecAddress_eq_dec : EqDecision AztecAddress.
Proof. solve_decision. Defined.

Definition Fr_ZERO : Fr := mkFr 0.

Definition Fr_equals (a b : Fr) : bool := asBigInt a =? asBigInt b.

(** [Point.equals]: both coordinates equal. *)
Definition Point_equals (p q : Point) : bool :=
  Fr_equals (x p) (x q) && Fr_equals (y p) (y q).

Definition AztecAddress_equals (a b : AztecAddress) : bool :=
  Fr_equals (asField a) (asField b).

(** The field modulus is a constant of [@aztec/foundation]; it is a
    parameter here.  [new Fr(value)] raises when [value] is not below it. *)
Class FieldParams := Fr_MODULUS : Z.

(** Modelled from the spec: the [toBuffer]/[fromBuffer] pairs of section 6,
    "concatenation of big-endian field elements": a field element is 32
    bytes, a public key is a point of two field elements (64 bytes), an
    address is a field element, a transaction hash is a 32-byte buffer. *)
#[global] Instance Fr_Serializable `{FieldParams} : Serializable Fr := {
  toBuffer f := toBufferBE (asBigInt f) 32;
  fromBuffer :=
    do bs <- readBytes 32;
    if toBigIntBE bs <? Fr_MODULUS then ret (mkFr (toBigIntBE bs))
    else throw (JsError "Value is greater or equal to field modulus.")
}.

#[global] Instance Point_Serializable `{FieldParams} : Serializable Point := {
  toBuffer p := toBuffer (x p) ++ toBuffer (y p);
  fromBuffer := do px <- readObject Fr; do py <- readObject Fr; ret (mkPoint px py)
}.

#[global] Instance AztecAddress_Serializable `{FieldParams} : Serializable AztecAddress := {
  toBuffer a := toBuffer (asField a);
  fromBuffer := do f <- readObject Fr; ret (mkAztecAddress f)
}.

#[global] Instance TxHash_Serializable : Serializable TxHash := {
  toBuffer h := buffer h;
  fromBuffer := do bs <- readBytes 32; ret (mkTxHash bs)
}.

(** The [Note] class of [@aztec/types] is consumed only through its
    [toBuffer()] and its static [fromBuffer]; it is an interface here. *)
Class NoteClass := {
  Note : Type;
  Note_Serializable :: Serializable Note;
}.

(** ** DeferredNoteDao *)

Module DeferredNoteDao.
Section WithParams.
Context {FP : FieldParams} {NC : NoteClass}.

Record t := mk {
  publicKey : PublicKey;
  note : Note;
  contractAddress : AztecAddress;
  storageSlot : Fr;
  txHash : TxHash;
  txNullifier : Fr;
  newCommitments : list Fr;
  dataStartIndexForTx : Z;
}.

Definition toBuffer (this : t) : Outcome Buffer :=
  serializeToBuffer
    [ OfBuffer (toBuffer (publicKey this));
      OfBuffer (toBuffer (note this));
      OfBuffer (toBuffer (contractAddress this));
      OfBuffer (toBuffer (storageSlot this));
      OfBuffer (toBuffer (txHash this));
      OfBuffer (toBuffer (txNullifier this));
      OfObject (Vector_toBuffer (newCommitments this));
      OfNumber (dataStartIndexForTx this) ].

(** The reader's calls are the constructor's arguments, evaluated left to
    right. *)
Definition read : Read t :=
  do a1 <- readObject Point;
  do a2 <- readObject Note;
  do a3 <- readObject AztecAddress;
  do a4 <- readObject Fr;
  do a5 <- readObject TxHash;
  do a6 <- readObject Fr;
  do a7 <- readVector Fr;
  do a8 <- readNumber;
  ret (mk a1 a2 a3 a4 a5 a6 a7 a8).

(** [fromBuffer(buffer)]: [BufferReader.asReader] starts a reader at the
    beginning of the buffer; what follows the object is left unread. *)
Definition fromBuffer (buffer : Buffer) : Outcome t := fst (read buffer).
End WithParams.
Arguments t {NC}.
End DeferredNoteDao.

(** ** Blocks, logs and headers *)

Inductive LogType := ENCRYPTED | UNENCRYPTED.

Inductive MerkleTreeId :=
| CONTRACT_TREE | NULLIFIER_TREE | NOTE_HASH_TREE | PUBLIC_DATA_TREE
| L1_TO_L2_MESSAGE_TREE | ARCHIVE.

(** Types and pure functions the synchronizer imports and only passes along:
    the global variables of a block and their hash, the printed form of a
    public key, the key store handle, the number of the first L2 block. *)
Class Imports := {
  GlobalVariables : Type;
  computeGlobalsHash : GlobalVariables -> Fr;
  Point_toString : Point -> string;
  KeyStore : Type;
  INITIAL_L2_BLOCK_NUM : Z;
}.

(** Modelled from the spec: the [EncryptedLogBundle] of section 3: for each
    transaction of a block, a flat list of log entries. *)
Record L2BlockL2Logs := mkL2BlockL2Logs { txLogs : list (list Buffer) }.

(** [L2BlockL2Logs.getTotalLogCount(logs)] *)
Definition getTotalLogCount (logs : list L2BlockL2Logs) : nat :=
  sum_list (map (fun l => sum_list (map length (txLogs l))) logs).

Record AppendOnlyTreeSnapshot := mkSnapshot { root : Fr; nextAvailableLeafIndex : Z }.

Module BlockHeader.
(** In the order of the constructor's arguments. *)
Record t := mk {
  noteHashTreeRoot : Fr;
  nullifierTreeRoot : Fr;
  contractTreeRoot : Fr;
  l1ToL2MessagesTreeRoot : Fr;
  archiveRoot : Fr;
  privateKernelVkTreeRoot : Fr;
  publicDataTreeRoot : Fr;
  globalVariablesHash : Fr;
}.
End BlockHeader.

Module L2Block.
Section WithParams.
Context {IM : Imports}.

Record t := mk {
  number : Z;
  globalVariables : GlobalVariables;
  endNoteHashTreeSnapshot : AppendOnlyTreeSnapshot;
  endNullifierTreeSnapshot : AppendOnlyTreeSnapshot;
  endContractTreeSnapshot : AppendOnlyTreeSnapshot;
  endL1ToL2MessageTreeSnapshot : AppendOnlyTreeSnapshot;
  endArchiveSnapshot : AppendOnlyTreeSnapshot;
  endPublicDataTreeSnapshot : AppendOnlyTreeSnapshot;
  newEncryptedLogs : option L2BlockL2Logs;
  newUnencryptedLogs : option L2BlockL2Logs;
}.

(** Modelled from the spec: [block.attachLogs(logs, logType)] ("attach
    logs to each block by index", section 4.6 step 5) stores the bundle in
    the block.  [logs] is [None] when the caller indexes past the end of
    its list and passes [undefined]; the method then raises on its first
    use of the bundle. *)
Definition attachLogs (block : t) (logs : option L2BlockL2Logs) (logType : LogType)
  : Outcome t :=
  match logs with
  | None => Throw (TypeError "Cannot read properties of undefined")
  | Some l =>
      match logType with
      | ENCRYPTED =>
          Ret (mk (number block) (globalVariables block)
                  (endNoteHashTreeSnapshot block) (endNullifierTreeSnapshot block)
                  (endContractTreeSnapshot block) (endL1ToL2MessageTreeSnapshot block)
                  (endArchiveSnapshot block) (endPublicDataTreeSnapshot block)
                  (Some l) (newUnencryptedLogs block))
      | UNENCRYPTED =>
          Ret (mk (number block) (globalVariables block)
                  (endNoteHashTreeSnapshot block) (endNullifierTreeSnapshot block)
                  (endContractTreeSnapshot block) (endL1ToL2MessageTreeSnapshot block)
                  (endArchiveSnapshot block) (endPublicDataTreeSnapshot block)
                  (newEncryptedLogs block) (Some l))
      end
  end.
End WithParams.
End L2Block.

Module L2BlockContext.
Record t `{Imports} := mk { block : L2Block.t }.
Arguments mk {_} block.
End L2BlockContext.

(** ** Notes and the database facade *)

Module NoteDao.
Section WithParams.
Context {NC : NoteClass}.

Record t := mk {
  note : Note;
  contractAddress : AztecAddress;
  storageSlot : Fr;
  txHash : TxHash;
  noteHash : Fr;
  siloedNullifier : Fr;
  leafIndex : Z;
  publicKey : PublicKey;
}.
End WithParams.
Arguments t {NC}.
End NoteDao.

Module PxeDatabase.
Section WithParams.
Context {NC : NoteClass}.

(** Modelled from the spec: the database facade of section 4.4.  The
    implementations of [PxeDatabase] are not in this file; the state is
    the block header row, the notes and the deferred notes. *)
Record t := mk {
  blockNumber : option Z;
  blockHeader : option BlockHeader.t;
  notes : list NoteDao.t;
  deferredNotes : list DeferredNoteDao.t;
}.

Definition empty : t := mk None None [] [].

(** The operations of the facade that write or that can fail. *)
Inductive Op :=
| SetBlockData (blockNumber : Z) (header : BlockHeader.t)
| AddNotes (notes : list NoteDao.t)
| AddDeferredNotes (deferredNotes : list DeferredNoteDao.t)
| GetDeferredNotesByContract (contractAddress : AztecAddress)
| RemoveDeferredNotesByContract (contractAddress : AztecAddress)
| RemoveNullifiedNotes (nullifiers : list Fr) (account : PublicKey).

(** Which operations fail, and with what error, is the store's business:
    an oracle decides it from the operation and the current state. *)
Definition Faults := Op -> t -> option Error.

(** "All atomic": a failing operation leaves the state as it was. *)
Definition atomically {A} (faults : Faults) (op : Op) (run : t -> A * t) : ST t A :=
  fun d =>
    match faults op d with
    | Some e => (Throw e, d)
    | None => let '(a, d') := run d in (Ret a, d')
    end.

Definition getBlockNumber (d : t) : option Z := blockNumber d.

Definition setBlockData (faults : Faults) (n : Z) (header : BlockHeader.t) : ST t unit :=
  atomically faults (SetBlockData n header)
    (fun d => (tt, mk (Some n) (Some header) (notes d) (deferredNotes d))).

Definition addNotes (faults : Faults) (ns : list NoteDao.t) : ST t unit :=
  atomically faults (AddNotes ns)
    (fun d => (tt, mk (blockNumber d) (blockHeader d) (notes d ++ ns) (deferredNotes d))).

Definition addDeferredNotes (faults : Faults) (ds : list DeferredNoteDao.t) : ST t unit :=
  atomically faults (AddDeferredNotes ds)
    (fun d => (tt, mk (blockNumber d) (blockHeader d) (notes d) (deferredNotes d ++ ds))).

Definition ofContract (a : AztecAddress) (n : DeferredNoteDao.t) : bool :=
  AztecAddress_equals (DeferredNoteDao.contractAddress n) a.

Definition getDeferredNotesByContract (faults : Faults) (a : AztecAddress)
  : ST t (list DeferredNoteDao.t) :=
  atomically faults (GetDeferredNotesByContract a)
    (fun d => (List.filter (ofContract a) (deferredNotes d), d)).

Definition removeDeferredNotesByContract (faults : Faults) (a : AztecAddress)
  : ST t (list DeferredNoteDao.t) :=
  atomically faults (RemoveDeferredNotesByContract a)
    (fun d => (List.filter (ofContract a) (deferredNotes d),
               mk (blockNumber d) (blockHeader d) (notes d)
                  (List.filter (fun n => negb (ofContract a n)) (deferredNotes d)))).

(** A note is nullified for [account] by [nullifiers] when it is the
    account's and its siloed nullifier is among them. *)
Definition nullified (nullifiers : list Fr) (account : PublicKey) (n : NoteDao.t) : bool :=
  Point_equals (NoteDao.publicKey n) account
  && existsb (Fr_equals (NoteDao.siloedNullifier n)) nullifiers.

Definition removeNullifiedNotes (faults : Faults) (nullifiers : list Fr)
    (account : PublicKey) : ST t (list NoteDao.t) :=
  atomically faults (RemoveNullifiedNotes nullifiers account)
    (fun d => (List.filter (nullified nullifiers account) (notes d),
               mk (blockNumber d) (blockHeader d)
                  (List.filter (fun n => negb (nullified nullifiers account n)) (notes d))
                  (deferredNotes d))).
End WithParams.
Arguments t {NC}.
Arguments Op {NC}.
Arguments Faults {NC}.
End PxeDatabase.

(** ** The node and the other collaborators *)

Module AztecNode.
(** The node's answers at the time of one synchronizer operation.  Every
    call is a remote call: it returns or it raises. *)
Record t `{Imports} := mk {
  getBlockNumber : Outcome Z;
  getBlockHeader : Outcome BlockHeader.t;
  getLogs : Z -> Z -> LogType -> Outcome (list L2BlockL2Logs);
  getBlocks : Z -> Z -> Outcome (list L2Block.t);
  findLeafIndex : MerkleTreeId -> Fr -> Outcome (option Z);
}.
Arguments mk {_} _ _ _ _ _.
End AztecNode.

(** What surrounds the synchronizer during one operation: the node, the
    failures of the store, the note decryption and interpretation routines
    (out of scope, section 1), and the identity of the key objects that the
    two JavaScript [Map]s of [reprocessDeferredNotesForContract] compare by
    reference: [txHashRef i] names the [txHash] object of the [i]-th deferred
    note read from the store, [publicKeyRef i] the [publicKey] object of the
    [i]-th decoded note. *)
Record World `{NoteClass} `{Imports} := mkWorld {
  node : AztecNode.t;
  faults : PxeDatabase.Faults;
  decryptNotes : PublicKey -> L2BlockContext.t -> L2BlockL2Logs
                 -> list NoteDao.t * list DeferredNoteDao.t;
  decodeDeferredNotes : PublicKey -> list DeferredNoteDao.t -> Outcome (list NoteDao.t);
  txHashRef : nat -> nat;
  publicKeyRef : nat -> nat;
}.
Arguments mkWorld {_ _} _ _ _ _ _ _.

(** ** NoteProcessor *)

Module NoteProcessor.
Section WithParams.
Context {NC : NoteClass} {IM : Imports}.

Record t := mk {
  publicKey : PublicKey;
  keyStore : KeyStore;
  syncedToBlock : Z;
}.

(** Modelled from the spec: the constructor of [NoteProcessor] (section
    4.5): [syncedToBlock] is initialized to [startingBlock - 1]. *)
Definition new (publicKey : PublicKey) (keyStore : KeyStore) (startingBlock : Z) : t :=
  mk publicKey keyStore (startingBlock - 1).

Definition setSyncedToBlock (n : Z) (p : t) : t := mk (publicKey p) (keyStore p) n.

(** Modelled from the spec: [NoteProcessor.process] (section 4.5).  Per
    block, in order: the notes and deferred notes the account's key opens
    (the decryption is the world's), persisted through the facade, then
    [syncedToBlock = block.number].  A database failure aborts the call.
    The state is the processor together with the database it shares. *)
Definition processBlock (w : World) (ctx : L2BlockContext.t) (logs : L2BlockL2Logs)
  : ST (t * PxeDatabase.t) unit :=
  do s <- get;
  let '(newNotes, deferred) := decryptNotes w (publicKey (fst s)) ctx logs in
  exec (fun s => let '(o, d) := PxeDatabase.addNotes (faults w) newNotes (snd s) in
                 (o, (fst s, d)));
  exec (fun s => let '(o, d) := PxeDatabase.addDeferredNotes (faults w) deferred (snd s) in
                 (o, (fst s, d)));
  modify (fun s => (setSyncedToBlock (L2Block.number (L2BlockContext.block ctx)) (fst s),
                    snd s)).

Definition process (w : World) (blockContexts : list L2BlockContext.t)
    (encryptedLogs : list L2BlockL2Logs) : ST (t * PxeDatabase.t) unit :=
  forEach (combine blockContexts encryptedLogs) (fun '(ctx, logs) => processBlock w ctx logs).
End WithParams.
End NoteProcessor.

(** ** JavaScript helpers *)

(** [Object.fromEntries(entries)]: entries are written in order, a later
    entry replaces an earlier one with the same key. *)
Definition Object_fromEntries {V} (entries : list (string * V)) : gmap string V :=
  fold_left (fun m kv => <[kv.1 := kv.2]> m) entries ∅.

(** Truthiness of a [bigint | undefined]: [undefined] and [0n] are falsy. *)
Definition truthy (found : option Z) : bool :=
  match found with
  | Some index => negb (index =? 0)
  | None => false
  end.

(** A JavaScript [Map] whose keys are objects: keys are compared by
    reference, entries are kept in insertion order.  An entry is the
    reference, the key object's value and the array stored under it;
    [mapPush] is [const a = m.get(k) ?? []; a.push(v); m.set(k, a)]. *)
Fixpoint mapPush {K A} (ref : nat) (key : K) (v : A) (m : list (nat * K * list A))
  : list (nat * K * list A) :=
  match m with
  | [] => [(ref, key, [v])]
  | (ref', key', vs) :: rest =>
      if Nat.eqb ref ref' then (ref', key', vs ++ [v]) :: rest
      else (ref', key', vs) :: mapPush ref key v rest
  end.

Definition groupByRef {K A} (ref : nat -> nat) (key : A -> K) (xs : list A)
  : list (nat * K * list A) :=
  fold_left (fun m ix => mapPush (ref ix.1) (key ix.2) ix.2 m)
            (combine (seq 0 (length xs)) xs) [].

(** ** Synchronizer *)

Module Synchronizer.
Section WithParams.
Context {NC : NoteClass} {IM : Imports}.

(** What is written to [this.log]; the interpolated values of a message are
    the arguments of its constructor. *)
Inductive LogEntry :=
| Info (msg : string)
| Forwarding (logCount processors : nat)
| ForwardingCatchUp (logCount : nat)
| CaughtUp (eventName : string) (publicKey : string)
| DecodedDeferredNote (contractAddress : AztecAddress) (storageSlot siloedNullifier : Fr)
| LogError (msg : string) (err : Error).

(** The calls the synchronizer makes to its collaborators, recorded in
    order at the moment they are made (whether or not they then fail). *)
Inductive Call :=
| CallDb (op : PxeDatabase.Op)
| CallProcess (publicKey : PublicKey) (blockContexts : list L2BlockContext.t)
              (encryptedLogs : list L2BlockL2Logs).

Record RunningPromise := mkRunningPromise {
  limit : Z;
  retryInterval : Z;
  started : bool;
}.

(** The fields of the class, with the database the synchronizer holds and
    the debug log it writes to.  [calls] is not a field of the class: it is
    the record of the calls made so far, kept so that statements can speak
    of what was called with what. *)
Record t := mk {
  runningPromise : option RunningPromise;
  noteProcessors : list NoteProcessor.t;
  running : bool;
  initialSyncBlockNumber : Z;
  log : list LogEntry;
  noteProcessorsToCatchUp : list NoteProcessor.t;
  db : PxeDatabase.t;
  calls : list Call;
}.

Definition new (db : PxeDatabase.t) : t :=
  mk None [] false (INITIAL_L2_BLOCK_NUM - 1) [] [] db [].

Definition set_runningPromise v (s : t) : t :=
  mk v (noteProcessors s) (running s) (initialSyncBlockNumber s) (log s)
     (noteProcessorsToCatchUp s) (db s) (calls s).
Definition set_noteProcessors v (s : t) : t :=
  mk (runningPromise s) v (running s) (initialSyncBlockNumber s) (log s)
     (noteProcessorsToCatchUp s) (db s) (calls s).
Definition set_running v (s : t) : t :=
  mk (runningPromise s) (noteProcessors s) v (initialSyncBlockNumber s) (log s)
     (noteProcessorsToCatchUp s) (db s) (calls s).
Definition set_initialSyncBlockNumber v (s : t) : t :=
  mk (runningPromise s) (noteProcessors s) (running s) v (log s)
     (noteProcessorsToCatchUp s) (db s) (calls s).
Definition set_log v (s : t) : t :=
  mk (runningPromise s) (noteProcessors s) (running s) (initialSyncBlockNumber s) v
     (noteProcessorsToCatchUp s) (db s) (calls s).
Definition set_noteProcessorsToCatchUp v (s : t) : t :=
  mk (runningPromise s) (noteProcessors s) (running s) (initialSyncBlockNumber s) (log s)
     v (db s) (calls s).
Definition set_db v (s : t) : t :=
  mk (runningPromise s) (noteProcessors s) (running s) (initialSyncBlockNumber s) (log s)
     (noteProcessorsToCatchUp s) v (calls s).
Definition set_calls v (s : t) : t :=
  mk (runningPromise s) (noteProcessors s) (running s) (initialSyncBlockNumber s) (log s)
     (noteProcessorsToCatchUp s) (db s) v.

Definition logEntry (e : LogEntry) : ST t unit :=
  modify (fun s => set_log (log s ++ [e]) s).

Definition record (c : Call) : ST t unit :=
  modify (fun s => set_calls (calls s ++ [c]) s).

(** An operation of the database facade, run on [this.db]. *)
Definition onDb {A} (m : ST PxeDatabase.t A) : ST t A :=
  fun s => let '(o, d) := m (db s) in (o, set_db d s).

Definition db_setBlockData (w : World) (n : Z) (header : BlockHeader.t) : ST t unit :=
  exec record (CallDb (PxeDatabase.SetBlockData n header));
  onDb (PxeDatabase.setBlockData (faults w) n header).

Definition db_addNotes (w : World) (ns : list NoteDao.t) : ST t unit :=
  exec record (CallDb (PxeDatabase.AddNotes ns));
  onDb (PxeDatabase.addNotes (faults w) ns).

Definition db_getDeferredNotesByContract (w : World) (a : AztecAddress)
  : ST t (list DeferredNoteDao.t) :=
  exec record (CallDb (PxeDatabase.GetDeferredNotesByContract a));
  onDb (PxeDatabase.getDeferredNotesByContract (faults w) a).

Definition db_removeDeferredNotesByContract (w : World) (a : AztecAddress)
  : ST t (list DeferredNoteDao.t) :=
  exec record (CallDb (PxeDatabase.RemoveDeferredNotesByContract a));
  onDb (PxeDatabase.removeDeferredNotesByContract (faults w) a).

Definition db_removeNullifiedNotes (w : World) (nullifiers : list Fr) (account : PublicKey)
  : ST t (list NoteDao.t) :=
  exec record (CallDb (PxeDatabase.RemoveNullifiedNotes nullifiers account));
  onDb (PxeDatabase.removeNullifiedNotes (faults w) nullifiers account).

(** A note processor is an object held in one of the two arrays and
    mutated in place; a reference to it is its position. *)
Inductive ProcessorRef := InActive (i : nat) | InCatchUp (i : nat).

Definition processorAt (r : ProcessorRef) (s : t) : option NoteProcessor.t :=
  match r with
  | InActive i => noteProcessors s !! i
  | InCatchUp i => noteProcessorsToCatchUp s !! i
  end.

Definition setProcessorAt (r : ProcessorRef) (p : NoteProcessor.t) (s : t) : t :=
  match r with
  | InActive i => set_noteProcessors (<[i := p]> (noteProcessors s)) s
  | InCatchUp i => set_noteProcessorsToCatchUp (<[i := p]> (noteProcessorsToCatchUp s)) s
  end.

(** [await noteProcessor.process(blockContexts, encryptedLogs)] *)
Definition callProcess (w : World) (r : ProcessorRef)
    (blockContexts : list L2BlockContext.t) (encryptedLogs : list L2BlockL2Logs)
  : ST t unit :=
  fun s =>
    match processorAt r s with
    | None => (Throw (TypeError "Cannot read properties of undefined"), s)
    | Some p =>
        let s1 := set_calls (calls s ++ [CallProcess (NoteProcessor.publicKey p)
                                           blockContexts encryptedLogs]) s in
        let '(o, (p', d')) :=
          NoteProcessor.process w blockContexts encryptedLogs (p, db s1) in
        (o, setProcessorAt r p' (set_db d' s1))
    end.

Definition getSynchedBlockNumber (s : t) : Z :=
  default (initialSyncBlockNumber s) (PxeDatabase.getBlockNumber (db s)).

Definition initialSync (w : World) : ST t unit :=
  do latestBlockNumber <- lift (AztecNode.getBlockNumber (node w));
  do latestBlockHeader <- lift (AztecNode.getBlockHeader (node w));
  exec modify (set_initialSyncBlockNumber latestBlockNumber);
  db_setBlockData w latestBlockNumber latestBlockHeader.

Definition setBlockDataFromBlock (w : World) (latestBlock : option L2BlockContext.t)
  : ST t unit :=
  match latestBlock with
  | None => throw (TypeError "Cannot destructure property 'block' of 'latestBlock'")
  | Some ctx =>
      let block := L2BlockContext.block ctx in
      do s <- get;
      if L2Block.number block <? initialSyncBlockNumber s then ret tt
      else
        let globalsHash := computeGlobalsHash (L2Block.globalVariables block) in
        let blockHeader :=
          BlockHeader.mk
            (root (L2Block.endNoteHashTreeSnapshot block))
            (root (L2Block.endNullifierTreeSnapshot block))
            (root (L2Block.endContractTreeSnapshot block))
            (root (L2Block.endL1ToL2MessageTreeSnapshot block))
            (root (L2Block.endArchiveSnapshot block))
            Fr_ZERO
            (root (L2Block.endPublicDataTreeSnapshot block))
            globalsHash in
        db_setBlockData w (L2Block.number block) blockHeader
  end.

(** [blocks.forEach((block, i) => { block.attachLogs(encryptedLogs[i], ...);
    block.attachLogs(unencryptedLogs[i], ...) })], from index [i] on. *)
Fixpoint attachLogsFrom (i : nat) (blocks : list L2Block.t)
    (encryptedLogs unencryptedLogs : list L2BlockL2Logs) : ST t (list L2Block.t) :=
  match blocks with
  | [] => ret []
  | block :: rest =>
      do b1 <- lift (L2Block.attachLogs block (encryptedLogs !! i) ENCRYPTED);
      do b2 <- lift (L2Block.attachLogs b1 (unencryptedLogs !! i) UNENCRYPTED);
      do bs <- attachLogsFrom (S i) rest encryptedLogs unencryptedLogs;
      ret (b2 :: bs)
  end.

(** [logs.slice(0, blocks.length)] when the lengths differ. *)
Definition trim {A B} (blocks : list A) (logs : list B) : list B :=
  if negb (length blocks =? length logs)%nat then take (length blocks) logs else logs.

Definition isEmpty {A} (l : list A) : bool :=
  match l with [] => true | _ => false end.

(** The body of the [try] block of [work]. *)
Definition work_try (w : World) (from limit : Z) : ST t bool :=
  do encryptedLogs <- lift (AztecNode.getLogs (node w) from limit ENCRYPTED);
  if isEmpty encryptedLogs then ret false else
  do unencryptedLogs <- lift (AztecNode.getLogs (node w) from limit UNENCRYPTED);
  if isEmpty unencryptedLogs then ret false else
  do blocks <- lift (AztecNode.getBlocks (node w) from (Z.of_nat (length encryptedLogs)));
  if isEmpty blocks then ret false else
  let encryptedLogs := trim blocks encryptedLogs in
  let unencryptedLogs := trim blocks unencryptedLogs in
  do blocks <- attachLogsFrom 0 blocks encryptedLogs unencryptedLogs;
  let blockContexts :=
    map L2BlockContext.mk (List.filter (fun block => from <=? L2Block.number block) blocks) in
  let latestBlock := last blockContexts in
  exec setBlockDataFromBlock w latestBlock;
  let logCount := getTotalLogCount encryptedLogs in
  do s <- get;
  exec logEntry (Forwarding logCount (length (noteProcessors s)));
  exec forEach (seq 0 (length (noteProcessors s)))
               (fun i => callProcess w (InActive i) blockContexts encryptedLogs);
  ret true.

Definition work (w : World) (limit : Z) : ST t bool :=
  do s <- get;
  let from := getSynchedBlockNumber s + 1 in
  try_catch (work_try w from limit)
    (fun err => exec logEntry (LogError "Error in synchronizer work" err); ret false).

(** [this.noteProcessorsToCatchUp.shift(); this.noteProcessors.push(noteProcessor)]
    where [noteProcessor] is the head of the catch-up array. *)
Definition promoteHead (s : t) : t :=
  match noteProcessorsToCatchUp s with
  | [] => s
  | noteProcessor :: rest =>
      set_noteProcessors (noteProcessors s ++ [noteProcessor])
        (set_noteProcessorsToCatchUp rest s)
  end.

(** The body of the [try] block of [workNoteProcessorCatchUp]. *)
Definition catchUp_try (w : World) (from limit toBlockNumber : Z) : ST t bool :=
  do encryptedLogs <- lift (AztecNode.getLogs (node w) from limit ENCRYPTED);
  if isEmpty encryptedLogs
  then throw (JsError "No encrypted logs in processor catch up mode") else
  do blocks <- lift (AztecNode.getBlocks (node w) from (Z.of_nat (length encryptedLogs)));
  if isEmpty blocks
  then throw (JsError "No blocks in processor catch up mode") else
  let encryptedLogs := trim blocks encryptedLogs in
  let blockContexts := map L2BlockContext.mk blocks in
  let logCount := getTotalLogCount encryptedLogs in
  exec logEntry (ForwardingCatchUp logCount);
  exec callProcess w (InCatchUp 0) blockContexts encryptedLogs;
  do s <- get;
  match noteProcessorsToCatchUp s !! 0%nat with
  | None => throw (TypeError "Cannot read properties of undefined")
  | Some noteProcessor =>
      if NoteProcessor.syncedToBlock noteProcessor =? toBlockNumber then
        exec logEntry (CaughtUp "note-processor-caught-up"
                         (Point_toString (NoteProcessor.publicKey noteProcessor)));
        exec modify promoteHead;
        ret true
      else ret true
  end.

Definition workNoteProcessorCatchUp (w : World) (limit : Z) : ST t bool :=
  do s <- get;
  let toBlockNumber := getSynchedBlockNumber s in
  match noteProcessorsToCatchUp s !! 0%nat with
  | None => throw (TypeError "Cannot read properties of undefined (reading 'status')")
  | Some noteProcessor =>
      if NoteProcessor.syncedToBlock noteProcessor >=? toBlockNumber then
        exec modify promoteHead;
        ret true
      else
        let from := NoteProcessor.syncedToBlock noteProcessor + 1 in
        let limit := Z.min limit (toBlockNumber - from + 1) in
        if limit <? 1
        then throw (JsError "Unexpected limit for note processor catch up")
        else
          try_catch (catchUp_try w from limit toBlockNumber)
            (fun err =>
               exec logEntry (LogError "Error in synchronizer workNoteProcessorCatchUp" err);
               ret false)
  end.

(** The loop of [sync], cut after [fuel] iterations. *)
Fixpoint sync (fuel : nat) (w : World) (limit : Z) : ST t unit :=
  match fuel with
  | O => ret tt
  | S fuel' =>
      do s <- get;
      if running s then
        do moreWork <-
          (if (0 <? length (noteProcessorsToCatchUp s))%nat
           then workNoteProcessorCatchUp w limit
           else work w limit);
        if (moreWork : bool) then sync fuel' w limit else ret tt
      else ret tt
  end.

Definition start (w : World) (limit retryInterval : Z) : ST t unit :=
  do s <- get;
  if running s then ret tt
  else
    exec modify (set_running true);
    exec initialSync w;
    exec logEntry (Info "Initial sync complete");
    exec modify (set_runningPromise (Some (mkRunningPromise limit retryInterval true)));
    logEntry (Info "Started loop").

(** [this.running = false; await this.runningPromise?.stop(); this.log('Stopped')].
    Modelled from the spec: [RunningPromise.stop()] (section 4.2) stops the
    ticker and waits for the in-flight [fn()], an iteration of [sync], to
    finish.  What that iteration does to the synchronizer is the business of
    the operation that runs it; its outcome is what the [await] sees, a
    raise when the iteration raised, and [promiseStopped] is that outcome.
    Without a running promise ([start] has not created one) [?.] skips the
    call. *)
Definition stop (promiseStopped : Outcome unit) : ST t unit :=
  exec modify (set_running false);
  do s <- get;
  exec match runningPromise s with
       | None => ret tt
       | Some p =>
           exec modify (set_runningPromise
                          (Some (mkRunningPromise (limit p) (retryInterval p) false)));
           lift promiseStopped
       end;
  logEntry (Info "Stopped").

Definition addAccount (publicKey : PublicKey) (keyStore : KeyStore) (startingBlock : Z)
    (s : t) : t :=
  let predicate := fun x : NoteProcessor.t => Point_equals (NoteProcessor.publicKey x) publicKey in
  let processor :=
    match List.find predicate (noteProcessors s) with
    | Some p => Some p
    | None => List.find predicate (noteProcessorsToCatchUp s)
    end in
  match processor with
  | Some _ => s
  | None =>
      set_noteProcessorsToCatchUp
        (noteProcessorsToCatchUp s ++ [NoteProcessor.new publicKey keyStore startingBlock]) s
  end.

Definition isGlobalStateSynchronized (w : World) : ST t bool :=
  do latest <- lift (AztecNode.getBlockNumber (node w));
  do s <- get;
  ret (latest <=? getSynchedBlockNumber s).

Record SyncStatus := mkSyncStatus {
  blocks : Z;
  notes : gmap string Z;
}.

Definition getSyncStatus (s : t) : SyncStatus :=
  let lastBlockNumber := getSynchedBlockNumber s in
  mkSyncStatus lastBlockNumber
    (Object_fromEntries
       (map (fun n => (Point_toString (NoteProcessor.publicKey n),
                       NoteProcessor.syncedToBlock n))
            (noteProcessors s))).

(** The nullifiers of [nullifiers] the node finds in its nullifier tree,
    as the [if (found)] of the source sees it. *)
Fixpoint findRelevantNullifiers (w : World) (nullifiers : list Fr) : ST t (list Fr) :=
  match nullifiers with
  | [] => ret []
  | nullifier :: rest =>
      do found <- lift (AztecNode.findLeafIndex (node w) NULLIFIER_TREE nullifier);
      do more <- findRelevantNullifiers w rest;
      ret (if truthy found then nullifier :: more else more)
  end.

Definition reprocessDeferredNotesForContract (w : World) (contractAddress : AztecAddress)
  : ST t unit :=
  do deferredNotes <- db_getDeferredNotesByContract w contractAddress;
  let txHashToDeferredNotes :=
    groupByRef (txHashRef w) DeferredNoteDao.txHash deferredNotes in
  do s <- get;
  do decoded <-
    mapST (fun deferredNotes : list DeferredNoteDao.t =>
             do perProcessor <-
               mapST (fun processor =>
                        lift (decodeDeferredNotes w (NoteProcessor.publicKey processor)
                                (List.filter
                                   (fun n => Point_equals (DeferredNoteDao.publicKey n)
                                               (NoteProcessor.publicKey processor))
                                   deferredNotes)))
                     (noteProcessors s);
             ret (concat perProcessor))
          (map snd txHashToDeferredNotes);
  let newNotes := concat decoded in
  exec db_removeDeferredNotesByContract w contractAddress;
  exec db_addNotes w newNotes;
  exec forEach newNotes
         (fun noteDao => logEntry (DecodedDeferredNote (NoteDao.contractAddress noteDao)
                                     (NoteDao.storageSlot noteDao)
                                     (NoteDao.siloedNullifier noteDao)));
  let publicKeyToNotes := groupByRef (publicKeyRef w) NoteDao.publicKey newNotes in
  forEach publicKeyToNotes
    (fun entry =>
       let publicKey := entry.1.2 in
       let nullifiers := map NoteDao.siloedNullifier entry.2 in
       do relevantNullifiers <- findRelevantNullifiers w nullifiers;
       exec db_removeNullifiedNotes w relevantNullifiers publicKey;
       ret tt).
End WithParams.
End Synchronizer.

(** ** Well-formed values *)

(** A field element as the [Fr] constructor accepts it. *)
Definition Fr_valid `{FieldParams} (f : Fr) : Prop := 0 <= asBigInt f < Fr_MODULUS.

Definition Point_valid `{FieldParams} (p : Point) : Prop := Fr_valid (x p) /\ Fr_valid (y p).

(** A [DeferredNoteDao] as its TypeScript type has it: field elements in the
    field, a 32-byte hash, an array (whose length JavaScript keeps below
    [2^32]) of field elements, and [dataStartIndexForTx] a u32. *)
Definition DeferredNoteDao_valid `{FieldParams} `{NoteClass} (Note_valid : Note -> Prop)
    (d : DeferredNoteDao.t) : Prop :=
  Point_valid (DeferredNoteDao.publicKey d)
  /\ Note_valid (DeferredNoteDao.note d)
  /\ Fr_valid (asField (DeferredNoteDao.contractAddress d))
  /\ Fr_valid (DeferredNoteDao.storageSlot d)
  /\ length (buffer (DeferredNoteDao.txHash d)) = 32%nat
  /\ Fr_valid (DeferredNoteDao.txNullifier d)
  /\ Forall Fr_valid (DeferredNoteDao.newCommitments d)
  /\ Z.of_nat (length (DeferredNoteDao.newCommitments d)) < 2 ^ 32
  /\ 0 <= DeferredNoteDao.dataStartIndexForTx d < 2 ^ 32.

(** What it means for a class to read back what it writes, whatever follows
    in the buffer. *)
Definition reads_back (T : Type) `{Serializable T} (valid : T -> Prop) : Prop :=
  forall (v : T) (rest : Buffer), valid v -> fromBuffer (toBuffer v ++ rest) = (Ret v, rest).

(** The byte layout of section 6. *)
Definition DeferredNoteDao_layout `{FieldParams} `{NoteClass} (d : DeferredNoteDao.t) : Buffer :=
  toBuffer (DeferredNoteDao.publicKey d)
  ++ toBuffer (DeferredNoteDao.note d)
  ++ toBuffer (DeferredNoteDao.contractAddress d)
  ++ toBuffer (DeferredNoteDao.storageSlot d)
  ++ toBuffer (DeferredNoteDao.txHash d)
  ++ toBuffer (DeferredNoteDao.txNullifier d)
  ++ (toBufferBE (Z.of_nat (length (DeferredNoteDao.newCommitments d))) 4
      ++ concat (map toBuffer (DeferredNoteDao.newCommitments d)))
  ++ toBufferBE (DeferredNoteDao.dataStartIndexForTx d) 4.

(** ** Sample instances

    Concrete parameters on which the statements below are run: the scalar
    field of BN254, notes that are vectors of field elements, and small
    stand-ins for the imported types. *)

Definition bn254 : FieldParams :=
  21888242871839275222246405745257275088548364400416034343698204186575808495617.

Record VectorNote := mkVectorNote { items : list Fr }.

Definition VectorNote_toBuffer `{FieldParams} (n : VectorNote) : Buffer :=
  toBufferBE (Z.of_nat (length (items n))) 4 ++ concat (map toBuffer (items n)).

Definition VectorNote_fromBuffer `{FieldParams} : Read VectorNote :=
  do fields <- readVector Fr; ret (mkVectorNote fields).

Definition VectorNote_valid `{FieldParams} (n : VectorNote) : Prop :=
  Forall Fr_valid (items n) /\ Z.of_nat (length (items n)) < 2 ^ 32.

Definition vectorNotes : NoteClass :=
  {| Note := VectorNote;
     Note_Serializable :=
       {| toBuffer := @VectorNote_toBuffer bn254; fromBuffer := @VectorNote_fromBuffer bn254 |} |}.

Definition sampleImports : Imports :=
  {| GlobalVariables := Z;
     computeGlobalsHash := fun g => mkFr (g + 1);
     Point_toString := fun p =>
       (HexString.of_Z (asBigInt (x p)) ++ "," ++ HexString.of_Z (asBigInt (y p)))%string;
     KeyStore := unit;
     INITIAL_L2_BLOCK_NUM := 1 |}.
Definition sampleDeferredNote : @DeferredNoteDao.t vectorNotes :=
  @DeferredNoteDao.mk vectorNotes
    (mkPoint (mkFr 1) (mkFr 2))
    (mkVectorNote [mkFr 3; mkFr 4])
    (mkAztecAddress (mkFr 5))
    (mkFr 6)
    (mkTxHash (repeat x2a 32))
    (mkFr 7)
    [mkFr 8; mkFr 9]
    128.

(** ** Observations on the synchronizer *)

(** The key under which [getSyncStatus] reports a note processor. *)
Definition processorKey `{Imports} (p : NoteProcessor.t) : string :=
  Point_toString (NoteProcessor.publicKey p).

(** Some processor of the list has a public key equal to [publicKey]. *)
Definition registered `{Imports} (publicKey : PublicKey)
    (l : list NoteProcessor.t) : Prop :=
  exists p, In p l /\ Point_equals (NoteProcessor.publicKey p) publicKey = true.


(** The entries a run appended to the log. *)
Definition logged `{NoteClass} `{Imports} (s s' : Synchronizer.t)
    (entries : list Synchronizer.LogEntry) : Prop :=
  Synchronizer.log s' = Synchronizer.log s ++ entries.

(** The calls a run made to its collaborators. *)
Definition called `{NoteClass} `{Imports} (s s' : Synchronizer.t)
    (cs : list Synchronizer.Call) : Prop :=
  Synchronizer.calls s' = Synchronizer.calls s ++ cs.

(** C2 as the specification words it: with a lagging head and an empty
    answer of the node, the call raises to its caller. *)
Definition catchUp_raises_on_empty `{NoteClass} `{Imports}
    (w : World) (limit : Z) (s : Synchronizer.t) : Prop :=
  forall p rest,
    Synchronizer.noteProcessorsToCatchUp s = p :: rest ->
    NoteProcessor.syncedToBlock p < Synchronizer.getSynchedBlockNumber s ->
    let from := NoteProcessor.syncedToBlock p + 1 in
    let limit' := Z.min limit (Synchronizer.getSynchedBlockNumber s - from + 1) in
    (AztecNode.getLogs (node w) from limit' ENCRYPTED = Ret []
     \/ exists logs, AztecNode.getLogs (node w) from limit' ENCRYPTED = Ret logs
                     /\ AztecNode.getBlocks (node w) from (Z.of_nat (length logs)) = Ret []) ->
    exists e, fst (Synchronizer.workNoteProcessorCatchUp w limit s) = Throw e.

(** C3 as the specification words it: a head that is already synched is
    moved to the active list, the caught-up event is emitted and the call
    returns [true]. *)
Definition promotion_emits_event `{NoteClass} `{Imports}
    (w : World) (limit : Z) (s : Synchronizer.t) : Prop :=
  forall p rest,
    Synchronizer.noteProcessorsToCatchUp s = p :: rest ->
    NoteProcessor.syncedToBlock p >= Synchronizer.getSynchedBlockNumber s ->
    let '(o, s') := Synchronizer.workNoteProcessorCatchUp w limit s in
    o = Ret true
    /\ Synchronizer.noteProcessorsToCatchUp s' = rest
    /\ Synchronizer.noteProcessors s' = Synchronizer.noteProcessors s ++ [p]
    /\ In (Synchronizer.CaughtUp "note-processor-caught-up" (processorKey p))
          (Synchronizer.log s').

(** A node that has nothing, a store that never fails, keys that open
    nothing. *)
Definition emptyNode : @AztecNode.t sampleImports :=
  AztecNode.mk (Ret 0)
    (Ret (BlockHeader.mk Fr_ZERO Fr_ZERO Fr_ZERO Fr_ZERO Fr_ZERO Fr_ZERO Fr_ZERO Fr_ZERO))
    (fun _ _ _ => Ret []) (fun _ _ => Ret []) (fun _ _ => Ret None).

Definition noFaults : @PxeDatabase.Faults vectorNotes := fun _ _ => None.

Definition quietWorld (n : @AztecNode.t sampleImports) : @World vectorNotes sampleImports :=
  mkWorld n noFaults (fun _ _ _ => ([], [])) (fun _ _ => Ret []) (fun i => i) (fun i => i).

Definition sampleKey (n : Z) : PublicKey := mkPoint (mkFr n) (mkFr (n + 1)).

Definition sampleProcessor (n synced : Z) : @NoteProcessor.t sampleImports :=
  @NoteProcessor.mk sampleImports (sampleKey n) tt synced.

(** A synchronizer whose database is at block [cursor], with the given
    active and catch-up processors. *)
Definition sampleSynchronizer (cursor : Z)
    (active catchUp : list (@NoteProcessor.t sampleImports))
  : @Synchronizer.t vectorNotes sampleImports :=
  Synchronizer.mk None active true 0 [] catchUp
    (PxeDatabase.mk (Some cursor) None [] []) [].


(** The header the specification describes for a block: its six tree roots
    (note-hash, nullifier, contract, L1-to-L2, archive, public-data), the
    still-unused kernel tree root at zero, and the hash of its global
    variables. *)
Definition headerOfBlock `{Imports} (block : L2Block.t) : BlockHeader.t :=
  {| BlockHeader.noteHashTreeRoot := root (L2Block.endNoteHashTreeSnapshot block);
     BlockHeader.nullifierTreeRoot := root (L2Block.endNullifierTreeSnapshot block);
     BlockHeader.contractTreeRoot := root (L2Block.endContractTreeSnapshot block);
     BlockHeader.l1ToL2MessagesTreeRoot := root (L2Block.endL1ToL2MessageTreeSnapshot block);
     BlockHeader.archiveRoot := root (L2Block.endArchiveSnapshot block);
     BlockHeader.privateKernelVkTreeRoot := Fr_ZERO;
     BlockHeader.publicDataTreeRoot := root (L2Block.endPublicDataTreeSnapshot block);
     BlockHeader.globalVariablesHash := computeGlobalsHash (L2Block.globalVariables block) |}.


(** ** Relating the state before and after a computation *)

(** Every run of [m] relates its initial to its final state by [R], whether
    it returns or raises. *)
Definition respects {S A} (R : S -> S -> Prop) (m : ST S A) : Prop :=
  forall s o s', m s = (o, s') -> R s s'.

(** Order on an optional block number: unset is below everything. *)
Definition blockNumber_le (a b : option Z) : Prop :=
  match a, b with
  | None, _ => True
  | Some m, Some n => m <= n
  | Some _, None => False
  end.

(** The database still holds the same block header row. *)
Definition sameBlockData `{NoteClass} `{Imports} (s s' : Synchronizer.t) : Prop :=
  PxeDatabase.blockNumber (Synchronizer.db s') = PxeDatabase.blockNumber (Synchronizer.db s)
  /\ PxeDatabase.blockHeader (Synchronizer.db s') = PxeDatabase.blockHeader (Synchronizer.db s)
  /\ Synchronizer.initialSyncBlockNumber s' = Synchronizer.initialSyncBlockNumber s.


(** What [process] leaves alone: the block header row of the database and
    the processor's public key. *)
Definition processKeeps `{NoteClass} `{Imports}
    (s s' : NoteProcessor.t * PxeDatabase.t) : Prop :=
  PxeDatabase.blockNumber (snd s') = PxeDatabase.blockNumber (snd s)
  /\ PxeDatabase.blockHeader (snd s') = PxeDatabase.blockHeader (snd s)
  /\ NoteProcessor.publicKey (fst s') = NoteProcessor.publicKey (fst s).


(** ** Auxiliary views of [work] *)

(** A block with both bundles attached. *)
Definition withLogs `{Imports} (b : L2Block.t) (enc unenc : L2BlockL2Logs) : L2Block.t :=
  L2Block.mk (L2Block.number b) (L2Block.globalVariables b)
    (L2Block.endNoteHashTreeSnapshot b) (L2Block.endNullifierTreeSnapshot b)
    (L2Block.endContractTreeSnapshot b) (L2Block.endL1ToL2MessageTreeSnapshot b)
    (L2Block.endArchiveSnapshot b) (L2Block.endPublicDataTreeSnapshot b)
    (Some enc) (Some unenc).

(** The blocks with the bundles of the same index attached. *)
Fixpoint attachedList `{Imports} (blocks : list L2Block.t) (enc unenc : list L2BlockL2Logs)
  : list L2Block.t :=
  match blocks, enc, unenc with
  | b :: bs, e :: es, u :: us => withLogs b e u :: attachedList bs es us
  | _, _, _ => []
  end.

(** The rest of the [try] block of [work] once the block contexts and the
    trimmed encrypted logs are known. *)
Definition work_tail `{NoteClass} `{Imports} (w : World)
    (blockContexts : list L2BlockContext.t) (encryptedLogs : list L2BlockL2Logs)
  : ST Synchronizer.t bool :=
  exec Synchronizer.setBlockDataFromBlock w (last blockContexts);
  do s <- get;
  exec Synchronizer.logEntry
         (Synchronizer.Forwarding (getTotalLogCount encryptedLogs)
            (length (Synchronizer.noteProcessors s)));
  exec forEach (seq 0 (length (Synchronizer.noteProcessors s)))
         (fun i => Synchronizer.callProcess w (Synchronizer.InActive i)
                     blockContexts encryptedLogs);
  ret true.

(** The block contexts [work] keeps: those of the blocks numbered [from] or
    more. *)
Definition keptContexts `{Imports} (from : Z) (blocks : list L2Block.t)
  : list L2BlockContext.t :=
  map L2BlockContext.mk (List.filter (fun block => from <=? L2Block.number block) blocks).


(** The [process] calls made on the processors with the given public keys. *)
Definition processCalls `{NoteClass} `{Imports} (keys : list PublicKey)
    (blockContexts : list L2BlockContext.t) (encryptedLogs : list L2BlockL2Logs)
  : list Synchronizer.Call :=
  map (fun pk => Synchronizer.CallProcess pk blockContexts encryptedLogs) keys.

(** A store that does not fail. *)
Definition faultless `{NoteClass} `{Imports} (w : World) : Prop :=
  forall op d, faults w op d = None.




Definition sampleSnapshot (n : Z) : AppendOnlyTreeSnapshot := mkSnapshot (mkFr n) 0.

Definition sampleBlock (n : Z) : @L2Block.t sampleImports :=
  @L2Block.mk sampleImports n n
    (sampleSnapshot (10 * n + 1)) (sampleSnapshot (10 * n + 2)) (sampleSnapshot (10 * n + 3))
    (sampleSnapshot (10 * n + 4)) (sampleSnapshot (10 * n + 5)) (sampleSnapshot (10 * n + 6))
    None None.

Definition sampleLogs (n : nat) : L2BlockL2Logs := mkL2BlockL2Logs [repeat [x01] n].

(** A node at block 8 that serves at most [served] blocks per call but as
    many log bundles as asked for. *)
Definition servingNode (served : nat) : @AztecNode.t sampleImports :=
  AztecNode.mk (Ret 8)
    (Ret (BlockHeader.mk Fr_ZERO Fr_ZERO Fr_ZERO Fr_ZERO Fr_ZERO Fr_ZERO Fr_ZERO Fr_ZERO))
    (fun from limit _ => Ret (map sampleLogs (seq 0 (Z.to_nat limit))))
    (fun from limit =>
       Ret (map (fun i => sampleBlock (from + Z.of_nat i))
                (seq 0 (Nat.min served (Z.to_nat limit)))))
    (fun _ _ => Ret None).

(** A store that refuses to add notes. *)
Definition notesFail : @PxeDatabase.Faults vectorNotes :=
  fun op _ =>
    match op with
    | PxeDatabase.AddNotes _ => Some (DatabaseError "cannot add notes")
    | _ => None
    end.

Definition notesFailWorld : @World vectorNotes sampleImports :=
  mkWorld (servingNode 1) notesFail (fun _ _ _ => ([], [])) (fun _ _ => Ret [])
          (fun i => i) (fun i => i).


(** ** Sequences of operations *)

(** The operations of the synchronizer, each with the world it runs in. *)
Inductive Op `{NoteClass} `{Imports} :=
| OpStart (w : World) (limit retryInterval : Z)
| OpInitialSync (w : World)
| OpSync (fuel : nat) (w : World) (limit : Z)
| OpWork (w : World) (limit : Z)
| OpCatchUp (w : World) (limit : Z)
| OpStop (promiseStopped : Outcome unit)
| OpAddAccount (publicKey : PublicKey) (keyStore : KeyStore) (startingBlock : Z)
| OpReprocess (w : World) (contractAddress : AztecAddress).

(** The synchronizer after an operation, whether it returned or raised. *)
Definition step `{NoteClass} `{Imports} (op : Op) (s : Synchronizer.t) : Synchronizer.t :=
  match op with
  | OpStart w limit retryInterval => snd (Synchronizer.start w limit retryInterval s)
  | OpInitialSync w => snd (Synchronizer.initialSync w s)
  | OpSync fuel w limit => snd (Synchronizer.sync fuel w limit s)
  | OpWork w limit => snd (Synchronizer.work w limit s)
  | OpCatchUp w limit => snd (Synchronizer.workNoteProcessorCatchUp w limit s)
  | OpStop promiseStopped => snd (Synchronizer.stop promiseStopped s)
  | OpAddAccount publicKey keyStore startingBlock =>
      Synchronizer.addAccount publicKey keyStore startingBlock s
  | OpReprocess w contractAddress =>
      snd (Synchronizer.reprocessDeferredNotesForContract w contractAddress s)
  end.

Definition run `{NoteClass} `{Imports} (ops : list Op) (s : Synchronizer.t) : Synchronizer.t :=
  fold_left (fun s op => step op s) ops s.

Definition dbBlockNumber `{NoteClass} `{Imports} (s : Synchronizer.t) : option Z :=
  PxeDatabase.getBlockNumber (Synchronizer.db s).

(** The node's latest block is not behind the database. *)
Definition nodeAhead `{NoteClass} `{Imports} (w : World) (s : Synchronizer.t) : Prop :=
  forall latest,
    AztecNode.getBlockNumber (node w) = Ret latest ->
    blockNumber_le (dbBlockNumber s) (Some latest).

(** The hypothesis of C4 on an operation: at an initial sync the node is not
    behind the database. *)
Definition opAssumption `{NoteClass} `{Imports} (op : Op) (s : Synchronizer.t) : Prop :=
  match op with
  | OpInitialSync w => nodeAhead w s
  | OpStart w _ _ => Synchronizer.running s = false -> nodeAhead w s
  | _ => True
  end.

Fixpoint runAssumptions `{NoteClass} `{Imports} (ops : list Op) (s : Synchronizer.t) : Prop :=
  match ops with
  | [] => True
  | op :: rest => opAssumption op s /\ runAssumptions rest (step op s)
  end.

(** The operations that neither are nor contain [initialSync] or [work]. *)
Definition notSyncing `{NoteClass} `{Imports} (op : Op) : Prop :=
  match op with
  | OpStart _ _ _ | OpInitialSync _ | OpSync _ _ _ | OpWork _ _ => False
  | _ => True
  end.

Definition cursorAdvances `{NoteClass} `{Imports} (s s' : Synchronizer.t) : Prop :=
  blockNumber_le (dbBlockNumber s) (dbBlockNumber s').


Definition sampleAddAccount (n startingBlock : Z) : @Op vectorNotes sampleImports :=
  @OpAddAccount vectorNotes sampleImports (sampleKey n) tt startingBlock.


(** ** Observations on reprocessDeferredNotesForContract *)

(** The node reports [nullifier] in its nullifier tree at a leaf index other
    than zero: what the [if (found)] of the source takes for "found". *)
Definition foundNonZero `{Imports} (n : AztecNode.t) (nullifier : Fr) : Prop :=
  exists index,
    AztecNode.findLeafIndex n NULLIFIER_TREE nullifier = Ret (Some index) /\ index <> 0.

(** A call that asks the store to remove notes asks it only for nullifiers
    found at a non-zero index. *)
Definition removesOnlyFound `{NoteClass} `{Imports} (w : World) (c : Synchronizer.Call) : Prop :=
  match c with
  | Synchronizer.CallDb (PxeDatabase.RemoveNullifiedNotes nullifiers _) =>
      Forall (foundNonZero (node w)) nullifiers
  | _ => True
  end.

Definition callsOnlyFound `{NoteClass} `{Imports} (w : World) (s s' : Synchronizer.t) : Prop :=
  exists cs, called s s' cs /\ Forall (removesOnlyFound w) cs.


(** A node whose nullifier tree holds the nullifier 7 at leaf [index], and a
    world in which every deferred note decodes to a note with that
    nullifier. *)
Definition nullifierNode (index : Z) : @AztecNode.t sampleImports :=
  AztecNode.mk (Ret 8)
    (Ret (BlockHeader.mk Fr_ZERO Fr_ZERO Fr_ZERO Fr_ZERO Fr_ZERO Fr_ZERO Fr_ZERO Fr_ZERO))
    (fun _ _ _ => Ret []) (fun _ _ => Ret [])
    (fun _ nullifier => if Fr_equals nullifier (mkFr 7) then Ret (Some index) else Ret None).

Definition decodedNote (d : @DeferredNoteDao.t vectorNotes) : @NoteDao.t vectorNotes :=
  @NoteDao.mk vectorNotes (DeferredNoteDao.note d) (DeferredNoteDao.contractAddress d)
    (DeferredNoteDao.storageSlot d) (DeferredNoteDao.txHash d) (mkFr 11) (mkFr 7) 0
    (DeferredNoteDao.publicKey d).

Definition decodingWorld (index : Z) : @World vectorNotes sampleImports :=
  mkWorld (nullifierNode index) noFaults (fun _ _ _ => ([], []))
          (fun _ ds => Ret (map decodedNote ds)) (fun i => i) (fun i => i).

Definition deferringSynchronizer : @Synchronizer.t vectorNotes sampleImports :=
  Synchronizer.mk None [sampleProcessor 1 5] true 0 [] []
    (PxeDatabase.mk (Some 5) None [] [sampleDeferredNote]) [].


(** ** The registered public keys *)

Definition registeredKeys `{NoteClass} `{Imports} (s : Synchronizer.t) : list PublicKey :=
  map NoteProcessor.publicKey
      (Synchronizer.noteProcessors s ++ Synchronizer.noteProcessorsToCatchUp s).

(** The same accounts are registered, in whatever order and list. *)
Definition sameKeys `{NoteClass} `{Imports} (s s' : Synchronizer.t) : Prop :=
  registeredKeys s ≡ₚ registeredKeys s'.


(** ** isAccountStateSynchronized *)

Module CompleteAddress.
Record t := mk {
  address : AztecAddress;
  publicKey : PublicKey;
  partialAddress : Fr;
}.
End CompleteAddress.

(** Modelled from the spec: [NoteProcessor.isSynchronized] (section 4.5):
    true iff [syncedToBlock >= node.getBlockNumber()]. *)
Definition NoteProcessor_isSynchronized `{NoteClass} `{Imports} (w : World)
    (p : NoteProcessor.t) : Outcome bool :=
  match AztecNode.getBlockNumber (node w) with
  | Ret latest => Ret (latest <=? NoteProcessor.syncedToBlock p)
  | Throw e => Throw e
  end.

(** [Synchronizer.isAccountStateSynchronized(account)].  The registry of
    complete addresses is a part of the store that the synchronizer only
    reads here; [getCompleteAddress] is the answer of
    [db.getCompleteAddress]. *)
Definition isAccountStateSynchronized `{NoteClass} `{Imports} (w : World)
    (getCompleteAddress : AztecAddress -> Outcome (option CompleteAddress.t))
    (account : AztecAddress) : ST Synchronizer.t bool :=
  do completeAddress <- lift (getCompleteAddress account);
  match completeAddress with
  | None =>
      throw (JsError "Checking if account is synched is not possible for ${account} because it is not registered.")
  | Some completeAddress =>
      do s <- get;
      let findByPublicKey := fun x : NoteProcessor.t =>
        Point_equals (NoteProcessor.publicKey x) (CompleteAddress.publicKey completeAddress) in
      let processor :=
        match List.find findByPublicKey (Synchronizer.noteProcessors s) with
        | Some p => Some p
        | None => List.find findByPublicKey (Synchronizer.noteProcessorsToCatchUp s)
        end in
      match processor with
      | None =>
          throw (JsError "Checking if account is synched is not possible for ${account} because it is only registered as a recipient.")
      | Some processor => lift (NoteProcessor_isSynchronized w processor)
      end
  end.

(** ** Further observations *)

(** Nothing but the log, the call record and the contents of the database
    changed. *)
Definition sameControl `{NoteClass} `{Imports} (s s' : Synchronizer.t) : Prop :=
  Synchronizer.running s' = Synchronizer.running s
  /\ Synchronizer.noteProcessorsToCatchUp s' = Synchronizer.noteProcessorsToCatchUp s
  /\ map NoteProcessor.publicKey (Synchronizer.noteProcessors s')
     = map NoteProcessor.publicKey (Synchronizer.noteProcessors s).

(** The synchronizer is still running (or still stopped). *)
Definition sameRunning `{NoteClass} `{Imports} (s s' : Synchronizer.t) : Prop :=
  Synchronizer.running s' = Synchronizer.running s.

(** The two lists of processors are as they were. *)
Definition sameProcessors `{NoteClass} `{Imports} (s s' : Synchronizer.t) : Prop :=
  Synchronizer.noteProcessors s' = Synchronizer.noteProcessors s
  /\ Synchronizer.noteProcessorsToCatchUp s' = Synchronizer.noteProcessorsToCatchUp s.

(** The deferred notes of the database are as they were. *)
Definition sameDeferred `{NoteClass} `{Imports} (s s' : Synchronizer.t) : Prop :=
  PxeDatabase.deferredNotes (Synchronizer.db s') = PxeDatabase.deferredNotes (Synchronizer.db s).


(** A node that answers every request with one bundle of logs and with
    block 2, and a node that cannot be reached. *)
Definition staleNode : @AztecNode.t sampleImports :=
  AztecNode.mk (Ret 8)
    (Ret (BlockHeader.mk Fr_ZERO Fr_ZERO Fr_ZERO Fr_ZERO Fr_ZERO Fr_ZERO Fr_ZERO Fr_ZERO))
    (fun _ _ _ => Ret [sampleLogs 1]) (fun _ _ => Ret [sampleBlock 2]) (fun _ _ => Ret None).

Definition downNode : @AztecNode.t sampleImports :=
  AztecNode.mk (Throw (NodeError "unreachable")) (Throw (NodeError "unreachable"))
    (fun _ _ _ => Throw (NodeError "unreachable")) (fun _ _ => Throw (NodeError "unreachable"))
    (fun _ _ => Throw (NodeError "unreachable")).


(** ** The parts of reprocessDeferredNotesForContract *)

(** The two nested loops that decode: every group of deferred notes is
    offered to every active processor, in order. *)
Definition decodeGroups `{NoteClass} `{Imports} (w : World)
    (processors : list NoteProcessor.t) (groups : list (list DeferredNoteDao.t))
  : ST Synchronizer.t (list (list NoteDao.t)) :=
  mapST (fun deferredNotes : list DeferredNoteDao.t =>
           do perProcessor <-
             mapST (fun processor =>
                      lift (decodeDeferredNotes w (NoteProcessor.publicKey processor)
                              (List.filter
                                 (fun n => Point_equals (DeferredNoteDao.publicKey n)
                                             (NoteProcessor.publicKey processor))
                                 deferredNotes)))
                   processors;
           ret (concat perProcessor))
        groups.

(** What follows the removal of the deferred notes. *)
Definition afterDecoding `{NoteClass} `{Imports} (w : World) (newNotes : list NoteDao.t)
  : ST Synchronizer.t unit :=
  exec Synchronizer.db_addNotes w newNotes;
  exec forEach newNotes
         (fun noteDao =>
            Synchronizer.logEntry
              (Synchronizer.DecodedDeferredNote (NoteDao.contractAddress noteDao)
                 (NoteDao.storageSlot noteDao) (NoteDao.siloedNullifier noteDao)));
  let publicKeyToNotes := groupByRef (publicKeyRef w) NoteDao.publicKey newNotes in
  forEach publicKeyToNotes
    (fun entry =>
       let publicKey := entry.1.2 in
       let nullifiers := map NoteDao.siloedNullifier entry.2 in
       do relevantNullifiers <- Synchronizer.findRelevantNullifiers w nullifiers;
       exec Synchronizer.db_removeNullifiedNotes w relevantNullifiers publicKey;
       ret tt).

(** The deferred notes of the other contracts. *)
Definition otherContracts `{NoteClass} (a : AztecAddress) (ds : list DeferredNoteDao.t)
  : list DeferredNoteDao.t :=
  List.filter (fun n => negb (PxeDatabase.ofContract a n)) ds.

(** A world whose processors cannot decode anything. *)
Definition undecodableWorld : @World vectorNotes sampleImports :=
  mkWorld emptyNode noFaults (fun _ _ _ => ([], []))
          (fun _ _ => Throw (JsError "cannot decode")) (fun i => i) (fun i => i).




(** ** C5 as the specification words it *)


(** A store that refuses the block header row, and a node that answers a
    request for the blocks from [from] on with those from [from - 1] on. *)
Definition headerFails : @PxeDatabase.Faults vectorNotes :=
  fun op _ =>
    match op with
    | PxeDatabase.SetBlockData _ _ => Some (DatabaseError "cannot set block data")
    | _ => None
    end.

Definition headerFailWorld : @World vectorNotes sampleImports :=
  mkWorld (servingNode 1) headerFails (fun _ _ _ => ([], [])) (fun _ _ => Ret [])
          (fun i => i) (fun i => i).

Definition overlappingNode : @AztecNode.t sampleImports :=
  AztecNode.mk (Ret 8)
    (Ret (BlockHeader.mk Fr_ZERO Fr_ZERO Fr_ZERO Fr_ZERO Fr_ZERO Fr_ZERO Fr_ZERO Fr_ZERO))
    (fun from limit _ => Ret (map sampleLogs (seq 0 (Z.to_nat limit))))
    (fun from limit => Ret (map (fun i => sampleBlock (from - 1 + Z.of_nat i)) (seq 0 3)))
    (fun _ _ => Ret None).

(** * Properties *)

(** ** The monad *)

Lemma bind_ret_l {S A B} (m : ST S A) (k : A -> ST S B) s a s' :
  m s = (Ret a, s') -> bind m k s = k a s'.
Proof. intros Hm. unfold bind. now rewrite Hm. Qed.

Lemma bind_throw_l {S A B} (m : ST S A) (k : A -> ST S B) s e s' :
  m s = (Throw e, s') -> bind m k s = (Throw e, s').
Proof. intros Hm. unfold bind. now rewrite Hm. Qed.

(** ** Big-endian bytes *)

Lemma Z_of_byte_of_Z z : Z_of_byte (byte_of_Z z) = z mod 256.
Proof.
  unfold Z_of_byte, byte_of_Z.
  assert (Hr : 0 <= z mod 256 < 256) by (apply Z.mod_pos_bound; lia).
  destruct (Byte.of_N (Z.to_N (z mod 256))) as [b|] eqn:Hb.
  - apply Byte.to_of_N in Hb. rewrite Hb. lia.
  - apply Byte.of_N_None_iff in Hb. lia.
Qed.

Lemma length_toBufferBE v w : length (toBufferBE v w) = w.
Proof. induction w as [|w IH]; simpl; congruence. Qed.

Lemma fold_toBufferBE v w acc :
  fold_left (fun a b => a * 256 + Z_of_byte b) (toBufferBE v w) acc
  = acc * 256 ^ Z.of_nat w + v mod 256 ^ Z.of_nat w.
Proof.
  revert acc. induction w as [|w IH]; intros acc.
  - simpl. rewrite Z.mod_1_r. lia.
  - cbn [toBufferBE fold_left]. rewrite IH, Z_of_byte_of_Z.
    rewrite Nat2Z.inj_succ, Z.pow_succ_r by lia.
    set (p := 256 ^ Z.of_nat w).
    assert (Hp : 0 < p) by (subst p; apply Z.pow_pos_nonneg; lia).
    rewrite (Z.mul_comm 256 p), Z.rem_mul_r by lia.
    lia.
Qed.

Lemma toBigIntBE_toBufferBE v w :
  0 <= v < 256 ^ Z.of_nat w -> toBigIntBE (toBufferBE v w) = v.
Proof.
  intros Hv. unfold toBigIntBE. rewrite fold_toBufferBE.
  rewrite Z.mod_small by lia. lia.
Qed.

(** ** The reader *)

Lemma readBytes_app n (bs rest : Buffer) :
  length bs = n -> readBytes n (bs ++ rest) = (Ret bs, rest).
Proof.
  intros <-. unfold readBytes.
  rewrite take_app_length, drop_app_length.
  destruct (Nat.leb_spec (length bs) (length (bs ++ rest))) as [_|Hn]; [reflexivity|].
  rewrite length_app in Hn. lia.
Qed.

Lemma readNumber_u32 n (rest : Buffer) :
  0 <= n < 2 ^ 32 -> readNumber (toBufferBE n 4 ++ rest) = (Ret n, rest).
Proof.
  intros Hn. unfold readNumber.
  erewrite bind_ret_l by (apply readBytes_app, length_toBufferBE).
  unfold ret. rewrite toBigIntBE_toBufferBE; [reflexivity|].
  change (256 ^ Z.of_nat 4) with (2 ^ 32). lia.
Qed.

Section Codecs.
Context {FP : FieldParams}.
Hypothesis Fr_MODULUS_fits : Fr_MODULUS <= 2 ^ 256.

Lemma Fr_reads_back : reads_back Fr Fr_valid.
Proof.
  intros [v] rest Hv. unfold Fr_valid in Hv. simpl in Hv.
  cbn [fromBuffer toBuffer Fr_Serializable asBigInt].
  erewrite bind_ret_l by (apply readBytes_app, length_toBufferBE).
  rewrite toBigIntBE_toBufferBE
    by (change (256 ^ Z.of_nat 32) with (2 ^ 256); lia).
  destruct (Z.ltb_spec v Fr_MODULUS); [reflexivity | lia].
Qed.

Lemma Point_reads_back : reads_back Point Point_valid.
Proof.
  intros [px py] rest [Hx Hy]. simpl in Hx, Hy.
  cbn [fromBuffer toBuffer Point_Serializable x y]. unfold readObject.
  rewrite <- app_assoc.
  erewrite bind_ret_l by (apply Fr_reads_back, Hx).
  erewrite bind_ret_l by (apply Fr_reads_back, Hy).
  reflexivity.
Qed.

Lemma AztecAddress_reads_back :
  reads_back AztecAddress (fun a => Fr_valid (asField a)).
Proof.
  intros [f] rest Hf. simpl in Hf.
  cbn [fromBuffer toBuffer AztecAddress_Serializable asField]. unfold readObject.
  erewrite bind_ret_l by (apply Fr_reads_back, Hf).
  reflexivity.
Qed.

Lemma TxHash_reads_back :
  reads_back TxHash (fun h => length (buffer h) = 32%nat).
Proof.
  intros [b] rest Hb. simpl in Hb.
  cbn [fromBuffer toBuffer TxHash_Serializable buffer].
  erewrite bind_ret_l by (apply readBytes_app, Hb).
  reflexivity.
Qed.

Lemma readArray_reads_back {T} `{Serializable T} (valid : T -> Prop) :
  reads_back T valid ->
  forall (items : list T) (rest : Buffer),
    Forall valid items ->
    readArray (length items) T (concat (map toBuffer items) ++ rest) = (Ret items, rest).
Proof.
  intros HT items rest Hitems.
  induction Hitems as [|v vs Hv Hvs IH]; [reflexivity|].
  cbn [length readArray map concat]. unfold readObject.
  rewrite <- app_assoc.
  erewrite bind_ret_l by (apply HT, Hv).
  erewrite bind_ret_l by (apply IH).
  reflexivity.
Qed.

Lemma readVector_reads_back {T} `{Serializable T} (valid : T -> Prop) :
  reads_back T valid ->
  forall (items : list T) (rest : Buffer),
    Forall valid items ->
    Z.of_nat (length items) < 2 ^ 32 ->
    readVector T ((toBufferBE (Z.of_nat (length items)) 4
                   ++ concat (map toBuffer items)) ++ rest)
    = (Ret items, rest).
Proof.
  intros HT items rest Hitems Hlen. unfold readVector.
  rewrite <- app_assoc.
  erewrite bind_ret_l by (apply readNumber_u32; lia).
  rewrite Nat2Z.id. now apply readArray_reads_back with (valid := valid).
Qed.
End Codecs.

Lemma VectorNote_reads_back :
  @reads_back VectorNote (@Note_Serializable vectorNotes) (@VectorNote_valid bn254).
Proof.
  intros [fields] rest [Hfields Hlen]. simpl in Hfields, Hlen.
  cbn [fromBuffer toBuffer Note_Serializable vectorNotes].
  unfold VectorNote_fromBuffer, VectorNote_toBuffer. cbn [items].
  erewrite bind_ret_l
    by (apply readVector_reads_back with (valid := @Fr_valid bn254);
        [ apply Fr_reads_back; unfold Fr_MODULUS, bn254; lia
        | exact Hfields | exact Hlen ]).
  reflexivity.
Qed.

(** ** C7: serialization round trip *)

Lemma numToUInt32BE_u32 n : 0 <= n < 2 ^ 32 -> numToUInt32BE n = Ret (toBufferBE n 4).
Proof.
  intros Hn. unfold numToUInt32BE.
  destruct (Z.leb_spec 0 n), (Z.ltb_spec n (2 ^ 32)); simpl; (reflexivity || lia).
Qed.

(** C7. For every well-formed [DeferredNoteDao] [d] (field elements in the
    field, [dataStartIndexForTx] a u32), over any [Note] class that reads
    back what it writes: [toBuffer] returns the concatenation of publicKey,
    note, contractAddress, storageSlot, txHash, txNullifier, the
    length-prefixed newCommitments and dataStartIndexForTx, in that order,
    and [fromBuffer] of that buffer is [d]. *)
Theorem DeferredNoteDao_fromBuffer_toBuffer
    {FP : FieldParams} {NC : NoteClass} (Note_valid : Note -> Prop) (d : DeferredNoteDao.t) :
  Fr_MODULUS <= 2 ^ 256 ->
  reads_back Note Note_valid ->
  DeferredNoteDao_valid Note_valid d ->
  DeferredNoteDao.toBuffer d = Ret (DeferredNoteDao_layout d)
  /\ DeferredNoteDao.fromBuffer (DeferredNoteDao_layout d) = Ret d.
Proof.
  intros Hmod Hnote (Hpk & Hn & Hca & Hss & Hth & Htn & Hnc & Hlen & Hidx).
  destruct d as [pk n ca ss th tn nc idx]; cbn [DeferredNoteDao.publicKey
    DeferredNoteDao.note DeferredNoteDao.contractAddress DeferredNoteDao.storageSlot
    DeferredNoteDao.txHash DeferredNoteDao.txNullifier DeferredNoteDao.newCommitments
    DeferredNoteDao.dataStartIndexForTx] in *.
  split.
  - unfold DeferredNoteDao.toBuffer, DeferredNoteDao_layout, Vector_toBuffer.
    cbn [serializeToBuffer serializeToBufferArray DeferredNoteDao.publicKey
      DeferredNoteDao.note DeferredNoteDao.contractAddress DeferredNoteDao.storageSlot
      DeferredNoteDao.txHash DeferredNoteDao.txNullifier DeferredNoteDao.newCommitments
      DeferredNoteDao.dataStartIndexForTx].
    rewrite !numToUInt32BE_u32 by lia.
    now rewrite app_nil_r.
  - unfold DeferredNoteDao.fromBuffer, DeferredNoteDao.read, DeferredNoteDao_layout, readObject.
    cbn [DeferredNoteDao.publicKey
      DeferredNoteDao.note DeferredNoteDao.contractAddress DeferredNoteDao.storageSlot
      DeferredNoteDao.txHash DeferredNoteDao.txNullifier DeferredNoteDao.newCommitments
      DeferredNoteDao.dataStartIndexForTx].
    erewrite bind_ret_l by (apply (Point_reads_back Hmod), Hpk).
    erewrite bind_ret_l by (apply Hnote, Hn).
    erewrite bind_ret_l by (apply (AztecAddress_reads_back Hmod), Hca).
    erewrite bind_ret_l by (apply (Fr_reads_back Hmod), Hss).
    erewrite bind_ret_l by (apply TxHash_reads_back, Hth).
    erewrite bind_ret_l by (apply (Fr_reads_back Hmod), Htn).
    erewrite bind_ret_l
      by (apply readVector_reads_back with (valid := Fr_valid);
          [apply (Fr_reads_back Hmod) | exact Hnc | exact Hlen]).
    rewrite <- (app_nil_r (toBufferBE idx 4)).
    erewrite bind_ret_l by (apply readNumber_u32, Hidx).
    reflexivity.
Qed.

Lemma sampleDeferredNote_valid :
  @DeferredNoteDao_valid bn254 vectorNotes (@VectorNote_valid bn254) sampleDeferredNote.
Proof.
  unfold DeferredNoteDao_valid, Point_valid, VectorNote_valid, Fr_valid, Fr_MODULUS, bn254.
  cbn. repeat split; try lia.
  all: repeat (apply List.Forall_cons; [cbn; lia|]); apply List.Forall_nil.
Qed.

Lemma DeferredNoteDao_fromBuffer_toBuffer_witness :
  @DeferredNoteDao.toBuffer bn254 vectorNotes sampleDeferredNote
  = Ret (@DeferredNoteDao_layout bn254 vectorNotes sampleDeferredNote)
  /\ @DeferredNoteDao.fromBuffer bn254 vectorNotes
       (@DeferredNoteDao_layout bn254 vectorNotes sampleDeferredNote)
     = Ret sampleDeferredNote.
Proof.
  apply (@DeferredNoteDao_fromBuffer_toBuffer bn254 vectorNotes (@VectorNote_valid bn254)).
  - unfold Fr_MODULUS, bn254. lia.
  - exact VectorNote_reads_back.
  - exact sampleDeferredNote_valid.
Defined.

Example sampleDeferredNote_roundtrip_runs :
  @DeferredNoteDao.fromBuffer bn254 vectorNotes
    (@DeferredNoteDao_layout bn254 vectorNotes sampleDeferredNote)
  = Ret sampleDeferredNote
  /\ length (@DeferredNoteDao_layout bn254 vectorNotes sampleDeferredNote) = 332%nat.
Proof. split; reflexivity. Qed.

(** ** Equality of keys *)

Lemma Fr_equals_eq a b : Fr_equals a b = true <-> a = b.
Proof.
  destruct a as [a], b as [b]. unfold Fr_equals. simpl. rewrite Z.eqb_eq.
  split; [intros ->; reflexivity | intros [= ->]; reflexivity].
Qed.

Lemma Point_equals_eq p q : Point_equals p q = true <-> p = q.
Proof.
  destruct p as [px py], q as [qx qy]. unfold Point_equals. simpl.
  rewrite andb_true_iff, !Fr_equals_eq.
  split; [intros [-> ->]; reflexivity | intros [= -> ->]; split; reflexivity].
Qed.

Lemma Point_equals_refl p : Point_equals p p = true.
Proof. now apply Point_equals_eq. Qed.

(** ** C8: addAccount *)

Section AddAccount.
Context {NC : NoteClass} {IM : Imports}.
Implicit Types (s : Synchronizer.t) (publicKey : PublicKey).

Lemma find_registered publicKey (l : list NoteProcessor.t) :
  registered publicKey l <->
  exists p, List.find (fun x => Point_equals (NoteProcessor.publicKey x) publicKey) l = Some p.
Proof.
  split.
  - intros (p & Hin & Heq).
    destruct (List.find _ l) as [q|] eqn:Hfind; [eauto|].
    apply (find_none _ _ Hfind) in Hin. simpl in Hin. congruence.
  - intros (p & Hfind). apply find_some in Hfind. exists p. exact Hfind.
Qed.

Lemma addAccount_registered publicKey keyStore startingBlock s :
  registered publicKey (Synchronizer.noteProcessors s ++ Synchronizer.noteProcessorsToCatchUp s) ->
  Synchronizer.addAccount publicKey keyStore startingBlock s = s.
Proof.
  intros (p & Hin & Heq). unfold Synchronizer.addAccount.
  apply in_app_or in Hin.
  destruct (List.find _ (Synchronizer.noteProcessors s)) as [q|] eqn:Hactive; [reflexivity|].
  destruct Hin as [Hin|Hin].
  - apply (find_none _ _ Hactive) in Hin. simpl in Hin. congruence.
  - destruct (List.find _ (Synchronizer.noteProcessorsToCatchUp s)) as [q|] eqn:Hcatch;
      [reflexivity|].
    apply (find_none _ _ Hcatch) in Hin. simpl in Hin. congruence.
Qed.

Lemma addAccount_fresh publicKey keyStore startingBlock s :
  ~ registered publicKey (Synchronizer.noteProcessors s ++ Synchronizer.noteProcessorsToCatchUp s) ->
  Synchronizer.addAccount publicKey keyStore startingBlock s
  = Synchronizer.set_noteProcessorsToCatchUp
      (Synchronizer.noteProcessorsToCatchUp s
       ++ [NoteProcessor.new publicKey keyStore startingBlock]) s.
Proof.
  intros Hfresh. unfold Synchronizer.addAccount.
  destruct (List.find _ (Synchronizer.noteProcessors s)) as [q|] eqn:Hactive.
  - exfalso. apply Hfresh. apply find_some in Hactive. exists q.
    split; [apply in_or_app; left|]; apply Hactive.
  - destruct (List.find _ (Synchronizer.noteProcessorsToCatchUp s)) as [q|] eqn:Hcatch;
      [|reflexivity].
    exfalso. apply Hfresh. apply find_some in Hcatch. exists q.
    split; [apply in_or_app; right|]; apply Hcatch.
Qed.

Lemma addAccount_keeps_active publicKey keyStore startingBlock s :
  Synchronizer.noteProcessors (Synchronizer.addAccount publicKey keyStore startingBlock s)
  = Synchronizer.noteProcessors s.
Proof.
  unfold Synchronizer.addAccount.
  destruct (List.find _ (Synchronizer.noteProcessors s)); [reflexivity|].
  destruct (List.find _ (Synchronizer.noteProcessorsToCatchUp s)); reflexivity.
Qed.

Lemma registered_dec publicKey (l : list NoteProcessor.t) :
  registered publicKey l \/ ~ registered publicKey l.
Proof.
  destruct (List.find (fun x => Point_equals (NoteProcessor.publicKey x) publicKey) l)
    as [p|] eqn:Hfind.
  - left. apply find_registered. eauto.
  - right. intros Hr. apply find_registered in Hr. destruct Hr as [p Hp]. congruence.
Qed.

(** C8. [addAccount] is a plain state update (no node call, no database
    operation, nothing to wait for).  When a processor with an equal public
    key is in the active or the catch-up list the synchronizer is left as
    it was; otherwise exactly one new processor is appended to the catch-up
    list and nothing else changes; a second call with the same public key
    changes nothing more. *)
Theorem addAccount_idempotent publicKey keyStore startingBlock s :
  let s' := Synchronizer.addAccount publicKey keyStore startingBlock s in
  (registered publicKey
     (Synchronizer.noteProcessors s ++ Synchronizer.noteProcessorsToCatchUp s) ->
   s' = s)
  /\ (~ registered publicKey
        (Synchronizer.noteProcessors s ++ Synchronizer.noteProcessorsToCatchUp s) ->
      Synchronizer.noteProcessorsToCatchUp s'
      = Synchronizer.noteProcessorsToCatchUp s
        ++ [NoteProcessor.new publicKey keyStore startingBlock])
  /\ Synchronizer.noteProcessors s' = Synchronizer.noteProcessors s
  /\ Synchronizer.db s' = Synchronizer.db s
  /\ Synchronizer.log s' = Synchronizer.log s
  /\ Synchronizer.calls s' = Synchronizer.calls s
  /\ (forall keyStore2 startingBlock2,
        Synchronizer.addAccount publicKey keyStore2 startingBlock2 s' = s').
Proof.
  intros s'. subst s'.
  destruct (registered_dec publicKey
              (Synchronizer.noteProcessors s ++ Synchronizer.noteProcessorsToCatchUp s))
    as [Hr|Hfresh].
  - rewrite (addAccount_registered _ keyStore startingBlock _ Hr).
    repeat split; try reflexivity; try tauto.
    intros. now apply addAccount_registered.
  - rewrite (addAccount_fresh _ keyStore startingBlock _ Hfresh).
    repeat split; try reflexivity; try tauto.
    intros. apply addAccount_registered.
    exists (NoteProcessor.new publicKey keyStore startingBlock). split.
    + cbn. apply in_or_app. right. apply in_or_app. right. now left.
    + cbn. apply Point_equals_refl.
Qed.
End AddAccount.

(** ** C10: getSyncStatus *)

Lemma Object_fromEntries_list_to_map {V} (entries : list (string * V)) :
  Object_fromEntries entries = list_to_map (rev entries).
Proof.
  unfold Object_fromEntries, list_to_map.
  symmetry. apply (fold_left_rev_right (fun (p : string * V) => <[p.1 := p.2]>)).
Qed.

Lemma Object_fromEntries_lookup {V} (entries : list (string * V)) k v :
  NoDup (map fst entries) ->
  Object_fromEntries entries !! k = Some v <-> In (k, v) entries.
Proof.
  intros Hnd. rewrite Object_fromEntries_list_to_map.
  rewrite <- elem_of_list_to_map.
  - rewrite list_elem_of_In, <- in_rev. reflexivity.
  - change (NoDup (map fst (rev entries))). rewrite map_rev.
    apply NoDup_ListNoDup, List.NoDup_rev, NoDup_ListNoDup, Hnd.
Qed.

Lemma Object_fromEntries_lookup_None {V} (entries : list (string * V)) k :
  ~ In k (map fst entries) -> Object_fromEntries entries !! k = None.
Proof.
  intros Hk. rewrite Object_fromEntries_list_to_map.
  apply not_elem_of_list_to_map_1.
  change (k ∉ map fst (rev entries)). rewrite map_rev, list_elem_of_In, <- in_rev.
  exact Hk.
Qed.

Lemma Object_fromEntries_size {V} (entries : list (string * V)) :
  NoDup (map fst entries) -> size (Object_fromEntries entries) = length entries.
Proof.
  intros Hnd. rewrite Object_fromEntries_list_to_map, map_size_list_to_map.
  - apply length_rev.
  - change (NoDup (map fst (rev entries))). rewrite map_rev.
    apply NoDup_ListNoDup, List.NoDup_rev, NoDup_ListNoDup, Hnd.
Qed.

Section SyncStatus.
Context {NC : NoteClass} {IM : Imports}.
Implicit Types (s : Synchronizer.t) (p : NoteProcessor.t).

Lemma status_entries_keys (l : list NoteProcessor.t) :
  map fst (map (fun n => (Point_toString (NoteProcessor.publicKey n),
                          NoteProcessor.syncedToBlock n)) l)
  = map processorKey l.
Proof. rewrite map_map. reflexivity. Qed.

(** C10. When the keys of the registered processors are pairwise distinct
    (as [addAccount] keeps them), the [notes] of [getSyncStatus] hold
    exactly the active processors: an entry [k := v] is there if and only
    if an active processor has key [k] and [syncedToBlock] [v], there are
    as many entries as active processors, no processor of the catch-up list
    has an entry, and the key of an account that [addAccount] has just
    added is absent. *)
Theorem getSyncStatus_notes_active_only s :
  NoDup (map processorKey
           (Synchronizer.noteProcessors s ++ Synchronizer.noteProcessorsToCatchUp s)) ->
  let notes := Synchronizer.notes (Synchronizer.getSyncStatus s) in
  (forall k v,
      notes !! k = Some v <->
      exists p, In p (Synchronizer.noteProcessors s)
                /\ processorKey p = k /\ NoteProcessor.syncedToBlock p = v)
  /\ size notes = length (Synchronizer.noteProcessors s)
  /\ (forall p, In p (Synchronizer.noteProcessorsToCatchUp s) -> notes !! processorKey p = None)
  /\ (forall publicKey keyStore startingBlock,
        ~ In (Point_toString publicKey)
             (map processorKey
                (Synchronizer.noteProcessors s ++ Synchronizer.noteProcessorsToCatchUp s)) ->
        Synchronizer.notes
          (Synchronizer.getSyncStatus
             (Synchronizer.addAccount publicKey keyStore startingBlock s))
        !! Point_toString publicKey = None).
Proof.
  intros Hnd notes. subst notes. unfold Synchronizer.getSyncStatus.
  cbn [Synchronizer.notes].
  rewrite map_app in Hnd. apply NoDup_app in Hnd. destruct Hnd as (Hact & Hdisj & Hcatch).
  repeat split.
  - intros Hk. apply Object_fromEntries_lookup in Hk.
    + apply in_map_iff in Hk. destruct Hk as (p & [= <- <-] & Hin). now exists p.
    + rewrite status_entries_keys. exact Hact.
  - intros (p & Hin & <- & <-). apply Object_fromEntries_lookup.
    + rewrite status_entries_keys. exact Hact.
    + apply in_map_iff. now exists p.
  - rewrite Object_fromEntries_size, length_map; [reflexivity|].
    rewrite status_entries_keys. exact Hact.
  - intros p Hin. apply Object_fromEntries_lookup_None.
    rewrite status_entries_keys. intros Hk.
    apply (Hdisj (processorKey p)).
    + now apply list_elem_of_In.
    + apply list_elem_of_In, in_map, Hin.
  - intros publicKey keyStore startingBlock Hfresh.
    rewrite addAccount_keeps_active.
    apply Object_fromEntries_lookup_None.
    rewrite status_entries_keys. intros Hk.
    apply Hfresh. rewrite map_app. apply in_or_app. now left.
Qed.
End SyncStatus.

(** ** C3 and C2: workNoteProcessorCatchUp *)

Section CatchUp.
Context {NC : NoteClass} {IM : Imports}.
Implicit Types (s : Synchronizer.t) (p : NoteProcessor.t) (w : World).

(** The early return: the head is already at the synchronizer's block. *)
Lemma workNoteProcessorCatchUp_synched w limit s p rest :
  Synchronizer.noteProcessorsToCatchUp s = p :: rest ->
  NoteProcessor.syncedToBlock p >= Synchronizer.getSynchedBlockNumber s ->
  Synchronizer.workNoteProcessorCatchUp w limit s
  = (Ret true,
     Synchronizer.set_noteProcessors (Synchronizer.noteProcessors s ++ [p])
       (Synchronizer.set_noteProcessorsToCatchUp rest s)).
Proof.
  intros Hhead Hsynched.
  unfold Synchronizer.workNoteProcessorCatchUp, bind, get.
  rewrite Hhead. cbn [lookup list_lookup].
  destruct (Z.geb_spec (NoteProcessor.syncedToBlock p) (Synchronizer.getSynchedBlockNumber s))
    as [_|Hlt]; [|lia].
  unfold modify, ret, Synchronizer.promoteHead. now rewrite Hhead.
Qed.

(** The [try] block entered with a lagging head and a limit of at least
    one: the call is whatever the [try]/[catch] makes of the fetches. *)
Lemma workNoteProcessorCatchUp_lagging w limit s p rest :
  Synchronizer.noteProcessorsToCatchUp s = p :: rest ->
  NoteProcessor.syncedToBlock p < Synchronizer.getSynchedBlockNumber s ->
  1 <= limit ->
  Synchronizer.workNoteProcessorCatchUp w limit s
  = try_catch
      (Synchronizer.catchUp_try w (NoteProcessor.syncedToBlock p + 1)
         (Z.min limit (Synchronizer.getSynchedBlockNumber s
                       - (NoteProcessor.syncedToBlock p + 1) + 1))
         (Synchronizer.getSynchedBlockNumber s))
      (fun err =>
         exec Synchronizer.logEntry
                (Synchronizer.LogError "Error in synchronizer workNoteProcessorCatchUp" err);
         ret false) s.
Proof.
  intros Hhead Hlag Hlimit.
  unfold Synchronizer.workNoteProcessorCatchUp, bind at 1, get.
  rewrite Hhead. cbn [lookup list_lookup].
  destruct (Z.geb_spec (NoteProcessor.syncedToBlock p) (Synchronizer.getSynchedBlockNumber s))
    as [Hge|_]; [lia|].
  destruct (Z.ltb_spec
              (Z.min limit (Synchronizer.getSynchedBlockNumber s
                            - (NoteProcessor.syncedToBlock p + 1) + 1)) 1)
    as [Hsmall|_]; [lia|].
  reflexivity.
Qed.

(** With no encrypted logs, or with logs and no blocks, the [try] block
    raises before it touches the state. *)
Lemma catchUp_try_empty w from limit toBlockNumber s :
  AztecNode.getLogs (node w) from limit ENCRYPTED = Ret []
  \/ (exists logs, AztecNode.getLogs (node w) from limit ENCRYPTED = Ret logs
                   /\ AztecNode.getBlocks (node w) from (Z.of_nat (length logs)) = Ret []) ->
  exists msg,
    Synchronizer.catchUp_try w from limit toBlockNumber s = (Throw (JsError msg), s)
    /\ (msg = "No encrypted logs in processor catch up mode"
        \/ msg = "No blocks in processor catch up mode").
Proof.
  intros [Hlogs|(logs & Hlogs & Hblocks)]; unfold Synchronizer.catchUp_try, bind, lift;
    rewrite Hlogs.
  - eexists. split; [reflexivity | now left].
  - destruct logs as [|l logs]; cbn [Synchronizer.isEmpty].
    + eexists. split; [reflexivity | now left].
    + rewrite Hblocks. cbn [Synchronizer.isEmpty]. eexists. split; [reflexivity | now right].
Qed.

(** C3, amended. When the head of the catch-up list is already at (or
    beyond) the synchronizer's block number, [workNoteProcessorCatchUp]
    removes it from the catch-up list, appends it to the active list and
    returns [true]; it writes nothing to the log on this path (the
    caught-up event belongs to the path that runs [process]) and leaves the
    database alone. *)
Theorem catchUp_promotes_synched_head w limit s p rest :
  Synchronizer.noteProcessorsToCatchUp s = p :: rest ->
  NoteProcessor.syncedToBlock p >= Synchronizer.getSynchedBlockNumber s ->
  exists s',
    Synchronizer.workNoteProcessorCatchUp w limit s = (Ret true, s')
    /\ Synchronizer.noteProcessorsToCatchUp s' = rest
    /\ Synchronizer.noteProcessors s' = Synchronizer.noteProcessors s ++ [p]
    /\ Synchronizer.log s' = Synchronizer.log s
    /\ Synchronizer.db s' = Synchronizer.db s
    /\ Synchronizer.calls s' = Synchronizer.calls s.
Proof.
  intros Hhead Hsynched. eexists. split.
  - exact (workNoteProcessorCatchUp_synched w limit s p rest Hhead Hsynched).
  - repeat split; reflexivity.
Qed.

(** C2, amended. With a lagging head, a limit of at least one, and a node
    that answers with no encrypted logs (or with logs and no blocks), the
    error raised for it is caught inside [workNoteProcessorCatchUp]: the
    call logs it and returns [false]; both lists and the database are as
    before. *)
Theorem catchUp_empty_fetch_returns_false w limit s p rest :
  Synchronizer.noteProcessorsToCatchUp s = p :: rest ->
  NoteProcessor.syncedToBlock p < Synchronizer.getSynchedBlockNumber s ->
  1 <= limit ->
  let from := NoteProcessor.syncedToBlock p + 1 in
  let limit' := Z.min limit (Synchronizer.getSynchedBlockNumber s - from + 1) in
  (AztecNode.getLogs (node w) from limit' ENCRYPTED = Ret []
   \/ exists logs, AztecNode.getLogs (node w) from limit' ENCRYPTED = Ret logs
                   /\ AztecNode.getBlocks (node w) from (Z.of_nat (length logs)) = Ret []) ->
  exists s' msg,
    Synchronizer.workNoteProcessorCatchUp w limit s = (Ret false, s')
    /\ logged s s' [Synchronizer.LogError "Error in synchronizer workNoteProcessorCatchUp"
                      (JsError msg)]
    /\ (msg = "No encrypted logs in processor catch up mode"
        \/ msg = "No blocks in processor catch up mode")
    /\ Synchronizer.noteProcessorsToCatchUp s' = Synchronizer.noteProcessorsToCatchUp s
    /\ Synchronizer.noteProcessors s' = Synchronizer.noteProcessors s
    /\ Synchronizer.db s' = Synchronizer.db s.
Proof.
  intros Hhead Hlag Hlimit from limit' Hempty.
  rewrite (workNoteProcessorCatchUp_lagging w limit s p rest Hhead Hlag Hlimit).
  destruct (catchUp_try_empty w from limit' (Synchronizer.getSynchedBlockNumber s) s Hempty)
    as (msg & Htry & Hmsg).
  unfold try_catch. subst from limit'. rewrite Htry.
  eexists. exists msg. split; [reflexivity|].
  repeat split; try reflexivity. exact Hmsg.
Qed.
End CatchUp.

Lemma catchUp_promotes_synched_head_witness :
  exists s',
    Synchronizer.workNoteProcessorCatchUp (quietWorld emptyNode) 1
      (sampleSynchronizer 5 [] [sampleProcessor 1 5]) = (Ret true, s')
    /\ Synchronizer.noteProcessorsToCatchUp s' = []
    /\ Synchronizer.noteProcessors s' = [] ++ [sampleProcessor 1 5]
    /\ Synchronizer.log s' = []
    /\ Synchronizer.db s' = PxeDatabase.mk (Some 5) None [] []
    /\ Synchronizer.calls s' = [].
Proof.
  apply (catchUp_promotes_synched_head (quietWorld emptyNode) 1
           (sampleSynchronizer 5 [] [sampleProcessor 1 5]) (sampleProcessor 1 5) []).
  - reflexivity.
  - cbn. lia.
Defined.

(** C3 as worded fails: on the early-return path nothing is logged. *)
Lemma promotion_emits_event_counterexample :
  ~ promotion_emits_event (quietWorld emptyNode) 1
      (sampleSynchronizer 5 [] [sampleProcessor 1 5]).
Proof.
  intros Hclaim.
  specialize (Hclaim (sampleProcessor 1 5) [] eq_refl).
  rewrite (workNoteProcessorCatchUp_synched (quietWorld emptyNode) 1
             (sampleSynchronizer 5 [] [sampleProcessor 1 5]) (sampleProcessor 1 5) [])
    in Hclaim; [| reflexivity | cbn; lia].
  destruct Hclaim as (_ & _ & _ & Hin); [cbn; lia|].
  cbn in Hin. exact Hin.
Qed.

Lemma catchUp_empty_fetch_returns_false_witness :
  exists s' msg,
    Synchronizer.workNoteProcessorCatchUp (quietWorld emptyNode) 1
      (sampleSynchronizer 5 [] [sampleProcessor 1 2]) = (Ret false, s')
    /\ logged (sampleSynchronizer 5 [] [sampleProcessor 1 2]) s'
         [Synchronizer.LogError "Error in synchronizer workNoteProcessorCatchUp" (JsError msg)]
    /\ (msg = "No encrypted logs in processor catch up mode"
        \/ msg = "No blocks in processor catch up mode")
    /\ Synchronizer.noteProcessorsToCatchUp s' = [sampleProcessor 1 2]
    /\ Synchronizer.noteProcessors s' = []
    /\ Synchronizer.db s' = PxeDatabase.mk (Some 5) None [] [].
Proof.
  apply (catchUp_empty_fetch_returns_false (quietWorld emptyNode) 1
           (sampleSynchronizer 5 [] [sampleProcessor 1 2]) (sampleProcessor 1 2) []).
  - reflexivity.
  - cbn. lia.
  - lia.
  - left. reflexivity.
Defined.

(** C2 as worded fails: the error raised for the empty fetch is caught by the
    function's own handler, and the caller receives [false]. *)
Lemma catchUp_raises_on_empty_counterexample :
  ~ catchUp_raises_on_empty (quietWorld emptyNode) 1
      (sampleSynchronizer 5 [] [sampleProcessor 1 2]).
Proof.
  intros Hclaim.
  specialize (Hclaim (sampleProcessor 1 2) [] eq_refl).
  destruct Hclaim as [e He]; [cbn; lia | left; reflexivity |].
  rewrite (workNoteProcessorCatchUp_lagging (quietWorld emptyNode) 1
             (sampleSynchronizer 5 [] [sampleProcessor 1 2]) (sampleProcessor 1 2) [])
    in He; [| reflexivity | cbn; lia | lia].
  destruct (catchUp_try_empty (quietWorld emptyNode)
              (NoteProcessor.syncedToBlock (sampleProcessor 1 2) + 1)
              (Z.min 1 (Synchronizer.getSynchedBlockNumber
                          (sampleSynchronizer 5 [] [sampleProcessor 1 2])
                        - (NoteProcessor.syncedToBlock (sampleProcessor 1 2) + 1) + 1))
              (Synchronizer.getSynchedBlockNumber (sampleSynchronizer 5 [] [sampleProcessor 1 2]))
              (sampleSynchronizer 5 [] [sampleProcessor 1 2]))
    as (msg & Htry & _); [left; reflexivity|].
  unfold try_catch in He. rewrite Htry in He. discriminate He.
Qed.

(** ** setBlockDataFromBlock *)

Section SetBlockData.
Context {NC : NoteClass} {IM : Imports}.
Implicit Types (s : Synchronizer.t) (w : World).

Lemma db_setBlockData_run w n header s :
  Synchronizer.db_setBlockData w n header s
  = let s1 := Synchronizer.set_calls
                (Synchronizer.calls s ++ [Synchronizer.CallDb (PxeDatabase.SetBlockData n header)])
                s in
    match faults w (PxeDatabase.SetBlockData n header) (Synchronizer.db s) with
    | Some e => (Throw e, s1)
    | None =>
        (Ret tt,
         Synchronizer.set_db
           (PxeDatabase.mk (Some n) (Some header)
              (PxeDatabase.notes (Synchronizer.db s))
              (PxeDatabase.deferredNotes (Synchronizer.db s))) s1)
    end.
Proof.
  unfold Synchronizer.db_setBlockData, bind, Synchronizer.record, modify, Synchronizer.onDb,
    PxeDatabase.setBlockData, PxeDatabase.atomically.
  cbn [Synchronizer.db Synchronizer.set_calls].
  destruct (faults w _ (Synchronizer.db s)); [|reflexivity].
  destruct s; reflexivity.
Qed.

Lemma setBlockDataFromBlock_below w ctx s :
  L2Block.number (L2BlockContext.block ctx) < Synchronizer.initialSyncBlockNumber s ->
  Synchronizer.setBlockDataFromBlock w (Some ctx) s = (Ret tt, s).
Proof.
  intros Hlt. unfold Synchronizer.setBlockDataFromBlock, bind, get.
  destruct (Z.ltb_spec (L2Block.number (L2BlockContext.block ctx))
              (Synchronizer.initialSyncBlockNumber s)); [reflexivity | lia].
Qed.

Lemma setBlockDataFromBlock_from w ctx s :
  Synchronizer.initialSyncBlockNumber s <= L2Block.number (L2BlockContext.block ctx) ->
  Synchronizer.setBlockDataFromBlock w (Some ctx) s
  = Synchronizer.db_setBlockData w (L2Block.number (L2BlockContext.block ctx))
      (headerOfBlock (L2BlockContext.block ctx)) s.
Proof.
  intros Hge. unfold Synchronizer.setBlockDataFromBlock, bind at 1, get.
  destruct (Z.ltb_spec (L2Block.number (L2BlockContext.block ctx))
              (Synchronizer.initialSyncBlockNumber s)); [lia | reflexivity].
Qed.

(** The step itself, on whatever block context it is given: below
    [initialSyncBlockNumber] it returns at once and the synchronizer is as
    before; from [initialSyncBlockNumber] on it calls [db.setBlockData] once
    with the block's number and the header made of its six tree roots and
    its globals hash. *)
Lemma setBlockDataFromBlock_cases w ctx s :
  let block := L2BlockContext.block ctx in
  let n := L2Block.number block in
  exists o s',
    Synchronizer.setBlockDataFromBlock w (Some ctx) s = (o, s')
    /\ (n < Synchronizer.initialSyncBlockNumber s -> o = Ret tt /\ s' = s)
    /\ (n >= Synchronizer.initialSyncBlockNumber s ->
        called s s' [Synchronizer.CallDb (PxeDatabase.SetBlockData n (headerOfBlock block))]
        /\ match faults w (PxeDatabase.SetBlockData n (headerOfBlock block))
                   (Synchronizer.db s) with
           | None =>
               o = Ret tt
               /\ PxeDatabase.blockNumber (Synchronizer.db s') = Some n
               /\ PxeDatabase.blockHeader (Synchronizer.db s') = Some (headerOfBlock block)
           | Some e => o = Throw e /\ Synchronizer.db s' = Synchronizer.db s
           end).
Proof.
  intros block n. subst block n.
  destruct (Z.lt_ge_cases (L2Block.number (L2BlockContext.block ctx))
              (Synchronizer.initialSyncBlockNumber s)) as [Hlt|Hge].
  - rewrite (setBlockDataFromBlock_below w ctx s Hlt).
    exists (Ret tt), s. split; [reflexivity|]. split; [tauto | lia].
  - rewrite (setBlockDataFromBlock_from w ctx s Hge), db_setBlockData_run. cbv zeta.
    destruct (faults w _ (Synchronizer.db s)) as [e|] eqn:Hfault;
      eexists; eexists; (split; [reflexivity|]); (split; [lia|]); intros _;
      (split; [reflexivity|]).
    + split; [reflexivity|]. destruct s; reflexivity.
    + repeat split; reflexivity.
Qed.
End SetBlockData.

(** ** Reasoning about runs *)

Section Respects.
Context {S : Type} (R : S -> S -> Prop) {R_pre : PreOrder R}.

Lemma respects_ret {A} (a : A) : respects R (ret a).
Proof. intros s o s' [= <- <-]. reflexivity. Qed.

Lemma respects_throw {A} e : respects R (@throw S A e).
Proof. intros s o s' [= <- <-]. reflexivity. Qed.

Lemma respects_lift {A} (o : Outcome A) : respects R (lift o).
Proof. intros s o' s' [= <- <-]. reflexivity. Qed.

Lemma respects_get : respects R (@get S).
Proof. intros s o s' [= <- <-]. reflexivity. Qed.

Lemma respects_modify (f : S -> S) : (forall s, R s (f s)) -> respects R (modify f).
Proof. intros Hf s o s' [= <- <-]. apply Hf. Qed.

Lemma respects_bind {A B} (m : ST S A) (k : A -> ST S B) :
  respects R m -> (forall a, respects R (k a)) -> respects R (bind m k).
Proof.
  intros Hm Hk s o s' Hrun. unfold bind in Hrun.
  destruct (m s) as [[a|e] s1] eqn:Hms.
  - transitivity s1; [eapply Hm, Hms | eapply Hk, Hrun].
  - injection Hrun as <- <-. eapply Hm, Hms.
Qed.

Lemma respects_try_catch {A} (m : ST S A) (h : Error -> ST S A) :
  respects R m -> (forall e, respects R (h e)) -> respects R (try_catch m h).
Proof.
  intros Hm Hh s o s' Hrun. unfold try_catch in Hrun.
  destruct (m s) as [[a|e] s1] eqn:Hms.
  - injection Hrun as <- <-. eapply Hm, Hms.
  - transitivity s1; [eapply Hm, Hms | eapply Hh, Hrun].
Qed.

Lemma respects_forEach {A} (xs : list A) (body : A -> ST S unit) :
  (forall x, In x xs -> respects R (body x)) -> respects R (forEach xs body).
Proof.
  induction xs as [|x xs IH]; intros Hbody; cbn [forEach].
  - apply respects_ret.
  - apply respects_bind.
    + apply Hbody. now left.
    + intros _. apply IH. intros y Hy. apply Hbody. now right.
Qed.

Lemma respects_mapST {A B} (f : A -> ST S B) (xs : list A) :
  (forall x, In x xs -> respects R (f x)) -> respects R (mapST f xs).
Proof.
  induction xs as [|x xs IH]; intros Hf; cbn [mapST].
  - apply respects_ret.
  - apply respects_bind; [apply Hf; now left|].
    intros y. apply respects_bind; [apply IH; intros z Hz; apply Hf; now right|].
    intros ys. apply respects_ret.
Qed.

Lemma respects_if {A} (b : bool) (m1 m2 : ST S A) :
  respects R m1 -> respects R m2 -> respects R (if b then m1 else m2).
Proof. destruct b; auto. Qed.
End Respects.

#[global] Instance sameBlockData_PreOrder `{NoteClass} `{Imports} : PreOrder sameBlockData.
Proof.
  split.
  - intros s. repeat split.
  - intros s1 s2 s3 (H1 & H2 & H3) (H4 & H5 & H6). unfold sameBlockData. repeat split; congruence.
Qed.

#[global] Instance processKeeps_PreOrder `{NoteClass} `{Imports} : PreOrder processKeeps.
Proof.
  split.
  - intros s. repeat split.
  - intros s1 s2 s3 (H1 & H2 & H3) (H4 & H5 & H6). unfold processKeeps. repeat split; congruence.
Qed.

(** One step through a computation, for a relation that is a preorder. *)
Ltac r_bind := apply respects_bind; [typeclasses eauto | | intros ?].
Ltac r_leaf :=
  first [apply respects_ret | apply respects_throw | apply respects_lift | apply respects_get];
  typeclasses eauto.
Ltac r_modify := apply respects_modify; intros ?.
Ltac r_forEach := apply respects_forEach; [typeclasses eauto | intros ? ?].
Ltac r_mapST := apply respects_mapST; [typeclasses eauto | intros ? ?].
Ltac r_try := apply respects_try_catch; [typeclasses eauto | | intros ?].

Section BlockDataKept.
Context {NC : NoteClass} {IM : Imports}.
Implicit Types (s : Synchronizer.t) (w : World).

Lemma processBlock_keeps w ctx logs :
  respects processKeeps (NoteProcessor.processBlock w ctx logs).
Proof.
  unfold NoteProcessor.processBlock.
  r_bind; [r_leaf|]. destruct a as [p d].
  destruct (decryptNotes w _ ctx logs) as [newNotes deferred].
  r_bind.
  { intros [p1 d1] o s' Hrun. cbn [fst snd] in Hrun.
    unfold PxeDatabase.addNotes, PxeDatabase.atomically in Hrun.
    destruct (faults w _ d1); injection Hrun as <- <-; repeat split. }
  r_bind.
  { intros [p1 d1] o s' Hrun. cbn [fst snd] in Hrun.
    unfold PxeDatabase.addDeferredNotes, PxeDatabase.atomically in Hrun.
    destruct (faults w _ d1); injection Hrun as <- <-; repeat split. }
  r_modify. repeat split.
Qed.

Lemma process_keeps w ctxs logs :
  respects processKeeps (NoteProcessor.process w ctxs logs).
Proof.
  unfold NoteProcessor.process. r_forEach.
  destruct x0 as [ctx l]. apply processBlock_keeps.
Qed.

Lemma logEntry_keeps e : respects sameBlockData (Synchronizer.logEntry e).
Proof. r_modify. repeat split. Qed.

Lemma record_keeps c : respects sameBlockData (Synchronizer.record c).
Proof. r_modify. repeat split. Qed.

Lemma promoteHead_keeps : respects sameBlockData (modify Synchronizer.promoteHead).
Proof.
  r_modify. unfold Synchronizer.promoteHead.
  destruct (Synchronizer.noteProcessorsToCatchUp _); repeat split.
Qed.

Lemma callProcess_keeps w r ctxs logs :
  respects sameBlockData (Synchronizer.callProcess w r ctxs logs).
Proof.
  intros s o s' Hrun. unfold Synchronizer.callProcess in Hrun.
  destruct (Synchronizer.processorAt r s) as [p|]; [|injection Hrun as <- <-; reflexivity].
  cbn [Synchronizer.db Synchronizer.set_calls] in Hrun.
  destruct (NoteProcessor.process w ctxs logs (p, Synchronizer.db s)) as [o1 [p' d']] eqn:Hp.
  apply process_keeps in Hp. destruct Hp as (Hn & Hh & _). cbn [fst snd] in Hn, Hh.
  injection Hrun as <- <-. destruct r; repeat split; assumption.
Qed.

(** A facade operation other than [setBlockData], run on [this.db]. *)
Lemma onDb_keeps {A} op (run : PxeDatabase.t -> A * PxeDatabase.t) w :
  (forall d, PxeDatabase.blockNumber (snd (run d)) = PxeDatabase.blockNumber d
             /\ PxeDatabase.blockHeader (snd (run d)) = PxeDatabase.blockHeader d) ->
  respects sameBlockData (Synchronizer.onDb (PxeDatabase.atomically (faults w) op run)).
Proof.
  intros Hrun s o s' Hexec. unfold Synchronizer.onDb, PxeDatabase.atomically in Hexec.
  destruct (faults w op (Synchronizer.db s)).
  - injection Hexec as <- <-. repeat split.
  - specialize (Hrun (Synchronizer.db s)).
    destruct (run (Synchronizer.db s)) as [a d1]. injection Hexec as <- <-.
    destruct Hrun as [Hn Hh]. repeat split; assumption.
Qed.

Lemma db_addNotes_keeps w ns : respects sameBlockData (Synchronizer.db_addNotes w ns).
Proof.
  unfold Synchronizer.db_addNotes.
  r_bind; [apply record_keeps|].
  apply onDb_keeps. intros d; split; reflexivity.
Qed.

Lemma db_getDeferredNotesByContract_keeps w a :
  respects sameBlockData (Synchronizer.db_getDeferredNotesByContract w a).
Proof.
  unfold Synchronizer.db_getDeferredNotesByContract.
  r_bind; [apply record_keeps|].
  apply onDb_keeps. intros d; split; reflexivity.
Qed.

Lemma db_removeDeferredNotesByContract_keeps w a :
  respects sameBlockData (Synchronizer.db_removeDeferredNotesByContract w a).
Proof.
  unfold Synchronizer.db_removeDeferredNotesByContract.
  r_bind; [apply record_keeps|].
  apply onDb_keeps. intros d; split; reflexivity.
Qed.

Lemma db_removeNullifiedNotes_keeps w ns pk :
  respects sameBlockData (Synchronizer.db_removeNullifiedNotes w ns pk).
Proof.
  unfold Synchronizer.db_removeNullifiedNotes.
  r_bind; [apply record_keeps|].
  apply onDb_keeps. intros d; split; reflexivity.
Qed.

Lemma findRelevantNullifiers_keeps w ns :
  respects sameBlockData (Synchronizer.findRelevantNullifiers w ns).
Proof.
  induction ns as [|n ns IH]; cbn [Synchronizer.findRelevantNullifiers].
  - r_leaf.
  - r_bind; [r_leaf|]. r_bind; [exact IH|]. r_leaf.
Qed.
End BlockDataKept.


(** ** The structure of [work] *)

Section WorkStructure.
Context {NC : NoteClass} {IM : Imports}.
Implicit Types (s : Synchronizer.t) (w : World).

Lemma attachLogsFrom_state i blocks enc unenc s :
  snd (Synchronizer.attachLogsFrom i blocks enc unenc s) = s.
Proof.
  revert i. induction blocks as [|b bs IH]; intros i; [reflexivity|].
  cbn [Synchronizer.attachLogsFrom]. unfold bind, lift.
  destruct (L2Block.attachLogs b (enc !! i) ENCRYPTED) as [b1|e]; [|reflexivity].
  destruct (L2Block.attachLogs b1 (unenc !! i) UNENCRYPTED) as [b2|e]; [|reflexivity].
  specialize (IH (S i)).
  destruct (Synchronizer.attachLogsFrom (S i) bs enc unenc s) as [[bs'|e] s1];
    simpl in IH; subst s1; reflexivity.
Qed.

Lemma attachLogsFrom_run i blocks enc unenc s :
  (i + length blocks <= length enc)%nat ->
  (i + length blocks <= length unenc)%nat ->
  Synchronizer.attachLogsFrom i blocks enc unenc s
  = (Ret (attachedList blocks (drop i enc) (drop i unenc)), s).
Proof.
  revert i. induction blocks as [|b bs IH]; intros i Henc Hunenc.
  - destruct (drop i enc), (drop i unenc); reflexivity.
  - cbn [length] in Henc, Hunenc.
    destruct (lookup_lt_is_Some_2 enc i ltac:(lia)) as [e He].
    destruct (lookup_lt_is_Some_2 unenc i ltac:(lia)) as [u Hu].
    cbn [Synchronizer.attachLogsFrom]. unfold bind, lift. rewrite He, Hu.
    cbn [L2Block.attachLogs].
    rewrite (IH (S i)) by lia.
    rewrite (drop_S _ _ _ He), (drop_S _ _ _ Hu). reflexivity.
Qed.

Lemma trim_take {A B} (blocks : list A) (logs : list B) :
  (length blocks <= length logs)%nat ->
  Synchronizer.trim blocks logs = take (length blocks) logs.
Proof.
  intros Hle. unfold Synchronizer.trim.
  destruct (Nat.eqb_spec (length blocks) (length logs)) as [Heq|_]; [|reflexivity].
  cbn [negb]. rewrite Heq. symmetry. apply firstn_all.
Qed.

Lemma keptContexts_from from blocks ctx :
  In ctx (keptContexts from blocks) -> from <= L2Block.number (L2BlockContext.block ctx).
Proof.
  unfold keptContexts. rewrite in_map_iff. intros (b & <- & Hb).
  apply filter_In in Hb. destruct Hb as [_ Hb]. cbn. lia.
Qed.

(** Whatever the node answers, the [try] block either stops without having
    touched the synchronizer, or runs [work_tail] on contexts that are all
    numbered [from] or more. *)
Lemma work_try_cases w from limit s :
  (exists o, Synchronizer.work_try w from limit s = (o, s)
             /\ o <> Ret true)
  \/ (exists blocks encryptedLogs,
        Synchronizer.work_try w from limit s
        = work_tail w (keptContexts from blocks) encryptedLogs s).
Proof.
  remember (Synchronizer.work_try w from limit s) as r eqn:Hr.
  unfold Synchronizer.work_try, bind at 1, lift at 1 in Hr.
  destruct (AztecNode.getLogs (node w) from limit ENCRYPTED) as [enc|e];
    [|left; eexists; split; [exact Hr | discriminate]].
  destruct enc as [|e0 enc];
    [left; eexists; split; [exact Hr | discriminate]|].
  cbn [Synchronizer.isEmpty] in Hr. unfold bind at 1, lift at 1 in Hr.
  destruct (AztecNode.getLogs (node w) from limit UNENCRYPTED) as [unenc|e];
    [|left; eexists; split; [exact Hr | discriminate]].
  destruct unenc as [|u0 unenc];
    [left; eexists; split; [exact Hr | discriminate]|].
  cbn [Synchronizer.isEmpty] in Hr. unfold bind at 1, lift at 1 in Hr.
  destruct (AztecNode.getBlocks (node w) from _) as [blocks|e];
    [|left; eexists; split; [exact Hr | discriminate]].
  destruct blocks as [|b0 blocks];
    [left; eexists; split; [exact Hr | discriminate]|].
  cbn [Synchronizer.isEmpty] in Hr. unfold bind at 1 in Hr.
  pose proof (attachLogsFrom_state 0 (b0 :: blocks)
                (Synchronizer.trim (b0 :: blocks) (e0 :: enc))
                (Synchronizer.trim (b0 :: blocks) (u0 :: unenc)) s) as Hstate.
  destruct (Synchronizer.attachLogsFrom 0 (b0 :: blocks) _ _ s) as [[attached|e] s1];
    simpl in Hstate; subst s1.
  - right. exists attached. eexists. exact Hr.
  - left. eexists. split; [exact Hr | discriminate].
Qed.

(** On well-formed fetches (as many bundles of each kind as blocks, or
    more), the [try] block is [work_tail] on the fetched blocks with the
    bundles of their index attached, and on the encrypted bundles cut to
    the number of blocks. *)
Lemma work_try_fetched w from limit s enc unenc blocks :
  AztecNode.getLogs (node w) from limit ENCRYPTED = Ret enc ->
  AztecNode.getLogs (node w) from limit UNENCRYPTED = Ret unenc ->
  AztecNode.getBlocks (node w) from (Z.of_nat (length enc)) = Ret blocks ->
  (0 < length blocks <= length enc)%nat ->
  (length blocks <= length unenc)%nat ->
  Synchronizer.work_try w from limit s
  = work_tail w
      (keptContexts from
         (attachedList blocks (take (length blocks) enc) (take (length blocks) unenc)))
      (take (length blocks) enc) s.
Proof.
  intros Henc Hunenc Hblocks Hlen1 Hlen2.
  unfold Synchronizer.work_try, bind at 1, lift at 1. rewrite Henc.
  destruct enc as [|e0 enc]; [cbn in Hlen1; lia|].
  cbn [Synchronizer.isEmpty]. unfold bind at 1, lift at 1. rewrite Hunenc.
  destruct unenc as [|u0 unenc]; [cbn in Hlen2; lia|].
  cbn [Synchronizer.isEmpty]. unfold bind at 1, lift at 1. rewrite Hblocks.
  destruct blocks as [|b0 blocks]; [cbn in Hlen1; lia|].
  cbn [Synchronizer.isEmpty]. unfold bind at 1.
  rewrite !trim_take by lia.
  rewrite attachLogsFrom_run by (rewrite length_take; lia).
  reflexivity.
Qed.

(** [work] never raises: what the [try] block raises is logged and turned
    into [false]. *)
Lemma work_run w limit s :
  Synchronizer.work w limit s
  = match Synchronizer.work_try w (Synchronizer.getSynchedBlockNumber s + 1) limit s with
    | (Ret b, s1) => (Ret b, s1)
    | (Throw e, s1) =>
        (Ret false,
         Synchronizer.set_log
           (Synchronizer.log s1 ++ [Synchronizer.LogError "Error in synchronizer work" e]) s1)
    end.
Proof.
  unfold Synchronizer.work, bind at 1, get, try_catch.
  destruct (Synchronizer.work_try _ _ _ s) as [[b|e] s1]; reflexivity.
Qed.
End WorkStructure.

(** ** The loop over the active processors *)

Section ProcessLoop.
Context {NC : NoteClass} {IM : Imports}.
Implicit Types (s : Synchronizer.t) (w : World).

Lemma process_faultless w ctxs logs (pd : NoteProcessor.t * PxeDatabase.t) :
  faultless w -> fst (NoteProcessor.process w ctxs logs pd) = Ret tt.
Proof.
  intros Hw. unfold NoteProcessor.process.
  revert pd. induction (combine ctxs logs) as [|[ctx l] rest IH]; intros pd; [reflexivity|].
  cbn [forEach]. unfold bind at 1.
  assert (Hblock : fst (NoteProcessor.processBlock w ctx l pd) = Ret tt).
  { unfold NoteProcessor.processBlock, bind, get, modify.
    destruct (decryptNotes w _ ctx l) as [newNotes deferred].
    unfold PxeDatabase.addNotes, PxeDatabase.addDeferredNotes, PxeDatabase.atomically.
    rewrite (Hw _ (snd pd)). cbn [fst snd]. rewrite Hw. reflexivity. }
  destruct (NoteProcessor.processBlock w ctx l pd) as [[[]|e] pd1]; simpl in Hblock;
    [apply IH | discriminate].
Qed.

(** One call to [process], on the active processor of index [i]. *)
Lemma callProcess_active w i ctxs logs s p :
  Synchronizer.noteProcessors s !! i = Some p ->
  exists o s',
    Synchronizer.callProcess w (Synchronizer.InActive i) ctxs logs s = (o, s')
    /\ Synchronizer.calls s'
       = Synchronizer.calls s ++ [Synchronizer.CallProcess (NoteProcessor.publicKey p) ctxs logs]
    /\ map NoteProcessor.publicKey (Synchronizer.noteProcessors s')
       = map NoteProcessor.publicKey (Synchronizer.noteProcessors s)
    /\ Synchronizer.log s' = Synchronizer.log s
    /\ (faultless w -> o = Ret tt).
Proof.
  intros Hp. unfold Synchronizer.callProcess. cbn [Synchronizer.processorAt]. rewrite Hp.
  cbn [Synchronizer.db Synchronizer.set_calls].
  pose proof (process_faultless w ctxs logs (p, Synchronizer.db s)) as Hok.
  destruct (NoteProcessor.process w ctxs logs (p, Synchronizer.db s)) as [o [p' d']] eqn:Hrun.
  apply process_keeps in Hrun. destruct Hrun as (_ & _ & Hpk). cbn [fst snd] in Hpk.
  eexists. eexists. split; [reflexivity|].
  cbn. repeat split; try assumption.
  rewrite list_fmap_insert, Hpk.
  apply list_insert_id. rewrite list_lookup_fmap, Hp. reflexivity.
Qed.

Lemma process_loop w ctxs logs k :
  forall i s o s',
    (i + k = length (Synchronizer.noteProcessors s))%nat ->
    forEach (seq i k)
      (fun i => Synchronizer.callProcess w (Synchronizer.InActive i) ctxs logs) s = (o, s') ->
    exists j,
      (j <= k)%nat
      /\ Synchronizer.calls s'
         = Synchronizer.calls s
           ++ processCalls
                (take j (drop i (map NoteProcessor.publicKey (Synchronizer.noteProcessors s))))
                ctxs logs
      /\ map NoteProcessor.publicKey (Synchronizer.noteProcessors s')
         = map NoteProcessor.publicKey (Synchronizer.noteProcessors s)
      /\ Synchronizer.log s' = Synchronizer.log s
      /\ (o = Ret tt -> j = k)
      /\ (faultless w -> o = Ret tt).
Proof.
  induction k as [|k IH]; intros i s o s' Hlen Hrun.
  - injection Hrun as <- <-. exists 0%nat.
    repeat split; try reflexivity; try lia. cbn. now rewrite app_nil_r.
  - cbn [seq forEach] in Hrun. unfold bind at 1 in Hrun.
    destruct (lookup_lt_is_Some_2 (Synchronizer.noteProcessors s) i ltac:(lia)) as [p Hp].
    destruct (callProcess_active w i ctxs logs s p Hp)
      as (o1 & s1 & Hcall & Hcalls1 & Hkeys1 & Hlog1 & Hok1).
    rewrite Hcall in Hrun.
    assert (Hdrop : drop i (map NoteProcessor.publicKey (Synchronizer.noteProcessors s))
                    = NoteProcessor.publicKey p
                      :: drop (S i) (map NoteProcessor.publicKey (Synchronizer.noteProcessors s))).
    { apply drop_S. rewrite list_lookup_fmap, Hp. reflexivity. }
    destruct o1 as [[]|e].
    + assert (Hlen1 : (S i + k = length (Synchronizer.noteProcessors s1))%nat).
      { rewrite <- (length_map NoteProcessor.publicKey), Hkeys1, length_map. lia. }
      destruct (IH (S i) s1 o s' Hlen1 Hrun) as (j & Hj & Hcalls & Hkeys & Hlog & Hall & Hok).
      exists (S j). repeat split; try lia; try congruence; try assumption.
      all: try (intros Ho; specialize (Hall Ho); lia).
      rewrite Hcalls, Hcalls1, Hkeys1, Hdrop. cbn [take processCalls map].
      rewrite <- app_assoc. reflexivity.
    + injection Hrun as <- <-. exists 1%nat.
      repeat split; try lia; try assumption; try discriminate.
      all: try (intros Hw; specialize (Hok1 Hw); discriminate).
      rewrite Hcalls1, Hdrop. cbn. now rewrite take_0.
Qed.

(** What follows [setBlockDataFromBlock] in [work]: the log line and the
    loop. *)
Lemma forward_run w ctxs logs s o s' :
  (do s0 <- get;
   exec Synchronizer.logEntry
          (Synchronizer.Forwarding (getTotalLogCount logs)
             (length (Synchronizer.noteProcessors s0)));
   exec forEach (seq 0 (length (Synchronizer.noteProcessors s0)))
          (fun i => Synchronizer.callProcess w (Synchronizer.InActive i) ctxs logs);
   ret true) s = (o, s') ->
  exists j,
    Synchronizer.calls s'
    = Synchronizer.calls s
      ++ processCalls (take j (map NoteProcessor.publicKey (Synchronizer.noteProcessors s)))
           ctxs logs
    /\ (o = Ret true -> j = length (Synchronizer.noteProcessors s))
    /\ (faultless w -> o = Ret true)
    /\ sameBlockData s s'.
Proof.
  intros Hrun.
  assert (Hkept : sameBlockData s s').
  { revert Hrun. generalize s o s'. fold (respects (S := Synchronizer.t) (A := bool) sameBlockData).
    r_bind; [r_leaf|]. r_bind; [apply logEntry_keeps|]. r_bind; [|r_leaf].
    r_forEach. apply callProcess_keeps. }
  unfold bind at 1, get in Hrun. unfold bind at 1, Synchronizer.logEntry, modify in Hrun.
  unfold bind at 1 in Hrun.
  set (s1 := Synchronizer.set_log _ s) in Hrun.
  destruct (forEach _ _ s1) as [o1 s2] eqn:Hloop.
  change (length (Synchronizer.noteProcessors s))
    with (length (Synchronizer.noteProcessors s1)) in Hloop.
  apply process_loop in Hloop; [|reflexivity].
  destruct Hloop as (j & Hj & Hcalls & Hkeys & Hlog & Hall & Hok).
  rewrite drop_0 in Hcalls. exists j.
  destruct o1 as [[]|e]; injection Hrun as <- <-.
  - split; [exact Hcalls|]. split; [intros _; now apply Hall|].
    split; [reflexivity | exact Hkept].
  - split; [exact Hcalls|]. split; [discriminate|].
    split; [|exact Hkept]. intros Hw. specialize (Hok Hw). discriminate.
Qed.
End ProcessLoop.

Section WorkTail.
Context {NC : NoteClass} {IM : Imports}.
Implicit Types (s : Synchronizer.t) (w : World).

(** The four ways through [work_tail]: no block context is left, the last
    block is older than the initial sync, the store refuses the header, or
    the header is stored; in the second and the last the processors are
    then run. *)
Lemma work_tail_cases w ctxs logs s o s' :
  work_tail w ctxs logs s = (o, s') ->
  let keys := map NoteProcessor.publicKey (Synchronizer.noteProcessors s) in
  match last ctxs with
  | None => s' = s /\ o <> Ret true
  | Some ctx =>
      let n := L2Block.number (L2BlockContext.block ctx) in
      let h := headerOfBlock (L2BlockContext.block ctx) in
      if n <? Synchronizer.initialSyncBlockNumber s then
        exists j,
          called s s' (processCalls (take j keys) ctxs logs)
          /\ (o = Ret true -> j = length (Synchronizer.noteProcessors s))
          /\ (faultless w -> o = Ret true)
          /\ sameBlockData s s'
      else
        match faults w (PxeDatabase.SetBlockData n h) (Synchronizer.db s) with
        | Some e =>
            o = Throw e
            /\ s' = Synchronizer.set_calls
                      (Synchronizer.calls s
                       ++ [Synchronizer.CallDb (PxeDatabase.SetBlockData n h)]) s
        | None =>
            exists j,
              called s s' (Synchronizer.CallDb (PxeDatabase.SetBlockData n h)
                           :: processCalls (take j keys) ctxs logs)
              /\ (o = Ret true -> j = length (Synchronizer.noteProcessors s))
              /\ (faultless w -> o = Ret true)
              /\ PxeDatabase.blockNumber (Synchronizer.db s') = Some n
              /\ PxeDatabase.blockHeader (Synchronizer.db s') = Some h
              /\ Synchronizer.initialSyncBlockNumber s'
                 = Synchronizer.initialSyncBlockNumber s
        end
  end.
Proof.
  intros Hrun keys. subst keys. unfold work_tail, bind at 1 in Hrun.
  destruct (last ctxs) as [ctx|].
  2:{ cbn in Hrun. injection Hrun as <- <-. split; [reflexivity | discriminate]. }
  cbv zeta.
  destruct (Z.ltb_spec (L2Block.number (L2BlockContext.block ctx))
              (Synchronizer.initialSyncBlockNumber s)) as [Hlt|Hge].
  - rewrite (setBlockDataFromBlock_below w ctx s Hlt) in Hrun.
    apply forward_run in Hrun. exact Hrun.
  - rewrite (setBlockDataFromBlock_from w ctx s Hge), db_setBlockData_run in Hrun.
    cbv zeta in Hrun.
    destruct (faults w _ (Synchronizer.db s)) as [e|].
    + injection Hrun as <- <-. split; reflexivity.
    + apply forward_run in Hrun.
      destruct Hrun as (j & Hcalls & Hall & Hok & Hn & Hh & Hi).
      exists j. cbn in Hcalls, Hall, Hn, Hh, Hi.
      split; [|repeat split; assumption].
      unfold called. rewrite Hcalls, <- app_assoc. reflexivity.
Qed.

(** The cursor after the [try] block of [work]: the block header row is
    untouched, or it holds a block numbered [from] or more that the store
    accepted.  [initialSyncBlockNumber] is never written. *)
Lemma work_try_cursor w from limit s o s' :
  Synchronizer.work_try w from limit s = (o, s') ->
  Synchronizer.initialSyncBlockNumber s' = Synchronizer.initialSyncBlockNumber s
  /\ ((PxeDatabase.blockNumber (Synchronizer.db s') = PxeDatabase.blockNumber (Synchronizer.db s)
       /\ PxeDatabase.blockHeader (Synchronizer.db s')
          = PxeDatabase.blockHeader (Synchronizer.db s))
      \/ exists n h,
           from <= n
           /\ faults w (PxeDatabase.SetBlockData n h) (Synchronizer.db s) = None
           /\ PxeDatabase.blockNumber (Synchronizer.db s') = Some n).
Proof.
  intros Hrun.
  destruct (work_try_cases w from limit s) as [(o1 & Hstop & _)|(blocks & logs & Htail)].
  - rewrite Hstop in Hrun. injection Hrun as <- <-. split; [reflexivity | left; split; reflexivity].
  - rewrite Htail in Hrun. apply work_tail_cases in Hrun. cbv zeta in Hrun.
    destruct (last (keptContexts from blocks)) as [ctx|] eqn:Hlast.
    2:{ destruct Hrun as [-> _]. split; [reflexivity | left; split; reflexivity]. }
    assert (Hfrom : from <= L2Block.number (L2BlockContext.block ctx)).
    { apply keptContexts_from with (blocks := blocks).
      apply list_elem_of_In, last_Some_elem_of, Hlast. }
    destruct (L2Block.number (L2BlockContext.block ctx) <? Synchronizer.initialSyncBlockNumber s).
    + destruct Hrun as (j & _ & _ & _ & Hn & Hh & Hi). split; [exact Hi | left; now split].
    + destruct (faults w _ (Synchronizer.db s)) as [e|] eqn:Hfault.
      * destruct Hrun as [_ ->]. split; [reflexivity | left; split; reflexivity].
      * destruct Hrun as (j & _ & _ & _ & Hn & Hh & Hi). split; [exact Hi|].
        right. eexists. eexists. split; [exact Hfrom|]. split; [exact Hfault | exact Hn].
Qed.
End WorkTail.

(** ** C1: errors inside work *)

Section WorkErrors.
Context {NC : NoteClass} {IM : Imports}.
Implicit Types (s : Synchronizer.t) (w : World).


End WorkErrors.


(** The same run, observed: [false] is returned, the error is logged, the
    header of block 6 is in the database, and the processor is still at 5. *)
Example work_failure_after_setBlockData :
  let r := Synchronizer.work notesFailWorld 1 (sampleSynchronizer 5 [sampleProcessor 1 5] []) in
  fst r = Ret false
  /\ PxeDatabase.blockNumber (Synchronizer.db (snd r)) = Some 6
  /\ map NoteProcessor.syncedToBlock (Synchronizer.noteProcessors (snd r)) = [5]
  /\ Synchronizer.log (snd r)
     = [Synchronizer.Forwarding 0 1;
        Synchronizer.LogError "Error in synchronizer work" (DatabaseError "cannot add notes")].
Proof. cbv zeta. repeat split; reflexivity. Qed.

(** ** C5: fewer blocks than logs *)

Section Trimming.
Context {NC : NoteClass} {IM : Imports}.
Implicit Types (s : Synchronizer.t) (w : World).

Lemma attachedList_lookup blocks enc unenc i c :
  attachedList blocks enc unenc !! i = Some c ->
  exists b e u,
    blocks !! i = Some b /\ enc !! i = Some e /\ unenc !! i = Some u /\ c = withLogs b e u.
Proof.
  revert enc unenc i.
  induction blocks as [|b bs IH]; intros [|e es] [|u us] i Hc; try discriminate Hc.
  destruct i as [|i]; cbn in Hc.
  - injection Hc as <-. exists b, e, u. repeat split.
  - apply IH in Hc. exact Hc.
Qed.

Lemma attachedList_length blocks enc unenc :
  (length blocks <= length enc)%nat ->
  (length blocks <= length unenc)%nat ->
  length (attachedList blocks enc unenc) = length blocks.
Proof.
  revert enc unenc.
  induction blocks as [|b bs IH]; intros [|e es] [|u us] He Hu; cbn in *; try lia.
  rewrite IH by lia. reflexivity.
Qed.

Lemma keptContexts_all from blocks :
  (forall b, In b blocks -> from <= L2Block.number b) ->
  keptContexts from blocks = map L2BlockContext.mk blocks.
Proof.
  intros Hall. unfold keptContexts. f_equal.
  induction blocks as [|b bs IH]; [reflexivity|].
  cbn [List.filter].
  destruct (Z.leb_spec from (L2Block.number b)) as [_|Hlt].
  - f_equal. apply IH. intros b' Hb'. apply Hall. now right.
  - specialize (Hall b (or_introl eq_refl)). lia.
Qed.









End Trimming.



(** The same run, observed; and two more runs that part from the wording:
    with two active processors the loop stops at the first whose [process]
    raises, and a node that serves the blocks 5, 6, 7 for [from = 6] has
    [work] pass two contexts with three bundles. *)
Example work_header_refused :
  let r := Synchronizer.work headerFailWorld 2 (sampleSynchronizer 5 [sampleProcessor 1 5] []) in
  fst r = Ret false
  /\ length (Synchronizer.calls (snd r)) = 1%nat
  /\ map NoteProcessor.syncedToBlock (Synchronizer.noteProcessors (snd r)) = [5].
Proof. cbv zeta. repeat split; reflexivity. Qed.

Example work_stops_at_first_failing_processor :
  let r := Synchronizer.work notesFailWorld 2
             (sampleSynchronizer 5 [sampleProcessor 1 5; sampleProcessor 3 5] []) in
  fst r = Ret false
  /\ map (fun c => match c with
                   | Synchronizer.CallProcess pk _ _ => Some pk
                   | Synchronizer.CallDb _ => None
                   end) (Synchronizer.calls (snd r))
     = [None; Some (sampleKey 1)].
Proof. cbv zeta. repeat split; reflexivity. Qed.

Example work_overlapping_blocks :
  let r := Synchronizer.work (quietWorld overlappingNode) 5
             (sampleSynchronizer 5 [sampleProcessor 1 5] []) in
  fst r = Ret true
  /\ map (fun c => match c with
                   | Synchronizer.CallProcess _ ctxs logs => (length ctxs, length logs)
                   | Synchronizer.CallDb _ => (0, 0)%nat
                   end) (Synchronizer.calls (snd r))
     = [(0, 0); (2, 3)]%nat.
Proof. cbv zeta. repeat split; reflexivity. Qed.

Example work_three_blocks_of_five :
  let r := Synchronizer.work (quietWorld (servingNode 3)) 5
             (sampleSynchronizer 5 [sampleProcessor 1 5; sampleProcessor 3 5] []) in
  fst r = Ret true
  /\ PxeDatabase.blockNumber (Synchronizer.db (snd r)) = Some 8
  /\ map NoteProcessor.syncedToBlock (Synchronizer.noteProcessors (snd r)) = [8; 8]
  /\ length (Synchronizer.calls (snd r)) = 3%nat.
Proof. cbv zeta. repeat split; reflexivity. Qed.

(** ** C6: the header of the last block *)

Section LastHeader.
Context {NC : NoteClass} {IM : Imports}.
Implicit Types (s : Synchronizer.t) (w : World).

(** Attaching logs changes neither the number of a block nor its header. *)
Lemma attachedList_keys blocks enc unenc :
  (length blocks <= length enc)%nat ->
  (length blocks <= length unenc)%nat ->
  map (fun b => (L2Block.number b, headerOfBlock b)) (attachedList blocks enc unenc)
  = map (fun b => (L2Block.number b, headerOfBlock b)) blocks.
Proof.
  revert enc unenc.
  induction blocks as [|b bs IH]; intros [|e es] [|u us] He Hu;
    cbn [length] in He, Hu; try lia; try reflexivity.
  cbn [attachedList map]. f_equal. apply IH; lia.
Qed.

Lemma filter_keys {K} (key : L2Block.t -> K) (num : K -> Z) from (l1 l2 : list L2Block.t) :
  (forall b, num (key b) = L2Block.number b) ->
  map key l1 = map key l2 ->
  map key (List.filter (fun block => from <=? L2Block.number block) l1)
  = map key (List.filter (fun block => from <=? L2Block.number block) l2).
Proof.
  intros Hnum. revert l2.
  induction l1 as [|a l1 IH]; intros [|b l2] Heq; try discriminate Heq; [reflexivity|].
  cbn [map] in Heq. injection Heq as Hkey Hrest. cbn [List.filter].
  rewrite <- (Hnum a), Hkey, (Hnum b).
  destruct (from <=? L2Block.number b); cbn [map]; rewrite (IH l2 Hrest); congruence.
Qed.

(** The context [work] hands to [setBlockDataFromBlock] is that of the last
    fetched block numbered [from] or more. *)
Lemma last_keptContexts from blocks enc unenc lastBlock :
  (length blocks <= length enc)%nat ->
  (length blocks <= length unenc)%nat ->
  last (List.filter (fun block => from <=? L2Block.number block) blocks) = Some lastBlock ->
  exists ctx,
    last (keptContexts from (attachedList blocks enc unenc)) = Some ctx
    /\ L2Block.number (L2BlockContext.block ctx) = L2Block.number lastBlock
    /\ headerOfBlock (L2BlockContext.block ctx) = headerOfBlock lastBlock.
Proof.
  intros He Hu Hlast.
  pose proof (filter_keys (fun b => (L2Block.number b, headerOfBlock b)) fst from _ _
                (fun b => eq_refl) (attachedList_keys blocks enc unenc He Hu)) as Hkeys.
  apply (f_equal last) in Hkeys.
  change (map ?f ?l) with (f <$> l) in Hkeys. rewrite !fmap_last, Hlast in Hkeys.
  unfold keptContexts. change (map ?f ?l) with (f <$> l). rewrite fmap_last.
  destruct (last (List.filter _ (attachedList blocks enc unenc))) as [a|];
    [|discriminate Hkeys].
  apply (inj Some), pair_equal_spec in Hkeys. destruct Hkeys as [Hn Hh].
  exists (L2BlockContext.mk a). repeat split; assumption.
Qed.

Lemma processCalls_no_db keys ctxs logs op :
  ~ In (Synchronizer.CallDb op) (processCalls keys ctxs logs).
Proof.
  unfold processCalls. rewrite in_map_iff. intros (pk & Hpk & _). discriminate Hpk.
Qed.

(** C6. In [work], once the batch is fetched (with a bundle of each kind for
    every block), the step that follows takes the last fetched block
    numbered [from] or more, the last block of the batch.  Below
    [initialSyncBlockNumber] the whole call makes no [db.setBlockData] and
    the block header row of the database is as before.  From
    [initialSyncBlockNumber] on, the first call [work] makes is
    [db.setBlockData] with that block's number and the header made of its
    six tree roots and its globals hash, and there is no other; unless the
    store refuses it, the database holds exactly that number and header when
    [work] ends, whatever the processors did afterwards. *)
Theorem work_persists_last_header_iff w limit s enc unenc blocks lastBlock :
  let from := Synchronizer.getSynchedBlockNumber s + 1 in
  AztecNode.getLogs (node w) from limit ENCRYPTED = Ret enc ->
  AztecNode.getLogs (node w) from limit UNENCRYPTED = Ret unenc ->
  AztecNode.getBlocks (node w) from (Z.of_nat (length enc)) = Ret blocks ->
  (0 < length blocks <= length enc)%nat ->
  (length blocks <= length unenc)%nat ->
  last (List.filter (fun block => from <=? L2Block.number block) blocks) = Some lastBlock ->
  let n := L2Block.number lastBlock in
  let h := headerOfBlock lastBlock in
  exists b s' cs,
    Synchronizer.work w limit s = (Ret b, s')
    /\ called s s' cs
    /\ (n < Synchronizer.initialSyncBlockNumber s ->
        (forall m h', ~ In (Synchronizer.CallDb (PxeDatabase.SetBlockData m h')) cs)
        /\ sameBlockData s s')
    /\ (n >= Synchronizer.initialSyncBlockNumber s ->
        (exists rest,
            cs = Synchronizer.CallDb (PxeDatabase.SetBlockData n h) :: rest
            /\ forall m h', ~ In (Synchronizer.CallDb (PxeDatabase.SetBlockData m h')) rest)
        /\ match faults w (PxeDatabase.SetBlockData n h) (Synchronizer.db s) with
           | None =>
               PxeDatabase.blockNumber (Synchronizer.db s') = Some n
               /\ PxeDatabase.blockHeader (Synchronizer.db s') = Some h
           | Some e => b = false /\ Synchronizer.db s' = Synchronizer.db s
           end).
Proof.
  intros from Henc Hunenc Hblocks Hlen1 Hlen2 Hlast n h.
  destruct (last_keptContexts from blocks (take (length blocks) enc)
              (take (length blocks) unenc) lastBlock) as (ctx & Hctx & Hn & Hh);
    [rewrite length_take; lia | rewrite length_take; lia | exact Hlast |].
  rewrite work_run. fold from.
  rewrite (work_try_fetched w from limit s enc unenc blocks Henc Hunenc Hblocks Hlen1 Hlen2).
  destruct (work_tail w _ _ s) as [o s1] eqn:Htail.
  apply work_tail_cases in Htail. cbv zeta in Htail.
  rewrite Hctx, Hn, Hh in Htail. fold n h in Htail.
  destruct (Z.ltb_spec n (Synchronizer.initialSyncBlockNumber s)) as [Hlt|Hge].
  - destruct Htail as (j & Hcalls & _ & _ & Hsame).
    assert (Hnone : forall m h',
               ~ In (Synchronizer.CallDb (PxeDatabase.SetBlockData m h'))
                    (processCalls
                       (take j (map NoteProcessor.publicKey (Synchronizer.noteProcessors s)))
                       (keptContexts from
                          (attachedList blocks (take (length blocks) enc)
                             (take (length blocks) unenc)))
                       (take (length blocks) enc)))
      by (intros m h'; apply processCalls_no_db).
    destruct o as [b|e]; eexists; eexists; eexists;
      (split; [reflexivity|]); (split; [exact Hcalls|]);
      (split; [intros _; split; [exact Hnone | exact Hsame] | lia]).
  - destruct (faults w (PxeDatabase.SetBlockData n h) (Synchronizer.db s)) as [e|].
    + destruct Htail as [-> ->].
      eexists; eexists; eexists. split; [reflexivity|].
      split; [unfold called; cbn; reflexivity|]. split; [lia|]. intros _.
      split; [|split; reflexivity].
      eexists. split; [reflexivity|]. intros m h' [].
    + destruct Htail as (j & Hcalls & _ & _ & Hnumber & Hheader & _).
      destruct o as [b|e]; eexists; eexists; eexists;
        (split; [reflexivity|]); (split; [exact Hcalls|]); (split; [lia|]); intros _;
        (split; [|split; assumption]);
        (eexists; split; [reflexivity|]); intros m h'; apply processCalls_no_db.
Qed.
End LastHeader.

(** Five bundles of each kind and the blocks 6, 7, 8: the header stored is
    that of block 8. *)
Lemma work_persists_last_header_iff_witness :
  let w := quietWorld (servingNode 3) in
  let s := sampleSynchronizer 5 [sampleProcessor 1 5] [] in
  exists b s',
    Synchronizer.work w 5 s = (Ret b, s')
    /\ PxeDatabase.blockNumber (Synchronizer.db s') = Some 8
    /\ PxeDatabase.blockHeader (Synchronizer.db s') = Some (headerOfBlock (sampleBlock 8)).
Proof.
  intros w s.
  destruct (work_persists_last_header_iff w 5 s (map sampleLogs (seq 0 5))
              (map sampleLogs (seq 0 5)) [sampleBlock 6; sampleBlock 7; sampleBlock 8]
              (sampleBlock 8))
    as (b & s' & cs & Hwork & _ & _ & Hfrom).
  - reflexivity.
  - reflexivity.
  - reflexivity.
  - cbn. lia.
  - cbn. lia.
  - reflexivity.
  - exists b, s'. split; [exact Hwork|].
    destruct Hfrom as [_ Hstored]; [cbn; lia|]. exact Hstored.
Defined.

(** The same batch on a synchronizer whose initial sync was at block 20:
    nothing is stored, the processor is fed all the same. *)
Example work_below_initial_sync :
  let s := @Synchronizer.mk vectorNotes sampleImports None [sampleProcessor 1 5] true 20 [] []
             (PxeDatabase.mk (Some 5) None [] []) [] in
  let r := Synchronizer.work (quietWorld (servingNode 3)) 5 s in
  fst r = Ret true
  /\ PxeDatabase.blockNumber (Synchronizer.db (snd r)) = Some 5
  /\ PxeDatabase.blockHeader (Synchronizer.db (snd r)) = None
  /\ map NoteProcessor.syncedToBlock (Synchronizer.noteProcessors (snd r)) = [8].
Proof. cbv zeta. repeat split; reflexivity. Qed.

(** ** C4: the block number of the database *)

Lemma blockNumber_le_refl a : blockNumber_le a a.
Proof. destruct a; cbn; [lia | exact I]. Qed.

Lemma blockNumber_le_trans a b c :
  blockNumber_le a b -> blockNumber_le b c -> blockNumber_le a c.
Proof. destruct a, b, c; cbn; try tauto; lia. Qed.

#[global] Instance cursorAdvances_PreOrder `{NoteClass} `{Imports} : PreOrder cursorAdvances.
Proof.
  split.
  - intros s. apply blockNumber_le_refl.
  - intros s1 s2 s3. apply blockNumber_le_trans.
Qed.

Section Cursor.
Context {NC : NoteClass} {IM : Imports}.
Implicit Types (s : Synchronizer.t) (w : World) (op : Op).

Lemma sameBlockData_advances s s' : sameBlockData s s' -> cursorAdvances s s'.
Proof.
  intros (Hn & _). unfold cursorAdvances, dbBlockNumber, PxeDatabase.getBlockNumber.
  rewrite Hn. apply blockNumber_le_refl.
Qed.

Lemma respects_weaken {A} (m : ST Synchronizer.t A) :
  respects sameBlockData m -> respects cursorAdvances m.
Proof. intros Hm s o s' Hrun. eapply sameBlockData_advances, Hm, Hrun. Qed.

Lemma catchUp_try_keeps w from limit toBlockNumber :
  respects sameBlockData (Synchronizer.catchUp_try w from limit toBlockNumber).
Proof.
  unfold Synchronizer.catchUp_try.
  r_bind; [r_leaf|]. apply respects_if; [r_leaf|].
  r_bind; [r_leaf|]. apply respects_if; [r_leaf|].
  r_bind; [apply logEntry_keeps|]. r_bind; [apply callProcess_keeps|].
  r_bind; [r_leaf|].
  destruct (Synchronizer.noteProcessorsToCatchUp _ !! 0%nat); [|r_leaf].
  apply respects_if; [|r_leaf].
  r_bind; [apply logEntry_keeps|]. r_bind; [apply promoteHead_keeps|]. r_leaf.
Qed.

Lemma workNoteProcessorCatchUp_keeps w limit :
  respects sameBlockData (Synchronizer.workNoteProcessorCatchUp w limit).
Proof.
  unfold Synchronizer.workNoteProcessorCatchUp.
  r_bind; [r_leaf|].
  destruct (Synchronizer.noteProcessorsToCatchUp _ !! 0%nat); [|r_leaf].
  apply respects_if.
  - r_bind; [apply promoteHead_keeps|]. r_leaf.
  - apply respects_if; [r_leaf|].
    r_try; [apply catchUp_try_keeps|].
    r_bind; [apply logEntry_keeps|]. r_leaf.
Qed.

Lemma reprocess_keeps w contractAddress :
  respects sameBlockData (Synchronizer.reprocessDeferredNotesForContract w contractAddress).
Proof.
  unfold Synchronizer.reprocessDeferredNotesForContract.
  r_bind; [apply db_getDeferredNotesByContract_keeps|].
  r_bind; [r_leaf|].
  r_bind.
  { r_mapST. r_bind; [|r_leaf]. r_mapST. r_leaf. }
  r_bind; [apply db_removeDeferredNotesByContract_keeps|].
  r_bind; [apply db_addNotes_keeps|].
  r_bind; [r_forEach; apply logEntry_keeps|].
  r_forEach.
  r_bind; [apply findRelevantNullifiers_keeps|].
  r_bind; [apply db_removeNullifiedNotes_keeps|]. r_leaf.
Qed.

Lemma stop_keeps promiseStopped : respects sameBlockData (Synchronizer.stop promiseStopped).
Proof.
  unfold Synchronizer.stop.
  r_bind; [r_modify; repeat split|]. r_bind; [r_leaf|].
  r_bind; [|apply logEntry_keeps].
  destruct (Synchronizer.runningPromise _); [|r_leaf].
  r_bind; [r_modify; repeat split | r_leaf].
Qed.

Lemma addAccount_keeps publicKey keyStore startingBlock s :
  sameBlockData s (Synchronizer.addAccount publicKey keyStore startingBlock s).
Proof.
  unfold Synchronizer.addAccount.
  destruct (List.find _ (Synchronizer.noteProcessors s)); [reflexivity|].
  destruct (List.find _ (Synchronizer.noteProcessorsToCatchUp s)); [reflexivity|].
  repeat split.
Qed.

Lemma work_advances w limit : respects cursorAdvances (Synchronizer.work w limit).
Proof.
  intros s o s' Hrun. rewrite work_run in Hrun.
  destruct (Synchronizer.work_try w _ limit s) as [o1 s1] eqn:Htry.
  apply work_try_cursor in Htry. destruct Htry as [_ Hcursor].
  assert (Hs1 : cursorAdvances s s1).
  { unfold cursorAdvances, dbBlockNumber, PxeDatabase.getBlockNumber.
    destruct Hcursor as [[-> _]|(n & h & Hfrom & _ & ->)]; [apply blockNumber_le_refl|].
    unfold Synchronizer.getSynchedBlockNumber, PxeDatabase.getBlockNumber in Hfrom.
    destruct (PxeDatabase.blockNumber (Synchronizer.db s)) as [m|]; cbn in *; [lia | exact I]. }
  destruct o1; injection Hrun as <- <-; exact Hs1.
Qed.

Lemma sync_advances fuel w limit : respects cursorAdvances (Synchronizer.sync fuel w limit).
Proof.
  induction fuel as [|fuel IH]; cbn [Synchronizer.sync]; [r_leaf|].
  r_bind; [r_leaf|]. apply respects_if; [|r_leaf].
  r_bind.
  - apply respects_if; [apply respects_weaken, workNoteProcessorCatchUp_keeps
                       | apply work_advances].
  - apply respects_if; [exact IH | r_leaf].
Qed.

Lemma initialSync_advances w s :
  nodeAhead w s -> cursorAdvances s (snd (Synchronizer.initialSync w s)).
Proof.
  intros Hahead. unfold Synchronizer.initialSync, bind at 1, lift at 1.
  destruct (AztecNode.getBlockNumber (node w)) as [n|e] eqn:Hn; [|reflexivity].
  specialize (Hahead n Hn).
  unfold bind at 1, lift at 1.
  destruct (AztecNode.getBlockHeader (node w)) as [h|e]; [|reflexivity].
  unfold bind at 1, modify. rewrite db_setBlockData_run. cbv zeta.
  cbn [Synchronizer.db Synchronizer.set_initialSyncBlockNumber].
  destruct (faults w _ (Synchronizer.db s));
    unfold cursorAdvances, dbBlockNumber; cbn; [apply blockNumber_le_refl | exact Hahead].
Qed.

Lemma start_advances w limit retryInterval s :
  (Synchronizer.running s = false -> nodeAhead w s) ->
  cursorAdvances s (snd (Synchronizer.start w limit retryInterval s)).
Proof.
  intros Hahead. unfold Synchronizer.start, bind at 1, get.
  destruct (Synchronizer.running s) eqn:Hrunning; [reflexivity|].
  specialize (Hahead eq_refl).
  unfold bind at 1, modify. unfold bind at 1.
  pose proof (initialSync_advances w (Synchronizer.set_running true s)) as Hinit.
  destruct (Synchronizer.initialSync w (Synchronizer.set_running true s)) as [[[]|e] s1].
  - cbn. apply Hinit. exact Hahead.
  - apply Hinit. exact Hahead.
Qed.

Lemma step_advances op s : opAssumption op s -> cursorAdvances s (step op s).
Proof.
  destruct op as [w l r|w|fuel w l|w l|w l|stopped|pk ks sb|w a]; cbn [opAssumption step]; intros Hop.
  - now apply start_advances.
  - now apply initialSync_advances.
  - eapply sync_advances, surjective_pairing.
  - eapply work_advances, surjective_pairing.
  - eapply sameBlockData_advances, workNoteProcessorCatchUp_keeps, surjective_pairing.
  - eapply sameBlockData_advances, stop_keeps, surjective_pairing.
  - apply sameBlockData_advances, addAccount_keeps.
  - eapply sameBlockData_advances, reprocess_keeps, surjective_pairing.
Qed.

Lemma step_keeps op s : notSyncing op -> dbBlockNumber (step op s) = dbBlockNumber s.
Proof.
  destruct op as [w l r|w|fuel w l|w l|w l|stopped|pk ks sb|w a]; cbn [notSyncing step];
    intros Hop; try contradiction.
  - eapply workNoteProcessorCatchUp_keeps, surjective_pairing.
  - eapply stop_keeps, surjective_pairing.
  - apply addAccount_keeps.
  - eapply reprocess_keeps, surjective_pairing.
Qed.

Lemma run_advances ops s : runAssumptions ops s -> cursorAdvances s (run ops s).
Proof.
  revert s. induction ops as [|op ops IH]; intros s Hops; cbn [run fold_left].
  - reflexivity.
  - destruct Hops as [Hop Hrest]. transitivity (step op s).
    + now apply step_advances.
    + apply IH, Hrest.
Qed.

Lemma runAssumptions_app ops1 ops2 s :
  runAssumptions (ops1 ++ ops2) s -> runAssumptions ops2 (run ops1 s).
Proof.
  revert s. induction ops1 as [|op ops1 IH]; intros s Hops; [exact Hops|].
  destruct Hops as [_ Hrest]. apply IH, Hrest.
Qed.

Lemma run_keeps ops s :
  Forall notSyncing ops -> dbBlockNumber (run ops s) = dbBlockNumber s.
Proof.
  intros Hops. revert s. induction Hops as [|op ops Hop Hops IH]; intros s; [reflexivity|].
  cbn [run fold_left]. fold (run ops (step op s)). rewrite IH. now apply step_keeps.
Qed.

(** C4. Along every sequence of synchronizer operations in which the node
    is not behind the database at each initial sync, the block number of
    the database never decreases between two observations, and a stretch of
    operations that are neither an initial sync nor [work] (nor [start] or
    [sync], which run them) leaves it as it is. *)
Theorem db_blockNumber_monotone ops1 ops2 s :
  runAssumptions (ops1 ++ ops2) s ->
  blockNumber_le (dbBlockNumber (run ops1 s)) (dbBlockNumber (run (ops1 ++ ops2) s))
  /\ (Forall notSyncing ops2 ->
      dbBlockNumber (run (ops1 ++ ops2) s) = dbBlockNumber (run ops1 s)).
Proof.
  intros Hops.
  assert (Happ : run (ops1 ++ ops2) s = run ops2 (run ops1 s))
    by (unfold run; apply fold_left_app).
  rewrite Happ. split.
  - apply run_advances, runAssumptions_app, Hops.
  - intros Hkeep. exact (run_keeps ops2 (run ops1 s) Hkeep).
Qed.
End Cursor.

(** A fresh synchronizer registers an account, starts against a node at
    block 8, catches the account up and works. *)
Lemma db_blockNumber_monotone_witness :
  let w := quietWorld (servingNode 3) in
  let s := @Synchronizer.new vectorNotes sampleImports PxeDatabase.empty in
  let ops1 := [sampleAddAccount 1 1; OpStart w 1 1000] in
  let ops2 := [OpCatchUp w 1; OpWork w 1; OpStop (Ret tt)] in
  blockNumber_le (dbBlockNumber (run ops1 s)) (dbBlockNumber (run (ops1 ++ ops2) s))
  /\ (Forall notSyncing ops2 ->
      dbBlockNumber (run (ops1 ++ ops2) s) = dbBlockNumber (run ops1 s)).
Proof.
  intros w s ops1 ops2.
  apply (db_blockNumber_monotone ops1 ops2 s).
  cbn [runAssumptions opAssumption app ops1 ops2].
  repeat split; intros; exact I.
Defined.

Example fresh_start_reaches_node_block :
  let w := quietWorld (servingNode 3) in
  let s := @Synchronizer.new vectorNotes sampleImports PxeDatabase.empty in
  map dbBlockNumber
    [s; run [sampleAddAccount 1 1] s;
     run [sampleAddAccount 1 1; OpStart w 1 1000] s;
     run [sampleAddAccount 1 1; OpStart w 1 1000; OpCatchUp w 8] s;
     run [sampleAddAccount 1 1; OpStart w 1 1000; OpCatchUp w 8; OpWork w 1] s]
  = [None; None; Some 8; Some 8; Some 9].
Proof. reflexivity. Qed.

(** ** C9: the nullifier scan of reprocessDeferredNotesForContract *)

#[global] Instance callsOnlyFound_PreOrder `{NoteClass} `{Imports} (w : World) :
  PreOrder (callsOnlyFound w).
Proof.
  split.
  - intros s. exists []. split; [unfold called; now rewrite app_nil_r | constructor].
  - intros s1 s2 s3 (cs1 & H1 & F1) (cs2 & H2 & F2). exists (cs1 ++ cs2). split.
    + unfold called in *. rewrite H2, H1, app_assoc. reflexivity.
    + apply Forall_app. now split.
Qed.

Section NullifierScan.
Context {NC : NoteClass} {IM : Imports}.
Implicit Types (s : Synchronizer.t) (w : World).

Lemma truthy_nonzero found : truthy found = true <-> exists index, found = Some index /\ index <> 0.
Proof.
  destruct found as [index|]; cbn.
  - rewrite negb_true_iff, Z.eqb_neq. split; [eauto | intros (i & [= ->] & Hi); exact Hi].
  - split; [discriminate | intros (i & [=] & _)].
Qed.

Lemma findRelevantNullifiers_found w nullifiers s o s' :
  Synchronizer.findRelevantNullifiers w nullifiers s = (o, s') ->
  s' = s /\ forall relevant, o = Ret relevant -> Forall (foundNonZero (node w)) relevant.
Proof.
  revert o s'. induction nullifiers as [|n ns IH]; intros o s' Hrun;
    cbn [Synchronizer.findRelevantNullifiers] in Hrun.
  - injection Hrun as <- <-. split; [reflexivity|]. intros relevant [= <-]. constructor.
  - unfold bind at 1, lift at 1 in Hrun.
    destruct (AztecNode.findLeafIndex (node w) NULLIFIER_TREE n) as [found|e] eqn:Hfound.
    2:{ injection Hrun as <- <-. split; [reflexivity | discriminate]. }
    unfold bind at 1 in Hrun.
    destruct (Synchronizer.findRelevantNullifiers w ns s) as [[more|e] s1] eqn:Hmore.
    2:{ injection Hrun as <- <-. destruct (IH _ _ eq_refl) as [-> _].
        split; [reflexivity | discriminate]. }
    destruct (IH _ _ eq_refl) as [-> Hfoundmore]. injection Hrun as <- <-.
    split; [reflexivity|]. intros relevant [= <-].
    specialize (Hfoundmore more eq_refl).
    destruct (truthy found) eqn:Htruthy; [|exact Hfoundmore].
    constructor; [|exact Hfoundmore].
    apply truthy_nonzero in Htruthy. destruct Htruthy as (index & -> & Hindex).
    exists index. now split.
Qed.

Lemma record_onlyFound w c :
  removesOnlyFound w c -> respects (callsOnlyFound w) (Synchronizer.record c).
Proof.
  intros Hc. r_modify. exists [c]. split; [reflexivity | now constructor].
Qed.

Lemma sameCalls_onlyFound w {A} (m : ST Synchronizer.t A) :
  (forall s o s', m s = (o, s') -> Synchronizer.calls s' = Synchronizer.calls s) ->
  respects (callsOnlyFound w) m.
Proof.
  intros Hm s o s' Hrun. exists []. split; [|constructor].
  unfold called. rewrite (Hm s o s' Hrun), app_nil_r. reflexivity.
Qed.

Lemma onDb_onlyFound w {A} (m : ST PxeDatabase.t A) :
  respects (callsOnlyFound w) (Synchronizer.onDb m).
Proof.
  apply sameCalls_onlyFound. intros s o s' Hrun. unfold Synchronizer.onDb in Hrun.
  destruct (m (Synchronizer.db s)). injection Hrun as <- <-. reflexivity.
Qed.

Lemma logEntry_onlyFound w e : respects (callsOnlyFound w) (Synchronizer.logEntry e).
Proof. apply sameCalls_onlyFound. intros s o s' [= <- <-]. reflexivity. Qed.

Lemma reprocess_onlyFound w contractAddress :
  respects (callsOnlyFound w)
    (Synchronizer.reprocessDeferredNotesForContract w contractAddress).
Proof.
  unfold Synchronizer.reprocessDeferredNotesForContract.
  r_bind.
  { unfold Synchronizer.db_getDeferredNotesByContract.
    r_bind; [now apply record_onlyFound | apply onDb_onlyFound]. }
  r_bind; [r_leaf|].
  r_bind.
  { r_mapST. r_bind; [|r_leaf]. r_mapST. r_leaf. }
  r_bind.
  { unfold Synchronizer.db_removeDeferredNotesByContract.
    r_bind; [now apply record_onlyFound | apply onDb_onlyFound]. }
  r_bind.
  { unfold Synchronizer.db_addNotes.
    r_bind; [now apply record_onlyFound | apply onDb_onlyFound]. }
  r_bind; [r_forEach; apply logEntry_onlyFound|].
  r_forEach.
  intros s o s' Hrun. unfold bind at 1 in Hrun.
  destruct (Synchronizer.findRelevantNullifiers w _ s) as [o1 s1] eqn:Hscan.
  apply findRelevantNullifiers_found in Hscan. destruct Hscan as [-> Hrelevant].
  destruct o1 as [relevant|e]; [|injection Hrun as <- <-; reflexivity].
  specialize (Hrelevant relevant eq_refl).
  revert Hrun. generalize s o s'.
  fold (respects (S := Synchronizer.t) (A := unit) (callsOnlyFound w)).
  r_bind; [|r_leaf].
  unfold Synchronizer.db_removeNullifiedNotes.
  r_bind; [apply record_onlyFound; exact Hrelevant | apply onDb_onlyFound].
Qed.

(** C9. In the nullifier scan that ends [reprocessDeferredNotesForContract],
    a nullifier that the node finds at leaf index 0 counts as not found
    (the index is tested for truthiness): no [removeNullifiedNotes] call of
    the run names it, so the store is never asked to remove a note for it
    although the nullifier is in the tree.  Every nullifier that is passed
    was found at a non-zero index. *)
Theorem reprocess_skips_leaf_index_zero w contractAddress s :
  truthy (Some 0) = false
  /\ exists cs,
       called s (snd (Synchronizer.reprocessDeferredNotesForContract w contractAddress s)) cs
       /\ forall nullifiers account,
            In (Synchronizer.CallDb (PxeDatabase.RemoveNullifiedNotes nullifiers account)) cs ->
            (forall nullifier,
                In nullifier nullifiers -> foundNonZero (node w) nullifier)
            /\ (forall nullifier,
                   AztecNode.findLeafIndex (node w) NULLIFIER_TREE nullifier = Ret (Some 0) ->
                   ~ In nullifier nullifiers).
Proof.
  split; [reflexivity|].
  destruct (reprocess_onlyFound w contractAddress s _ _ (surjective_pairing _))
    as (cs & Hcalled & Hcs).
  exists cs. split; [exact Hcalled|].
  intros nullifiers account Hin.
  rewrite List.Forall_forall in Hcs. specialize (Hcs _ Hin). cbn in Hcs.
  rewrite List.Forall_forall in Hcs. split; [exact Hcs|].
  intros nullifier Hzero Hn. destruct (Hcs _ Hn) as (index & Hfound & Hindex).
  rewrite Hzero in Hfound. injection Hfound as <-. now apply Hindex.
Qed.
End NullifierScan.

(** The deferred note of the sample decodes to a note whose nullifier is in
    the tree.  At leaf index 3 the scan removes the note again; at leaf index
    0 the store is asked to remove nothing and the note stays. *)
Example reprocess_leaf_index_zero_keeps_note :
  let address := mkAztecAddress (mkFr 5) in
  let at0 := snd (Synchronizer.reprocessDeferredNotesForContract
                    (decodingWorld 0) address deferringSynchronizer) in
  let at3 := snd (Synchronizer.reprocessDeferredNotesForContract
                    (decodingWorld 3) address deferringSynchronizer) in
  PxeDatabase.notes (Synchronizer.db at0) = [decodedNote sampleDeferredNote]
  /\ PxeDatabase.notes (Synchronizer.db at3) = []
  /\ last (Synchronizer.calls at0)
     = Some (Synchronizer.CallDb (PxeDatabase.RemoveNullifiedNotes [] (sampleKey 1)))
  /\ last (Synchronizer.calls at3)
     = Some (Synchronizer.CallDb (PxeDatabase.RemoveNullifiedNotes [mkFr 7] (sampleKey 1)))
  /\ PxeDatabase.deferredNotes (Synchronizer.db at0) = [].
Proof. cbv zeta. repeat split; reflexivity. Qed.

(** One active processor at block 5, one still catching up at block 2. *)
Lemma getSyncStatus_notes_active_only_witness :
  let s := sampleSynchronizer 5 [sampleProcessor 1 5] [sampleProcessor 3 2] in
  let notes := Synchronizer.notes (Synchronizer.getSyncStatus s) in
  (forall k v,
      notes !! k = Some v <->
      exists p, In p (Synchronizer.noteProcessors s)
                /\ processorKey p = k /\ NoteProcessor.syncedToBlock p = v)
  /\ size notes = length (Synchronizer.noteProcessors s)
  /\ (forall p, In p (Synchronizer.noteProcessorsToCatchUp s) -> notes !! processorKey p = None)
  /\ (forall publicKey keyStore startingBlock,
        ~ In (@Point_toString sampleImports publicKey)
             (map processorKey
                (Synchronizer.noteProcessors s ++ Synchronizer.noteProcessorsToCatchUp s)) ->
        Synchronizer.notes
          (Synchronizer.getSyncStatus
             (Synchronizer.addAccount publicKey keyStore startingBlock s))
        !! @Point_toString sampleImports publicKey = None).
Proof.
  intros s.
  apply (getSyncStatus_notes_active_only s).
  change (NoDup ["0x1,0x2"; "0x3,0x4"]).
  apply NoDup_cons. split; [|apply NoDup_singleton].
  intros Hin. apply list_elem_of_singleton in Hin. discriminate Hin.
Defined.

Example getSyncStatus_of_sample :
  let s := sampleSynchronizer 5 [sampleProcessor 1 5] [sampleProcessor 3 2] in
  Synchronizer.blocks (Synchronizer.getSyncStatus s) = 5
  /\ Synchronizer.notes (Synchronizer.getSyncStatus s) !! "0x1,0x2" = Some 5
  /\ Synchronizer.notes (Synchronizer.getSyncStatus s) !! "0x3,0x4" = None.
Proof. cbv zeta. repeat split; reflexivity. Qed.

Example addAccount_twice :
  let s := sampleSynchronizer 5 [sampleProcessor 1 5] [] in
  let once := @Synchronizer.addAccount vectorNotes sampleImports (sampleKey 3) tt 4 s in
  Synchronizer.noteProcessorsToCatchUp once = [sampleProcessor 3 3]
  /\ @Synchronizer.addAccount vectorNotes sampleImports (sampleKey 3) tt 9 once = once
  /\ @Synchronizer.addAccount vectorNotes sampleImports (sampleKey 1) tt 9 s = s.
Proof. cbv zeta. repeat split; reflexivity. Qed.

Example setBlockDataFromBlock_of_sample :
  let s := Synchronizer.set_initialSyncBlockNumber 7 (sampleSynchronizer 5 [] []) in
  let w := quietWorld emptyNode in
  snd (Synchronizer.setBlockDataFromBlock w (Some (L2BlockContext.mk (sampleBlock 6))) s) = s
  /\ PxeDatabase.blockNumber
       (Synchronizer.db
          (snd (Synchronizer.setBlockDataFromBlock w (Some (L2BlockContext.mk (sampleBlock 7))) s)))
     = Some 7
  /\ PxeDatabase.blockHeader
       (Synchronizer.db
          (snd (Synchronizer.setBlockDataFromBlock w (Some (L2BlockContext.mk (sampleBlock 7))) s)))
     = Some (BlockHeader.mk (mkFr 71) (mkFr 72) (mkFr 73) (mkFr 74) (mkFr 75) Fr_ZERO
               (mkFr 76) (mkFr 8)).
Proof. cbv zeta. repeat split; reflexivity. Qed.

(** ** The registered keys stay pairwise distinct *)

#[global] Instance sameKeys_PreOrder `{NoteClass} `{Imports} : PreOrder sameKeys.
Proof.
split.
- intros s. unfold sameKeys. reflexivity.
- intros s1 s2 s3 H12 H23. unfold sameKeys in *. now rewrite H12.
Qed.

Section RegisteredKeys.
Context {NC : NoteClass} {IM : Imports}.
Implicit Types (s : Synchronizer.t) (w : World) (op : Op).

Lemma sameLists_sameKeys {A} (m : ST Synchronizer.t A) :
  (forall s o s', m s = (o, s') ->
     Synchronizer.noteProcessors s' = Synchronizer.noteProcessors s
     /\ Synchronizer.noteProcessorsToCatchUp s' = Synchronizer.noteProcessorsToCatchUp s) ->
  respects sameKeys m.
Proof.
intros Hm s o s' Hrun. destruct (Hm s o s' Hrun) as [Ha Hc].
unfold sameKeys, registeredKeys. now rewrite Ha, Hc.
Qed.

Lemma logEntry_sameKeys e : respects sameKeys (Synchronizer.logEntry e).
Proof. apply sameLists_sameKeys. intros s o s' [= <- <-]. now split. Qed.

Lemma record_sameKeys c : respects sameKeys (Synchronizer.record c).
Proof. apply sameLists_sameKeys. intros s o s' [= <- <-]. now split. Qed.

Lemma onDb_sameKeys {A} (m : ST PxeDatabase.t A) : respects sameKeys (Synchronizer.onDb m).
Proof.
apply sameLists_sameKeys. intros s o s' Hrun. unfold Synchronizer.onDb in Hrun.
destruct (m (Synchronizer.db s)). injection Hrun as <- <-. now split.
Qed.

Lemma db_setBlockData_sameKeys w n h : respects sameKeys (Synchronizer.db_setBlockData w n h).
Proof.
unfold Synchronizer.db_setBlockData. r_bind; [apply record_sameKeys | apply onDb_sameKeys].
Qed.

Lemma promoteHead_sameKeys : respects sameKeys (modify Synchronizer.promoteHead).
Proof.
apply respects_modify. intros s. unfold sameKeys, registeredKeys, Synchronizer.promoteHead.
destruct (Synchronizer.noteProcessorsToCatchUp s) as [|p rest] eqn:Hc; [now rewrite Hc|].
cbn [Synchronizer.noteProcessors Synchronizer.noteProcessorsToCatchUp
     Synchronizer.set_noteProcessors Synchronizer.set_noteProcessorsToCatchUp].
rewrite <- app_assoc. reflexivity.
Qed.

Lemma callProcess_sameKeys w r ctxs logs :
  respects sameKeys (Synchronizer.callProcess w r ctxs logs).
Proof.
intros s o s' Hrun. unfold Synchronizer.callProcess in Hrun.
destruct (Synchronizer.processorAt r s) as [p|] eqn:Hp; [|injection Hrun as <- <-; reflexivity].
cbn [Synchronizer.db Synchronizer.set_calls] in Hrun.
destruct (NoteProcessor.process w ctxs logs (p, Synchronizer.db s)) as [o1 [p' d']] eqn:Hproc.
apply process_keeps in Hproc. destruct Hproc as (_ & _ & Hpk). cbn [fst snd] in Hpk.
injection Hrun as <- <-. unfold sameKeys, registeredKeys.
destruct r as [i|i]; cbn in Hp |- *; rewrite !map_app; f_equiv;
  change (map NoteProcessor.publicKey ?l) with (NoteProcessor.publicKey <$> l);
  rewrite list_fmap_insert, Hpk, list_insert_id; try reflexivity;
  rewrite list_lookup_fmap, Hp; reflexivity.
Qed.

Lemma setBlockDataFromBlock_sameKeys w latestBlock :
  respects sameKeys (Synchronizer.setBlockDataFromBlock w latestBlock).
Proof.
unfold Synchronizer.setBlockDataFromBlock. destruct latestBlock as [ctx|]; [|r_leaf].
r_bind; [r_leaf|]. apply respects_if; [r_leaf | apply db_setBlockData_sameKeys].
Qed.

Lemma attachLogsFrom_sameKeys i blocks enc unenc :
  respects sameKeys (Synchronizer.attachLogsFrom i blocks enc unenc).
Proof.
intros s o s' Hrun. pose proof (attachLogsFrom_state i blocks enc unenc s) as Hs.
rewrite Hrun in Hs. cbn in Hs. subst s'. reflexivity.
Qed.

Lemma work_sameKeys w limit : respects sameKeys (Synchronizer.work w limit).
Proof.
unfold Synchronizer.work. r_bind; [r_leaf|].
r_try; [|r_bind; [apply logEntry_sameKeys | r_leaf]].
unfold Synchronizer.work_try.
r_bind; [r_leaf|]. apply respects_if; [r_leaf|].
r_bind; [r_leaf|]. apply respects_if; [r_leaf|].
r_bind; [r_leaf|]. apply respects_if; [r_leaf|].
r_bind; [apply attachLogsFrom_sameKeys|].
r_bind; [apply setBlockDataFromBlock_sameKeys|].
r_bind; [r_leaf|]. r_bind; [apply logEntry_sameKeys|].
r_bind; [|r_leaf]. r_forEach. apply callProcess_sameKeys.
Qed.

Lemma workNoteProcessorCatchUp_sameKeys w limit :
  respects sameKeys (Synchronizer.workNoteProcessorCatchUp w limit).
Proof.
unfold Synchronizer.workNoteProcessorCatchUp.
r_bind; [r_leaf|].
destruct (Synchronizer.noteProcessorsToCatchUp _ !! 0%nat); [|r_leaf].
apply respects_if; [r_bind; [apply promoteHead_sameKeys | r_leaf]|].
apply respects_if; [r_leaf|].
r_try; [|r_bind; [apply logEntry_sameKeys | r_leaf]].
unfold Synchronizer.catchUp_try.
r_bind; [r_leaf|]. apply respects_if; [r_leaf|].
r_bind; [r_leaf|]. apply respects_if; [r_leaf|].
r_bind; [apply logEntry_sameKeys|]. r_bind; [apply callProcess_sameKeys|].
r_bind; [r_leaf|].
destruct (Synchronizer.noteProcessorsToCatchUp _ !! 0%nat); [|r_leaf].
apply respects_if; [|r_leaf].
r_bind; [apply logEntry_sameKeys|]. r_bind; [apply promoteHead_sameKeys | r_leaf].
Qed.

Lemma sync_sameKeys fuel w limit : respects sameKeys (Synchronizer.sync fuel w limit).
Proof.
induction fuel as [|fuel IH]; cbn [Synchronizer.sync]; [r_leaf|].
r_bind; [r_leaf|]. apply respects_if; [|r_leaf].
r_bind.
- apply respects_if; [apply workNoteProcessorCatchUp_sameKeys | apply work_sameKeys].
- apply respects_if; [exact IH | r_leaf].
Qed.

Lemma initialSync_sameKeys w : respects sameKeys (Synchronizer.initialSync w).
Proof.
unfold Synchronizer.initialSync.
r_bind; [r_leaf|]. r_bind; [r_leaf|].
r_bind; [r_modify; unfold sameKeys, registeredKeys; reflexivity | apply db_setBlockData_sameKeys].
Qed.

Lemma start_sameKeys w limit retryInterval :
  respects sameKeys (Synchronizer.start w limit retryInterval).
Proof.
unfold Synchronizer.start. r_bind; [r_leaf|]. apply respects_if; [r_leaf|].
r_bind; [r_modify; unfold sameKeys, registeredKeys; reflexivity|]. r_bind; [apply initialSync_sameKeys|].
r_bind; [apply logEntry_sameKeys|]. r_bind; [r_modify; unfold sameKeys, registeredKeys; reflexivity|].
apply logEntry_sameKeys.
Qed.

Lemma stop_sameKeys promiseStopped : respects sameKeys (Synchronizer.stop promiseStopped).
Proof.
unfold Synchronizer.stop.
r_bind; [r_modify; unfold sameKeys, registeredKeys; reflexivity|]. r_bind; [r_leaf|].
r_bind; [|apply logEntry_sameKeys].
destruct (Synchronizer.runningPromise _); [|r_leaf].
r_bind; [r_modify; unfold sameKeys, registeredKeys; reflexivity | r_leaf].
Qed.

Lemma reprocess_sameKeys w contractAddress :
  respects sameKeys (Synchronizer.reprocessDeferredNotesForContract w contractAddress).
Proof.
apply sameLists_sameKeys. intros s o s' Hrun.
assert (Hlists : respects
          (fun s s' => Synchronizer.noteProcessors s' = Synchronizer.noteProcessors s
                       /\ Synchronizer.noteProcessorsToCatchUp s'
                          = Synchronizer.noteProcessorsToCatchUp s)
          (Synchronizer.reprocessDeferredNotesForContract w contractAddress)).
2:{ exact (Hlists s o s' Hrun). }
assert (Hpre : PreOrder
          (fun s s' : Synchronizer.t =>
             Synchronizer.noteProcessors s' = Synchronizer.noteProcessors s
             /\ Synchronizer.noteProcessorsToCatchUp s'
                = Synchronizer.noteProcessorsToCatchUp s)).
{ split; [intros ?; now split | intros ? ? ? [? ?] [? ?]; split; congruence]. }
assert (Hdb : forall A (m : ST PxeDatabase.t A) c,
          respects
            (fun s s' : Synchronizer.t =>
               Synchronizer.noteProcessors s' = Synchronizer.noteProcessors s
               /\ Synchronizer.noteProcessorsToCatchUp s'
                  = Synchronizer.noteProcessorsToCatchUp s)
            (exec Synchronizer.record c; Synchronizer.onDb m)).
{ intros A m c s0 o0 s0' Hr. unfold bind, Synchronizer.record, modify, Synchronizer.onDb in Hr.
  cbn [Synchronizer.db Synchronizer.set_calls] in Hr.
  destruct (m (Synchronizer.db s0)). injection Hr as <- <-. now split. }
assert (Hlog : forall e,
          respects
            (fun s s' : Synchronizer.t =>
               Synchronizer.noteProcessors s' = Synchronizer.noteProcessors s
               /\ Synchronizer.noteProcessorsToCatchUp s'
                  = Synchronizer.noteProcessorsToCatchUp s)
            (Synchronizer.logEntry e)).
{ intros e s0 o0 s0' [= <- <-]. now split. }
clear Hrun s o s'.
unfold Synchronizer.reprocessDeferredNotesForContract.
apply respects_bind; [exact Hpre | apply Hdb | intros ?].
apply respects_bind; [exact Hpre | now apply respects_get | intros ?].
apply respects_bind; [exact Hpre | | intros ?].
{ apply respects_mapST; [exact Hpre|]. intros ? ?.
  apply respects_bind; [exact Hpre | | intros ?; now apply respects_ret].
  apply respects_mapST; [exact Hpre|]. intros ? ?. now apply respects_lift. }
apply respects_bind; [exact Hpre | apply Hdb | intros ?].
apply respects_bind; [exact Hpre | apply Hdb | intros ?].
apply respects_bind; [exact Hpre | | intros ?].
{ apply respects_forEach; [exact Hpre|]. intros ? ?. apply Hlog. }
apply respects_forEach; [exact Hpre|]. intros entry ?.
apply respects_bind; [exact Hpre | | intros ?].
{ intros s0 o0 s0' Hr. apply findRelevantNullifiers_found in Hr. destruct Hr as [-> _].
  now split. }
apply respects_bind; [exact Hpre | apply Hdb | intros ?; now apply respects_ret].
Qed.

(** [addAccount] registers a key only when no equal key is registered. *)
Lemma addAccount_keeps_distinct publicKey keyStore startingBlock s :
  NoDup (registeredKeys s) ->
  NoDup (registeredKeys (Synchronizer.addAccount publicKey keyStore startingBlock s)).
Proof.
intros Hnd.
destruct (registered_dec publicKey
            (Synchronizer.noteProcessors s ++ Synchronizer.noteProcessorsToCatchUp s))
  as [Hr|Hfresh].
- now rewrite (addAccount_registered _ keyStore startingBlock _ Hr).
- rewrite (addAccount_fresh _ keyStore startingBlock _ Hfresh).
  unfold registeredKeys in *.
  cbn [Synchronizer.noteProcessors Synchronizer.noteProcessorsToCatchUp
       Synchronizer.set_noteProcessorsToCatchUp].
  rewrite app_assoc, map_app. cbn [map NoteProcessor.new NoteProcessor.publicKey].
  apply NoDup_app. split; [exact Hnd|]. split; [|apply NoDup_singleton].
  intros pk Hpk Hin. apply list_elem_of_singleton in Hin. subst pk.
  apply Hfresh. apply list_elem_of_In, in_map_iff in Hpk. destruct Hpk as (p & Hp & Hin).
  exists p. split; [exact Hin|]. rewrite Hp. apply Point_equals_refl.
Qed.

Lemma step_keeps_distinct op s :
  NoDup (registeredKeys s) -> NoDup (registeredKeys (step op s)).
Proof.
intros Hnd.
assert (Hperm : forall s', sameKeys s s' -> NoDup (registeredKeys s')).
{ intros s' Hs. unfold sameKeys in Hs. now rewrite <- Hs. }
destruct op as [w l r|w|fuel w l|w l|w l|stopped|pk ks sb|w a]; cbn [step].
- eapply Hperm, start_sameKeys, surjective_pairing.
- eapply Hperm, initialSync_sameKeys, surjective_pairing.
- eapply Hperm, sync_sameKeys, surjective_pairing.
- eapply Hperm, work_sameKeys, surjective_pairing.
- eapply Hperm, workNoteProcessorCatchUp_sameKeys, surjective_pairing.
- eapply Hperm, stop_sameKeys, surjective_pairing.
- now apply addAccount_keeps_distinct.
- eapply Hperm, reprocess_sameKeys, surjective_pairing.
Qed.

Lemma run_keeps_distinct ops s :
  NoDup (registeredKeys s) -> NoDup (registeredKeys (run ops s)).
Proof.
revert s. induction ops as [|op ops IH]; intros s Hnd; [exact Hnd|].
cbn [run fold_left]. apply (IH (step op s)). now apply step_keeps_distinct.
Qed.

(** Whatever is done to a new synchronizer, the registered public keys stay
    pairwise distinct; so do the keys [getSyncStatus] prints them under, if
    printing a key loses nothing. *)
Lemma reachable_keys_distinct ops db :
  (forall p q : Point, Point_toString p = Point_toString q -> p = q) ->
  let s := run ops (Synchronizer.new db) in
  NoDup (map processorKey
           (Synchronizer.noteProcessors s ++ Synchronizer.noteProcessorsToCatchUp s)).
Proof.
intros Hinj s.
assert (Hkeys : NoDup (registeredKeys s)).
{ subst s. apply run_keeps_distinct. apply NoDup_nil_2. }
unfold registeredKeys in Hkeys.
assert (Hmap : map processorKey
                 (Synchronizer.noteProcessors s ++ Synchronizer.noteProcessorsToCatchUp s)
               = Point_toString <$> (map NoteProcessor.publicKey
                   (Synchronizer.noteProcessors s ++ Synchronizer.noteProcessorsToCatchUp s))).
{ change (map NoteProcessor.publicKey ?l) with (NoteProcessor.publicKey <$> l).
  rewrite <- list_fmap_compose. reflexivity. }
rewrite Hmap. apply NoDup_fmap_2; [|exact Hkeys].
intros p q. apply Hinj.
Qed.
End RegisteredKeys.

(** * Further properties of the code *)

(** ** DeferredNoteDao: reading from a longer buffer, distinctness, size *)

Section DaoCodec.
Context {FP : FieldParams} {NC : NoteClass}.
Variable Note_valid : Note -> Prop.
Hypothesis Fr_MODULUS_fits : Fr_MODULUS <= 2 ^ 256.
Hypothesis Note_reads_back : reads_back Note Note_valid.

Lemma DeferredNoteDao_toBuffer_layout (d : DeferredNoteDao.t) :
  Z.of_nat (length (DeferredNoteDao.newCommitments d)) < 2 ^ 32 ->
  0 <= DeferredNoteDao.dataStartIndexForTx d < 2 ^ 32 ->
  DeferredNoteDao.toBuffer d = Ret (DeferredNoteDao_layout d).
Proof.
intros Hlen Hidx.
unfold DeferredNoteDao.toBuffer, DeferredNoteDao_layout, Vector_toBuffer.
cbn [serializeToBuffer serializeToBufferArray].
rewrite !numToUInt32BE_u32 by lia.
now rewrite app_nil_r.
Qed.

Lemma DeferredNoteDao_read_layout (d : DeferredNoteDao.t) (rest : Buffer) :
  DeferredNoteDao_valid Note_valid d ->
  DeferredNoteDao.read (DeferredNoteDao_layout d ++ rest) = (Ret d, rest).
Proof.
intros (Hpk & Hn & Hca & Hss & Hth & Htn & Hnc & Hlen & Hidx).
destruct d as [pk n ca ss th tn nc idx]; cbn [DeferredNoteDao.publicKey
  DeferredNoteDao.note DeferredNoteDao.contractAddress DeferredNoteDao.storageSlot
  DeferredNoteDao.txHash DeferredNoteDao.txNullifier DeferredNoteDao.newCommitments
  DeferredNoteDao.dataStartIndexForTx] in *.
unfold DeferredNoteDao.read, DeferredNoteDao_layout, readObject.
cbn [DeferredNoteDao.publicKey
  DeferredNoteDao.note DeferredNoteDao.contractAddress DeferredNoteDao.storageSlot
  DeferredNoteDao.txHash DeferredNoteDao.txNullifier DeferredNoteDao.newCommitments
  DeferredNoteDao.dataStartIndexForTx].
rewrite <- !app_assoc.
erewrite bind_ret_l by (apply (Point_reads_back Fr_MODULUS_fits), Hpk).
erewrite bind_ret_l by (apply Note_reads_back, Hn).
erewrite bind_ret_l by (apply (AztecAddress_reads_back Fr_MODULUS_fits), Hca).
erewrite bind_ret_l by (apply (Fr_reads_back Fr_MODULUS_fits), Hss).
erewrite bind_ret_l by (apply TxHash_reads_back, Hth).
erewrite bind_ret_l by (apply (Fr_reads_back Fr_MODULUS_fits), Htn).
rewrite (app_assoc (toBufferBE (Z.of_nat (length nc)) 4)).
erewrite bind_ret_l
  by (apply readVector_reads_back with (valid := Fr_valid);
      [apply (Fr_reads_back Fr_MODULUS_fits) | exact Hnc | exact Hlen]).
erewrite bind_ret_l by (apply readNumber_u32, Hidx).
reflexivity.
Qed.

(** X1. Reading a well-formed [DeferredNoteDao] from a reader consumes
    exactly its own bytes and leaves the rest of the buffer to the reader;
    [fromBuffer] on a buffer that continues after the object returns the
    object and ignores what follows. *)
Theorem DeferredNoteDao_read_leaves_rest (d : DeferredNoteDao.t) (rest : Buffer) :
  DeferredNoteDao_valid Note_valid d ->
  DeferredNoteDao.read (DeferredNoteDao_layout d ++ rest) = (Ret d, rest)
  /\ DeferredNoteDao.fromBuffer (DeferredNoteDao_layout d ++ rest) = Ret d.
Proof.
intros Hd. pose proof (DeferredNoteDao_read_layout d rest Hd) as Hread.
split; [exact Hread|]. unfold DeferredNoteDao.fromBuffer. now rewrite Hread.
Qed.

(** X2. Two well-formed [DeferredNoteDao]s with the same serialization are
    equal. *)
Theorem DeferredNoteDao_toBuffer_injective (d1 d2 : DeferredNoteDao.t) buf :
  DeferredNoteDao_valid Note_valid d1 ->
  DeferredNoteDao_valid Note_valid d2 ->
  DeferredNoteDao.toBuffer d1 = Ret buf ->
  DeferredNoteDao.toBuffer d2 = Ret buf ->
  d1 = d2.
Proof.
intros H1 H2 Hb1 Hb2.
pose proof (DeferredNoteDao_read_layout d1 [] H1) as R1.
pose proof (DeferredNoteDao_read_layout d2 [] H2) as R2.
destruct H1 as (_ & _ & _ & _ & _ & _ & _ & Hl1 & Hi1).
destruct H2 as (_ & _ & _ & _ & _ & _ & _ & Hl2 & Hi2).
rewrite (DeferredNoteDao_toBuffer_layout d1 Hl1 Hi1) in Hb1.
rewrite (DeferredNoteDao_toBuffer_layout d2 Hl2 Hi2) in Hb2.
injection Hb1 as Hb1. injection Hb2 as Hb2.
rewrite Hb1 in R1. rewrite Hb2 in R2. rewrite R1 in R2. now injection R2.
Qed.
End DaoCodec.

Lemma length_toBuffer_Fr `{FieldParams} (f : Fr) : length (toBuffer f) = 32%nat.
Proof. apply length_toBufferBE. Qed.

Lemma length_concat_Fr `{FieldParams} (fields : list Fr) :
  length (concat (map toBuffer fields)) = (32 * length fields)%nat.
Proof.
induction fields as [|f fs IH]; [reflexivity|].
cbn [map concat length]. rewrite length_app, IH, length_toBuffer_Fr. lia.
Qed.

Lemma DeferredNoteDao_toBuffer_cases {FP : FieldParams} {NC : NoteClass}
    (d : DeferredNoteDao.t) :
  DeferredNoteDao.toBuffer d = Ret (DeferredNoteDao_layout d)
  \/ exists e, DeferredNoteDao.toBuffer d = Throw e.
Proof.
unfold DeferredNoteDao.toBuffer, Vector_toBuffer.
cbn [serializeToBuffer serializeToBufferArray].
destruct (numToUInt32BE (Z.of_nat (length (DeferredNoteDao.newCommitments d))))
  as [len|e] eqn:Hlen; [|right; now exists e].
destruct (numToUInt32BE (DeferredNoteDao.dataStartIndexForTx d)) as [idx|e] eqn:Hidx;
  [|right; now exists e].
left. unfold numToUInt32BE in Hlen, Hidx.
destruct (_ && _) in Hlen; [injection Hlen as <- | discriminate Hlen].
destruct (_ && _) in Hidx; [injection Hidx as <- | discriminate Hidx].
unfold DeferredNoteDao_layout. now rewrite app_nil_r.
Qed.

(** X3. Whenever [toBuffer] returns, the buffer is 200 bytes (public key,
    address, slot, hash, nullifier, the two u32) plus the note's own bytes
    plus 32 bytes per commitment. *)
Theorem DeferredNoteDao_toBuffer_length {FP : FieldParams} {NC : NoteClass}
    (d : DeferredNoteDao.t) buf :
  DeferredNoteDao.toBuffer d = Ret buf ->
  length (buffer (DeferredNoteDao.txHash d)) = 32%nat ->
  length buf
  = (200 + length (toBuffer (DeferredNoteDao.note d))
     + 32 * length (DeferredNoteDao.newCommitments d))%nat.
Proof.
intros Hbuf Hhash.
destruct (DeferredNoteDao_toBuffer_cases d) as [Hlayout|[e He]]; [|congruence].
rewrite Hlayout in Hbuf. injection Hbuf as <-.
unfold DeferredNoteDao_layout.
rewrite !length_app, length_concat_Fr, !length_toBufferBE, !length_toBuffer_Fr.
change (length (toBuffer (DeferredNoteDao.publicKey d)))
  with (length (toBuffer (x (DeferredNoteDao.publicKey d))
                ++ toBuffer (y (DeferredNoteDao.publicKey d)))).
change (length (toBuffer (DeferredNoteDao.contractAddress d)))
  with (length (toBuffer (asField (DeferredNoteDao.contractAddress d)))).
change (length (toBuffer (DeferredNoteDao.txHash d)))
  with (length (buffer (DeferredNoteDao.txHash d))).
rewrite length_app, !length_toBuffer_Fr, Hhash. lia.
Qed.

Lemma DeferredNoteDao_read_leaves_rest_witness :
  @DeferredNoteDao.read bn254 vectorNotes
    (@DeferredNoteDao_layout bn254 vectorNotes sampleDeferredNote ++ [x00; x01])
  = (Ret sampleDeferredNote, [x00; x01])
  /\ @DeferredNoteDao.fromBuffer bn254 vectorNotes
       (@DeferredNoteDao_layout bn254 vectorNotes sampleDeferredNote ++ [x00; x01])
     = Ret sampleDeferredNote.
Proof.
apply (@DeferredNoteDao_read_leaves_rest bn254 vectorNotes (@VectorNote_valid bn254)).
- unfold Fr_MODULUS, bn254. lia.
- exact VectorNote_reads_back.
- exact sampleDeferredNote_valid.
Defined.

Lemma DeferredNoteDao_toBuffer_injective_witness :
  sampleDeferredNote = sampleDeferredNote.
Proof.
apply (@DeferredNoteDao_toBuffer_injective bn254 vectorNotes (@VectorNote_valid bn254))
  with (buf := @DeferredNoteDao_layout bn254 vectorNotes sampleDeferredNote).
- unfold Fr_MODULUS, bn254. lia.
- exact VectorNote_reads_back.
- exact sampleDeferredNote_valid.
- exact sampleDeferredNote_valid.
- reflexivity.
- reflexivity.
Defined.

Lemma DeferredNoteDao_toBuffer_length_witness :
  length (@DeferredNoteDao_layout bn254 vectorNotes sampleDeferredNote) = 332%nat.
Proof.
apply (@DeferredNoteDao_toBuffer_length bn254 vectorNotes sampleDeferredNote).
- reflexivity.
- reflexivity.
Defined.

(** ** start, initialSync, stop and sync *)

#[global] Instance sameRunning_PreOrder `{NoteClass} `{Imports} : PreOrder sameRunning.
Proof.
split; [intros s; reflexivity | intros s1 s2 s3 H1 H2; unfold sameRunning in *; congruence].
Qed.

#[global] Instance sameProcessors_PreOrder `{NoteClass} `{Imports} : PreOrder sameProcessors.
Proof.
split; [intros s; now split|].
intros s1 s2 s3 [H1 H2] [H3 H4]. split; congruence.
Qed.

#[global] Instance sameControl_PreOrder `{NoteClass} `{Imports} : PreOrder sameControl.
Proof.
split; [intros s; repeat split|].
intros s1 s2 s3 (H1 & H2 & H3) (H4 & H5 & H6). repeat split; congruence.
Qed.

#[global] Instance sameDeferred_PreOrder `{NoteClass} `{Imports} : PreOrder sameDeferred.
Proof.
split; [intros s; reflexivity | intros s1 s2 s3 H1 H2; unfold sameDeferred in *; congruence].
Qed.

Section Lifecycle.
Context {NC : NoteClass} {IM : Imports}.
Implicit Types (s : Synchronizer.t) (w : World).

Lemma initialSync_sameRunning w : respects sameRunning (Synchronizer.initialSync w).
Proof.
unfold Synchronizer.initialSync.
r_bind; [r_leaf|]. r_bind; [r_leaf|]. r_bind; [r_modify; reflexivity|].
unfold Synchronizer.db_setBlockData. r_bind; [r_modify; reflexivity|].
intros s o s' Hrun. unfold Synchronizer.onDb in Hrun.
destruct (PxeDatabase.setBlockData _ _ _ _). injection Hrun as <- <-. reflexivity.
Qed.

Lemma start_running w limit retryInterval s :
  Synchronizer.running (snd (Synchronizer.start w limit retryInterval s)) = true.
Proof.
unfold Synchronizer.start, bind at 1, get.
destruct (Synchronizer.running s) eqn:Hrunning; [exact Hrunning|].
unfold bind at 1, modify.
assert (Hrest : respects sameRunning
          (exec Synchronizer.initialSync w;
           exec Synchronizer.logEntry (Synchronizer.Info "Initial sync complete");
           exec modify (Synchronizer.set_runningPromise
                          (Some (Synchronizer.mkRunningPromise limit retryInterval true)));
           Synchronizer.logEntry (Synchronizer.Info "Started loop"))).
{ r_bind; [apply initialSync_sameRunning|]. r_bind; [r_modify; reflexivity|].
  r_bind; r_modify; reflexivity. }
specialize (Hrest (Synchronizer.set_running true s) _ _ (surjective_pairing _)).
exact Hrest.
Qed.

Lemma start_when_running w limit retryInterval s :
  Synchronizer.running s = true ->
  Synchronizer.start w limit retryInterval s = (Ret tt, s).
Proof. intros Hrunning. unfold Synchronizer.start, bind, get. now rewrite Hrunning. Qed.

(** X4. [start] is idempotent: once [start] has been called, even if its
    initial sync raised, the synchronizer counts as running and a further
    [start] returns at once without doing anything. *)
Theorem start_twice_is_start_once w1 limit1 retryInterval1 w2 limit2 retryInterval2 s :
  let s1 := snd (Synchronizer.start w1 limit1 retryInterval1 s) in
  Synchronizer.running s1 = true
  /\ Synchronizer.start w2 limit2 retryInterval2 s1 = (Ret tt, s1).
Proof.
intros s1. subst s1. split; [apply start_running|].
apply start_when_running, start_running.
Qed.

Lemma initialSync_run w s :
  Synchronizer.initialSync w s
  = match AztecNode.getBlockNumber (node w) with
    | Throw e => (Throw e, s)
    | Ret latest =>
        match AztecNode.getBlockHeader (node w) with
        | Throw e => (Throw e, s)
        | Ret header =>
            Synchronizer.db_setBlockData w latest header
              (Synchronizer.set_initialSyncBlockNumber latest s)
        end
    end.
Proof.
unfold Synchronizer.initialSync, bind at 1, lift at 1.
destruct (AztecNode.getBlockNumber (node w)); [|reflexivity].
unfold bind at 1, lift at 1.
destruct (AztecNode.getBlockHeader (node w)); reflexivity.
Qed.

(** X5. When [initialSync] returns, the synchronizer's block number is the
    node's latest block number, the database holds that number and the
    node's header, and [isGlobalStateSynchronized], asked of the same node,
    answers [true]. *)
Theorem initialSync_reaches_node w s :
  fst (Synchronizer.initialSync w s) = Ret tt ->
  let s' := snd (Synchronizer.initialSync w s) in
  exists latest header,
    AztecNode.getBlockNumber (node w) = Ret latest
    /\ AztecNode.getBlockHeader (node w) = Ret header
    /\ Synchronizer.initialSyncBlockNumber s' = latest
    /\ PxeDatabase.blockNumber (Synchronizer.db s') = Some latest
    /\ PxeDatabase.blockHeader (Synchronizer.db s') = Some header
    /\ Synchronizer.getSynchedBlockNumber s' = latest
    /\ Synchronizer.isGlobalStateSynchronized w s' = (Ret true, s').
Proof.
intros Hret s'. subst s'. rewrite initialSync_run in *.
destruct (AztecNode.getBlockNumber (node w)) as [latest|e] eqn:Hlatest; [|discriminate Hret].
destruct (AztecNode.getBlockHeader (node w)) as [header|e] eqn:Hheader; [|discriminate Hret].
rewrite db_setBlockData_run in *. cbv zeta in *.
cbn [Synchronizer.db Synchronizer.set_initialSyncBlockNumber] in *.
destruct (faults w _ (Synchronizer.db s)); [discriminate Hret|].
exists latest, header. cbn. repeat split.
unfold Synchronizer.isGlobalStateSynchronized, bind, lift, get, ret.
rewrite Hlatest. cbn. now rewrite Z.leb_refl.
Qed.

(** X6. How [initialSync] fails.  When either node call raises, the error
    reaches the caller and the synchronizer is untouched.  When the store
    refuses the header, the error reaches the caller and the database is as
    before, but [initialSyncBlockNumber] has already been set to the node's
    latest block number. *)
Theorem initialSync_failures w s :
  (forall e,
      AztecNode.getBlockNumber (node w) = Throw e
      \/ (exists latest, AztecNode.getBlockNumber (node w) = Ret latest
                         /\ AztecNode.getBlockHeader (node w) = Throw e) ->
      Synchronizer.initialSync w s = (Throw e, s))
  /\ (forall latest header e,
        AztecNode.getBlockNumber (node w) = Ret latest ->
        AztecNode.getBlockHeader (node w) = Ret header ->
        faults w (PxeDatabase.SetBlockData latest header) (Synchronizer.db s) = Some e ->
        fst (Synchronizer.initialSync w s) = Throw e
        /\ Synchronizer.db (snd (Synchronizer.initialSync w s)) = Synchronizer.db s
        /\ Synchronizer.initialSyncBlockNumber (snd (Synchronizer.initialSync w s)) = latest).
Proof.
split.
- intros e [Hn|(latest & Hn & Hh)]; rewrite initialSync_run, Hn; [reflexivity|].
  now rewrite Hh.
- intros latest header e Hn Hh Hfault.
  rewrite initialSync_run, Hn, Hh, db_setBlockData_run. cbv zeta.
  cbn [Synchronizer.db Synchronizer.set_initialSyncBlockNumber]. rewrite Hfault.
  repeat split.
Qed.



Lemma work_idle w limit s :
  AztecNode.getLogs (node w) (Synchronizer.getSynchedBlockNumber s + 1) limit ENCRYPTED = Ret [] ->
  Synchronizer.work w limit s = (Ret false, s).
Proof.
intros Henc. rewrite work_run. unfold Synchronizer.work_try, bind, lift. now rewrite Henc.
Qed.

(** X8. An idle tick: when the synchronizer is running, no processor is
    catching up and the node has no encrypted logs after the synchronizer's
    block, [sync] calls [work] once, gets [false] and returns, leaving the
    synchronizer exactly as it was, however many iterations it is allowed. *)
Theorem sync_idle fuel w limit s :
  Synchronizer.running s = true ->
  Synchronizer.noteProcessorsToCatchUp s = [] ->
  AztecNode.getLogs (node w) (Synchronizer.getSynchedBlockNumber s + 1) limit ENCRYPTED = Ret [] ->
  Synchronizer.sync fuel w limit s = (Ret tt, s).
Proof.
intros Hrunning Hnone Henc. destruct fuel as [|fuel]; [reflexivity|].
cbn [Synchronizer.sync]. unfold bind at 1, get. rewrite Hrunning, Hnone. cbn [length Nat.ltb Nat.leb].
unfold bind. rewrite (work_idle w limit s Henc). reflexivity.
Qed.
End Lifecycle.

Lemma initialSync_reaches_node_witness :
  let w := quietWorld (servingNode 3) in
  let s := @Synchronizer.new vectorNotes sampleImports PxeDatabase.empty in
  let s' := snd (Synchronizer.initialSync w s) in
  exists latest header,
    AztecNode.getBlockNumber (node w) = Ret latest
    /\ AztecNode.getBlockHeader (node w) = Ret header
    /\ Synchronizer.initialSyncBlockNumber s' = latest
    /\ PxeDatabase.blockNumber (Synchronizer.db s') = Some latest
    /\ PxeDatabase.blockHeader (Synchronizer.db s') = Some header
    /\ Synchronizer.getSynchedBlockNumber s' = latest
    /\ Synchronizer.isGlobalStateSynchronized w s' = (Ret true, s').
Proof.
intros w s.
apply (initialSync_reaches_node w s). reflexivity.
Defined.

Lemma sync_idle_witness :
  Synchronizer.sync 7 (quietWorld emptyNode) 1 (sampleSynchronizer 5 [sampleProcessor 1 5] [])
  = (Ret tt, sampleSynchronizer 5 [sampleProcessor 1 5] []).
Proof.
apply (sync_idle 7 (quietWorld emptyNode) 1 (sampleSynchronizer 5 [sampleProcessor 1 5] []));
  reflexivity.
Defined.

(** ** work and workNoteProcessorCatchUp: edges *)

Section WorkEdges.
Context {NC : NoteClass} {IM : Imports}.
Implicit Types (s : Synchronizer.t) (w : World).

Lemma sync_runs_catchUp fuel w limit s :
  Synchronizer.running s = true ->
  Synchronizer.noteProcessorsToCatchUp s <> [] ->
  Synchronizer.sync (S fuel) w limit s
  = (do moreWork <- Synchronizer.workNoteProcessorCatchUp w limit;
     if (moreWork : bool) then Synchronizer.sync fuel w limit else ret tt) s.
Proof.
intros Hrunning Hsome. cbn [Synchronizer.sync]. unfold bind at 1, get. rewrite Hrunning.
destruct (Synchronizer.noteProcessorsToCatchUp s) as [|p rest] eqn:Hc; [congruence|].
reflexivity.
Qed.

(** X9. The two errors of [workNoteProcessorCatchUp] that are not caught.
    Called with an empty catch-up list it raises a [TypeError]; called with a
    lagging head and a limit below one it raises the unexpected-limit error.
    Both reach the caller with the synchronizer untouched, and the second
    also escapes from [sync]. *)
Theorem catchUp_uncaught_errors w limit s :
  (Synchronizer.noteProcessorsToCatchUp s = [] ->
   exists msg, Synchronizer.workNoteProcessorCatchUp w limit s = (Throw (TypeError msg), s))
  /\ (forall p rest,
        Synchronizer.noteProcessorsToCatchUp s = p :: rest ->
        NoteProcessor.syncedToBlock p < Synchronizer.getSynchedBlockNumber s ->
        limit < 1 ->
        Synchronizer.workNoteProcessorCatchUp w limit s
        = (Throw (JsError "Unexpected limit for note processor catch up"), s)
        /\ (Synchronizer.running s = true ->
            forall fuel,
              Synchronizer.sync (S fuel) w limit s
              = (Throw (JsError "Unexpected limit for note processor catch up"), s))).
Proof.
split.
- intros Hnone. unfold Synchronizer.workNoteProcessorCatchUp, bind, get. rewrite Hnone.
  eexists. reflexivity.
- intros p rest Hhead Hlag Hlimit.
  assert (Hraise : Synchronizer.workNoteProcessorCatchUp w limit s
                   = (Throw (JsError "Unexpected limit for note processor catch up"), s)).
  { unfold Synchronizer.workNoteProcessorCatchUp, bind, get. rewrite Hhead.
    cbn [lookup list_lookup].
    destruct (Z.geb_spec (NoteProcessor.syncedToBlock p) (Synchronizer.getSynchedBlockNumber s));
      [lia|].
    destruct (Z.ltb_spec (Z.min limit (Synchronizer.getSynchedBlockNumber s
                                       - (NoteProcessor.syncedToBlock p + 1) + 1)) 1);
      [reflexivity | lia]. }
  split; [exact Hraise|]. intros Hrunning fuel.
  rewrite sync_runs_catchUp by (rewrite ?Hhead; congruence).
  unfold bind. now rewrite Hraise.
Qed.

(** X10. [work] with nothing to do: when the node answers any of the three
    fetches with an empty list, [work] returns [false] and the synchronizer
    is exactly as before; in particular nothing is logged and a missing list
    of unencrypted logs alone stops the batch. *)
Theorem work_empty_fetch_is_silent w limit s :
  let from := Synchronizer.getSynchedBlockNumber s + 1 in
  AztecNode.getLogs (node w) from limit ENCRYPTED = Ret []
  \/ (exists enc,
        AztecNode.getLogs (node w) from limit ENCRYPTED = Ret enc
        /\ (AztecNode.getLogs (node w) from limit UNENCRYPTED = Ret []
            \/ exists unenc,
                 AztecNode.getLogs (node w) from limit UNENCRYPTED = Ret unenc
                 /\ AztecNode.getBlocks (node w) from (Z.of_nat (length enc)) = Ret [])) ->
  Synchronizer.work w limit s = (Ret false, s).
Proof.
intros from Hempty. rewrite work_run. fold from.
assert (Htry : Synchronizer.work_try w from limit s = (Ret false, s)).
{ unfold Synchronizer.work_try, bind, lift.
  destruct Hempty as [Henc|(enc & Henc & [Hunenc|(unenc & Hunenc & Hblocks)])]; rewrite Henc;
    [reflexivity| |].
  - destruct enc; [reflexivity|]. cbn [Synchronizer.isEmpty]. now rewrite Hunenc.
  - destruct enc; [reflexivity|]. cbn [Synchronizer.isEmpty]. rewrite Hunenc.
    destruct unenc; [reflexivity|]. cbn [Synchronizer.isEmpty]. now rewrite Hblocks. }
now rewrite Htry.
Qed.

Lemma keptContexts_none from blocks :
  (forall b, In b blocks -> L2Block.number b < from) -> keptContexts from blocks = [].
Proof.
intros Hall. unfold keptContexts.
induction blocks as [|b bs IH]; [reflexivity|].
cbn [List.filter].
destruct (Z.leb_spec from (L2Block.number b)) as [Hge|_].
- specialize (Hall b (or_introl eq_refl)). lia.
- apply IH. intros b' Hb'. apply Hall. now right.
Qed.

Lemma attachedList_numbers blocks enc unenc a :
  In a (attachedList blocks enc unenc) ->
  exists b, In b blocks /\ L2Block.number a = L2Block.number b.
Proof.
intros Ha. apply list_elem_of_In, list_elem_of_lookup in Ha. destruct Ha as [i Ha].
apply attachedList_lookup in Ha. destruct Ha as (b & e & u & Hb & _ & _ & ->).
exists b. split; [|reflexivity].
apply list_elem_of_In, list_elem_of_lookup. now exists i.
Qed.

(** X11. Stale blocks: when the node answers with blocks that are all
    numbered below [from], every one of them is dropped, reading the last
    block context fails, and [work] logs that [TypeError] and returns
    [false]; the database, the processors and the call record are as before
    (no header is stored, no processor is called). *)
Theorem work_drops_stale_blocks w limit s enc unenc blocks :
  let from := Synchronizer.getSynchedBlockNumber s + 1 in
  AztecNode.getLogs (node w) from limit ENCRYPTED = Ret enc ->
  AztecNode.getLogs (node w) from limit UNENCRYPTED = Ret unenc ->
  AztecNode.getBlocks (node w) from (Z.of_nat (length enc)) = Ret blocks ->
  (0 < length blocks <= length enc)%nat ->
  (length blocks <= length unenc)%nat ->
  (forall b, In b blocks -> L2Block.number b < from) ->
  exists msg,
    Synchronizer.work w limit s
    = (Ret false,
       Synchronizer.set_log
         (Synchronizer.log s
          ++ [Synchronizer.LogError "Error in synchronizer work" (TypeError msg)]) s).
Proof.
intros from Henc Hunenc Hblocks Hlen1 Hlen2 Hstale.
rewrite work_run. fold from.
rewrite (work_try_fetched w from limit s enc unenc blocks Henc Hunenc Hblocks Hlen1 Hlen2).
rewrite keptContexts_none.
- unfold work_tail, bind. cbn. eexists. reflexivity.
- intros a Ha. apply attachedList_numbers in Ha. destruct Ha as (b & Hb & ->).
  now apply Hstale.
Qed.
End WorkEdges.

Section WorkEffects.
Context {NC : NoteClass} {IM : Imports}.
Implicit Types (s : Synchronizer.t) (w : World).

Lemma headerOfBlock_withLogs (b : L2Block.t) e u :
  headerOfBlock (withLogs b e u) = headerOfBlock b.
Proof. reflexivity. Qed.

Lemma last_attachedList blocks enc unenc :
  (0 < length blocks <= length enc)%nat ->
  (length blocks <= length unenc)%nat ->
  exists b e u,
    last blocks = Some b
    /\ last (attachedList blocks enc unenc) = Some (withLogs b e u).
Proof.
intros Hlen1 Hlen2.
pose proof (attachedList_length blocks enc unenc ltac:(lia) Hlen2) as Hla.
destruct (last (attachedList blocks enc unenc)) as [a|] eqn:Hlast.
2:{ apply last_None in Hlast. rewrite Hlast in Hla. cbn in Hla. lia. }
rewrite last_lookup, Hla in Hlast.
apply attachedList_lookup in Hlast. destruct Hlast as (b & e & u & Hb & _ & _ & ->).
exists b, e, u. split; [|reflexivity]. now rewrite last_lookup.
Qed.

(** X12. A batch moves the cursor by its length.  When the node answers with
    [n >= 1] blocks numbered [from], [from + 1], ... (and at least as many
    bundles of each kind), the last of them is not older than the initial
    sync and the store accepts the header, then after [work] the database
    holds block number [from + n - 1] with the header of the last block, and
    the next [from] is [from + n], whether or not a processor failed
    afterwards. *)
Theorem work_advances_by_batch w limit s enc unenc blocks :
  let from := Synchronizer.getSynchedBlockNumber s + 1 in
  let n := Z.of_nat (length blocks) in
  AztecNode.getLogs (node w) from limit ENCRYPTED = Ret enc ->
  AztecNode.getLogs (node w) from limit UNENCRYPTED = Ret unenc ->
  AztecNode.getBlocks (node w) from (Z.of_nat (length enc)) = Ret blocks ->
  (0 < length blocks <= length enc)%nat ->
  (length blocks <= length unenc)%nat ->
  (forall i b, blocks !! i = Some b -> L2Block.number b = from + Z.of_nat i) ->
  Synchronizer.initialSyncBlockNumber s <= from + n - 1 ->
  (forall h, faults w (PxeDatabase.SetBlockData (from + n - 1) h) (Synchronizer.db s) = None) ->
  let s' := snd (Synchronizer.work w limit s) in
  PxeDatabase.blockNumber (Synchronizer.db s') = Some (from + n - 1)
  /\ (exists b, last blocks = Some b
                /\ PxeDatabase.blockHeader (Synchronizer.db s') = Some (headerOfBlock b))
  /\ Synchronizer.getSynchedBlockNumber s' + 1 = from + n.
Proof.
intros from n Henc Hunenc Hblocks Hlen1 Hlen2 Hnumbers Hinit Haccept s'.
assert (Hkept : keptContexts from
                  (attachedList blocks (take (length blocks) enc) (take (length blocks) unenc))
                = map L2BlockContext.mk
                    (attachedList blocks (take (length blocks) enc)
                       (take (length blocks) unenc))).
{ apply keptContexts_all. intros a Ha.
  apply list_elem_of_In, list_elem_of_lookup in Ha. destruct Ha as [i Ha].
  apply attachedList_lookup in Ha. destruct Ha as (b & e & u & Hb & _ & _ & ->).
  cbn. rewrite (Hnumbers i b Hb). lia. }
destruct (last_attachedList blocks (take (length blocks) enc) (take (length blocks) unenc))
  as (b & e & u & Hlastb & Hlasta);
  [rewrite length_take; lia | rewrite length_take; lia |].
assert (Hnum : L2Block.number b = from + n - 1).
{ rewrite last_lookup in Hlastb. rewrite (Hnumbers _ b Hlastb). subst n. lia. }
subst s'. rewrite work_run. fold from.
rewrite (work_try_fetched w from limit s enc unenc blocks Henc Hunenc Hblocks Hlen1 Hlen2), Hkept.
destruct (work_tail w _ _ s) as [o s1] eqn:Htail.
apply work_tail_cases in Htail. cbv zeta in Htail.
rewrite fmap_last, Hlasta in Htail. cbn [fmap option_fmap option_map L2BlockContext.block] in Htail.
change (L2Block.number (withLogs b e u)) with (L2Block.number b) in Htail.
rewrite headerOfBlock_withLogs, Hnum in Htail.
destruct (Z.ltb_spec (from + n - 1) (Synchronizer.initialSyncBlockNumber s)); [lia|].
rewrite Haccept in Htail. destruct Htail as (j & _ & _ & _ & Hn & Hh & _).
assert (Hgoal : PxeDatabase.blockNumber (Synchronizer.db s1) = Some (from + n - 1)
                /\ (exists b0, last blocks = Some b0
                               /\ PxeDatabase.blockHeader (Synchronizer.db s1)
                                  = Some (headerOfBlock b0))
                /\ Synchronizer.getSynchedBlockNumber s1 + 1 = from + n).
{ split; [exact Hn|]. split; [now exists b|].
  unfold Synchronizer.getSynchedBlockNumber, PxeDatabase.getBlockNumber. rewrite Hn. cbn. lia. }
destruct o; exact Hgoal.
Qed.

Lemma callProcess_active_sameControl w i ctxs logs :
  respects sameControl (Synchronizer.callProcess w (Synchronizer.InActive i) ctxs logs).
Proof.
intros s o s' Hrun. unfold Synchronizer.callProcess in Hrun.
cbn [Synchronizer.processorAt] in Hrun.
destruct (Synchronizer.noteProcessors s !! i) as [p|] eqn:Hp;
  [|injection Hrun as <- <-; reflexivity].
cbn [Synchronizer.db Synchronizer.set_calls] in Hrun.
destruct (NoteProcessor.process w ctxs logs (p, Synchronizer.db s)) as [o1 [p' d']] eqn:Hproc.
apply process_keeps in Hproc. destruct Hproc as (_ & _ & Hpk). cbn [fst snd] in Hpk.
injection Hrun as <- <-. repeat split. cbn.
change (map NoteProcessor.publicKey ?l) with (NoteProcessor.publicKey <$> l).
rewrite list_fmap_insert, Hpk. apply list_insert_id.
rewrite list_lookup_fmap, Hp. reflexivity.
Qed.

Lemma logEntry_sameControl e : respects sameControl (Synchronizer.logEntry e).
Proof. r_modify. repeat split. Qed.

Lemma db_setBlockData_sameControl w n h :
  respects sameControl (Synchronizer.db_setBlockData w n h).
Proof.
intros s o s' Hrun. rewrite db_setBlockData_run in Hrun. cbv zeta in Hrun.
destruct (faults w _ (Synchronizer.db s)); injection Hrun as <- <-; repeat split.
Qed.

(** X13. [work] feeds the active processors only.  Whatever the node and the
    store do, it leaves the catch-up list exactly as it was, keeps the
    active processors in place (same public keys, same order), and touches
    neither the running flag nor [initialSyncBlockNumber]. *)
Theorem work_leaves_catchUp_alone w limit s :
  let s' := snd (Synchronizer.work w limit s) in
  Synchronizer.noteProcessorsToCatchUp s' = Synchronizer.noteProcessorsToCatchUp s
  /\ map NoteProcessor.publicKey (Synchronizer.noteProcessors s')
     = map NoteProcessor.publicKey (Synchronizer.noteProcessors s)
  /\ Synchronizer.running s' = Synchronizer.running s
  /\ Synchronizer.initialSyncBlockNumber s' = Synchronizer.initialSyncBlockNumber s.
Proof.
intros s'.
assert (Hcontrol : respects sameControl (Synchronizer.work w limit)).
{ unfold Synchronizer.work. r_bind; [r_leaf|].
  r_try; [|r_bind; [apply logEntry_sameControl | r_leaf]].
  unfold Synchronizer.work_try.
  r_bind; [r_leaf|]. apply respects_if; [r_leaf|].
  r_bind; [r_leaf|]. apply respects_if; [r_leaf|].
  r_bind; [r_leaf|]. apply respects_if; [r_leaf|].
  r_bind.
  { intros s0 o0 s0' Hrun. pose proof (f_equal snd Hrun) as Hs.
    rewrite attachLogsFrom_state in Hs. cbn in Hs. subst s0'. reflexivity. }
  r_bind.
  { unfold Synchronizer.setBlockDataFromBlock. destruct (last _); [|r_leaf].
    r_bind; [r_leaf|]. apply respects_if; [r_leaf | apply db_setBlockData_sameControl]. }
  r_bind; [r_leaf|]. r_bind; [apply logEntry_sameControl|].
  r_bind; [|r_leaf]. r_forEach. apply callProcess_active_sameControl. }
destruct (Hcontrol s _ _ (surjective_pairing _)) as (Hr & Hc & Hk).
split; [exact Hc|]. split; [exact Hk|]. split; [exact Hr|].
subst s'. rewrite work_run.
destruct (Synchronizer.work_try w _ limit s) as [o s1] eqn:Htry.
apply work_try_cursor in Htry. destruct Htry as [Hi _].
destruct o; exact Hi.
Qed.
End WorkEffects.

Section CatchUpFeed.
Context {NC : NoteClass} {IM : Imports}.
Implicit Types (s : Synchronizer.t) (w : World) (p : NoteProcessor.t).



(** X15. An account added ahead of the synchronizer needs no catching up.
    When a fresh public key is added with [startingBlock - 1] at or beyond
    the synchronizer's block and nobody else is catching up, the next
    catch-up tick moves its processor to the active list without contacting
    the node or the store, and reports that more work may remain. *)
Theorem addAccount_ahead_is_promoted w limit publicKey keyStore startingBlock s :
  ~ registered publicKey
      (Synchronizer.noteProcessors s ++ Synchronizer.noteProcessorsToCatchUp s) ->
  Synchronizer.noteProcessorsToCatchUp s = [] ->
  Synchronizer.getSynchedBlockNumber s <= startingBlock - 1 ->
  exists s',
    Synchronizer.workNoteProcessorCatchUp w limit
      (Synchronizer.addAccount publicKey keyStore startingBlock s) = (Ret true, s')
    /\ Synchronizer.noteProcessors s'
       = Synchronizer.noteProcessors s ++ [NoteProcessor.new publicKey keyStore startingBlock]
    /\ Synchronizer.noteProcessorsToCatchUp s' = []
    /\ Synchronizer.db s' = Synchronizer.db s
    /\ Synchronizer.log s' = Synchronizer.log s
    /\ Synchronizer.calls s' = Synchronizer.calls s.
Proof.
intros Hfresh Hnone Hahead.
rewrite (addAccount_fresh publicKey keyStore startingBlock s Hfresh), Hnone.
eexists. split.
- apply workNoteProcessorCatchUp_synched with (rest := []); [reflexivity|].
  cbn. unfold Synchronizer.getSynchedBlockNumber in *. cbn. lia.
- cbn. repeat split.
Qed.
End CatchUpFeed.

(** ** The registered accounts *)

Section Accounts.
Context {NC : NoteClass} {IM : Imports}.
Implicit Types (s : Synchronizer.t) (w : World) (op : Op).

(** X16. No public key is ever registered twice: whatever operations are run
    on a new synchronizer, in whatever worlds, the public keys of the
    processors of its two lists are pairwise distinct. *)
Theorem registered_keys_never_repeat (ops : list Op) (db : PxeDatabase.t) :
  NoDup (registeredKeys (run ops (Synchronizer.new db))).
Proof. apply run_keeps_distinct. apply NoDup_nil_2. Qed.

Lemma step_keeps_registered op s publicKey :
  In publicKey (registeredKeys s) -> In publicKey (registeredKeys (step op s)).
Proof.
intros Hin.
assert (Hperm : forall s', sameKeys s s' -> In publicKey (registeredKeys s')).
{ intros s' Hs. unfold sameKeys in Hs. apply list_elem_of_In. rewrite <- Hs.
  now apply list_elem_of_In. }
destruct op as [w l r|w|fuel w l|w l|w l|stopped|pk ks sb|w a]; cbn [step].
- eapply Hperm, start_sameKeys, surjective_pairing.
- eapply Hperm, initialSync_sameKeys, surjective_pairing.
- eapply Hperm, sync_sameKeys, surjective_pairing.
- eapply Hperm, work_sameKeys, surjective_pairing.
- eapply Hperm, workNoteProcessorCatchUp_sameKeys, surjective_pairing.
- eapply Hperm, stop_sameKeys, surjective_pairing.
- destruct (registered_dec pk
              (Synchronizer.noteProcessors s ++ Synchronizer.noteProcessorsToCatchUp s))
    as [Hr|Hfresh].
  + now rewrite (addAccount_registered _ ks sb _ Hr).
  + rewrite (addAccount_fresh _ ks sb _ Hfresh). unfold registeredKeys in *.
    cbn [Synchronizer.noteProcessors Synchronizer.noteProcessorsToCatchUp
         Synchronizer.set_noteProcessorsToCatchUp].
    rewrite app_assoc, map_app. apply in_or_app. now left.
- eapply Hperm, reprocess_sameKeys, surjective_pairing.
Qed.

Lemma addAccount_registers publicKey keyStore startingBlock s :
  In publicKey (registeredKeys (Synchronizer.addAccount publicKey keyStore startingBlock s)).
Proof.
destruct (registered_dec publicKey
            (Synchronizer.noteProcessors s ++ Synchronizer.noteProcessorsToCatchUp s))
  as [Hr|Hfresh].
- rewrite (addAccount_registered _ keyStore startingBlock _ Hr).
  destruct Hr as (p & Hp & Heq). apply Point_equals_eq in Heq. subst publicKey.
  unfold registeredKeys. now apply in_map.
- rewrite (addAccount_fresh _ keyStore startingBlock _ Hfresh). unfold registeredKeys.
  cbn [Synchronizer.noteProcessors Synchronizer.noteProcessorsToCatchUp
       Synchronizer.set_noteProcessorsToCatchUp].
  rewrite app_assoc, map_app. apply in_or_app. right. now left.
Qed.

(** X17. A registered account is never dropped: once [addAccount] has been
    called for a public key, a processor for that key is in one of the two
    lists after any further sequence of operations. *)
Theorem account_stays_registered publicKey keyStore startingBlock (ops : list Op) s :
  In publicKey
     (registeredKeys (run ops (Synchronizer.addAccount publicKey keyStore startingBlock s))).
Proof.
generalize (addAccount_registers publicKey keyStore startingBlock s).
generalize (Synchronizer.addAccount publicKey keyStore startingBlock s) as s0.
induction ops as [|op ops IH]; intros s0 Hin; [exact Hin|].
cbn [run fold_left]. apply (IH (step op s0)). now apply step_keeps_registered.
Qed.
End Accounts.

(** ** Instances *)

Lemma initialSync_failures_witness :
  let s := @Synchronizer.new vectorNotes sampleImports PxeDatabase.empty in
  Synchronizer.initialSync (quietWorld downNode) s = (Throw (NodeError "unreachable"), s).
Proof.
intros s.
apply (proj1 (initialSync_failures (quietWorld downNode) s) (NodeError "unreachable")).
left. reflexivity.
Defined.

Lemma catchUp_uncaught_errors_witness :
  let s := sampleSynchronizer 5 [sampleProcessor 1 5] [] in
  exists msg,
    Synchronizer.workNoteProcessorCatchUp (quietWorld emptyNode) 1 s = (Throw (TypeError msg), s).
Proof.
intros s. apply (proj1 (catchUp_uncaught_errors (quietWorld emptyNode) 1 s)). reflexivity.
Defined.

Lemma work_empty_fetch_is_silent_witness :
  let s := sampleSynchronizer 5 [sampleProcessor 1 5] [] in
  Synchronizer.work (quietWorld emptyNode) 3 s = (Ret false, s).
Proof.
intros s. apply (work_empty_fetch_is_silent (quietWorld emptyNode) 3 s).
left. reflexivity.
Defined.

Lemma work_drops_stale_blocks_witness :
  let s := sampleSynchronizer 5 [sampleProcessor 1 5] [] in
  exists msg,
    Synchronizer.work (quietWorld staleNode) 3 s
    = (Ret false,
       Synchronizer.set_log
         (Synchronizer.log s
          ++ [Synchronizer.LogError "Error in synchronizer work" (TypeError msg)]) s).
Proof.
intros s.
apply (work_drops_stale_blocks (quietWorld staleNode) 3 s
         [sampleLogs 1] [sampleLogs 1] [sampleBlock 2]).
- reflexivity.
- reflexivity.
- reflexivity.
- cbn. lia.
- cbn. lia.
- intros b [<-|[]]. cbn. lia.
Defined.

Lemma work_advances_by_batch_witness :
  let w := quietWorld (servingNode 3) in
  let s := sampleSynchronizer 5 [sampleProcessor 1 5; sampleProcessor 3 5] [] in
  let s' := snd (Synchronizer.work w 5 s) in
  PxeDatabase.blockNumber (Synchronizer.db s') = Some 8
  /\ Synchronizer.getSynchedBlockNumber s' + 1 = 9.
Proof.
intros w s s'.
destruct (work_advances_by_batch w 5 s (map sampleLogs (seq 0 5)) (map sampleLogs (seq 0 5))
            [sampleBlock 6; sampleBlock 7; sampleBlock 8]) as (Hnumber & _ & Hnext).
- reflexivity.
- reflexivity.
- reflexivity.
- cbn. lia.
- cbn. lia.
- intros [|[|[|i]]] b Hb; cbn in Hb; try discriminate Hb; injection Hb as <-; reflexivity.
- cbn. lia.
- intros h. reflexivity.
- split; [exact Hnumber | exact Hnext].
Defined.


Lemma addAccount_ahead_is_promoted_witness :
  let s := sampleSynchronizer 5 [sampleProcessor 1 5] [] in
  exists s',
    Synchronizer.workNoteProcessorCatchUp (quietWorld emptyNode) 1
      (@Synchronizer.addAccount vectorNotes sampleImports (sampleKey 3) tt 9 s) = (Ret true, s')
    /\ Synchronizer.noteProcessors s'
       = [sampleProcessor 1 5; @NoteProcessor.new sampleImports (sampleKey 3) tt 9].
Proof.
intros s.
destruct (addAccount_ahead_is_promoted (quietWorld emptyNode) 1 (sampleKey 3) tt 9 s)
  as (s' & Hrun & Hactive & _).
- intros (p & Hin & Heq). cbn in Hin. destruct Hin as [<-|[]]. discriminate Heq.
- reflexivity.
- cbn. lia.
- exists s'. split; [exact Hrun | exact Hactive].
Defined.

(** ** reprocessDeferredNotesForContract *)

Section Reprocess.
Context {NC : NoteClass} {IM : Imports}.
Implicit Types (s : Synchronizer.t) (w : World).

Lemma reprocess_unfold w contractAddress :
  Synchronizer.reprocessDeferredNotesForContract w contractAddress
  = (do deferredNotes <- Synchronizer.db_getDeferredNotesByContract w contractAddress;
     do s <- get;
     do decoded <-
       decodeGroups w (Synchronizer.noteProcessors s)
         (map snd (groupByRef (txHashRef w) DeferredNoteDao.txHash deferredNotes));
     exec Synchronizer.db_removeDeferredNotesByContract w contractAddress;
     afterDecoding w (concat decoded)).
Proof. reflexivity. Qed.

Lemma db_call_run {A} w (c : Synchronizer.Call) (op : PxeDatabase.Op)
    (run : PxeDatabase.t -> A * PxeDatabase.t) s :
  (exec Synchronizer.record c; Synchronizer.onDb (PxeDatabase.atomically (faults w) op run)) s
  = let s1 := Synchronizer.set_calls (Synchronizer.calls s ++ [c]) s in
    match faults w op (Synchronizer.db s) with
    | Some e => (Throw e, s1)
    | None => (Ret (run (Synchronizer.db s)).1,
               Synchronizer.set_db (run (Synchronizer.db s)).2 s1)
    end.
Proof.
unfold bind, Synchronizer.record, modify, Synchronizer.onDb, PxeDatabase.atomically.
cbn [Synchronizer.db Synchronizer.set_calls].
destruct (faults w op (Synchronizer.db s)).
- destruct s; reflexivity.
- destruct (run (Synchronizer.db s)); reflexivity.
Qed.

Lemma decodeGroups_state w processors groups s :
  snd (decodeGroups w processors groups s) = s.
Proof.
assert (Hsame : respects eq (decodeGroups w processors groups)).
{ unfold decodeGroups. r_mapST. r_bind; [|r_leaf]. r_mapST. r_leaf. }
symmetry. eapply Hsame, surjective_pairing.
Qed.

Lemma reprocess_cases w contractAddress s :
  let ds := List.filter (PxeDatabase.ofContract contractAddress)
              (PxeDatabase.deferredNotes (Synchronizer.db s)) in
  let s1 := Synchronizer.set_calls
              (Synchronizer.calls s
               ++ [Synchronizer.CallDb (PxeDatabase.GetDeferredNotesByContract contractAddress)])
              s in
  let s2 := Synchronizer.set_calls
              (Synchronizer.calls s1
               ++ [Synchronizer.CallDb
                     (PxeDatabase.RemoveDeferredNotesByContract contractAddress)])
              s1 in
  let s3 := Synchronizer.set_db
              (PxeDatabase.mk (PxeDatabase.blockNumber (Synchronizer.db s))
                 (PxeDatabase.blockHeader (Synchronizer.db s))
                 (PxeDatabase.notes (Synchronizer.db s))
                 (otherContracts contractAddress
                    (PxeDatabase.deferredNotes (Synchronizer.db s))))
              s2 in
  Synchronizer.reprocessDeferredNotesForContract w contractAddress s
  = match faults w (PxeDatabase.GetDeferredNotesByContract contractAddress)
            (Synchronizer.db s) with
    | Some e => (Throw e, s1)
    | None =>
        match fst (decodeGroups w (Synchronizer.noteProcessors s)
                     (map snd (groupByRef (txHashRef w) DeferredNoteDao.txHash ds)) s1) with
        | Throw e => (Throw e, s1)
        | Ret decoded =>
            match faults w (PxeDatabase.RemoveDeferredNotesByContract contractAddress)
                    (Synchronizer.db s) with
            | Some e => (Throw e, s2)
            | None => afterDecoding w (concat decoded) s3
            end
        end
    end.
Proof.
intros ds s1 s2 s3. rewrite reprocess_unfold.
unfold bind at 1.
unfold Synchronizer.db_getDeferredNotesByContract at 1,
  PxeDatabase.getDeferredNotesByContract at 1.
rewrite db_call_run. cbv zeta. fold s1.
destruct (faults w (PxeDatabase.GetDeferredNotesByContract contractAddress)
            (Synchronizer.db s)) as [e|]; [reflexivity|].
cbn [fst snd].
assert (Hs1 : Synchronizer.set_db (Synchronizer.db s) s1 = s1) by (destruct s; reflexivity).
rewrite Hs1. fold ds.
unfold bind at 1, get. unfold bind at 1.
change (Synchronizer.noteProcessors s1) with (Synchronizer.noteProcessors s).
pose proof (decodeGroups_state w (Synchronizer.noteProcessors s)
              (map snd (groupByRef (txHashRef w) DeferredNoteDao.txHash ds)) s1) as Hstate.
destruct (decodeGroups w (Synchronizer.noteProcessors s)
            (map snd (groupByRef (txHashRef w) DeferredNoteDao.txHash ds)) s1)
  as [[decoded|e] s1'] eqn:Hdecode; cbn [fst snd] in *; subst s1'; [|reflexivity].
unfold bind at 1.
unfold Synchronizer.db_removeDeferredNotesByContract at 1,
  PxeDatabase.removeDeferredNotesByContract at 1.
rewrite db_call_run. cbv zeta. fold s2.
change (Synchronizer.db s1) with (Synchronizer.db s).
destruct (faults w (PxeDatabase.RemoveDeferredNotesByContract contractAddress)
            (Synchronizer.db s)) as [e|]; reflexivity.
Qed.
Lemma onDb_sameDeferred {A} op (run : PxeDatabase.t -> A * PxeDatabase.t) w :
  (forall d, PxeDatabase.deferredNotes (snd (run d)) = PxeDatabase.deferredNotes d) ->
  respects sameDeferred
    (exec Synchronizer.record (Synchronizer.CallDb op);
     Synchronizer.onDb (PxeDatabase.atomically (faults w) op run)).
Proof.
intros Hrun s o s' Hexec. rewrite db_call_run in Hexec. cbv zeta in Hexec.
unfold sameDeferred.
destruct (faults w op (Synchronizer.db s)); injection Hexec as <- <-; [reflexivity|].
apply Hrun.
Qed.

Lemma findRelevantNullifiers_sameDeferred w ns :
  respects sameDeferred (Synchronizer.findRelevantNullifiers w ns).
Proof.
induction ns as [|n ns IH]; cbn [Synchronizer.findRelevantNullifiers]; [r_leaf|].
r_bind; [r_leaf|]. r_bind; [exact IH|]. r_leaf.
Qed.

Lemma afterDecoding_sameDeferred w newNotes : respects sameDeferred (afterDecoding w newNotes).
Proof.
unfold afterDecoding.
r_bind; [apply onDb_sameDeferred; reflexivity|].
r_bind; [r_forEach; r_modify; reflexivity|].
r_forEach.
r_bind; [apply findRelevantNullifiers_sameDeferred|].
r_bind; [apply onDb_sameDeferred; reflexivity|]. r_leaf.
Qed.

Lemma otherContracts_idempotent contractAddress (ds : list DeferredNoteDao.t) :
  otherContracts contractAddress (otherContracts contractAddress ds)
  = otherContracts contractAddress ds.
Proof.
unfold otherContracts. induction ds as [|d ds IH]; [reflexivity|].
cbn [List.filter]. destruct (negb (PxeDatabase.ofContract contractAddress d)) eqn:Hd.
- cbn [List.filter]. now rewrite Hd, IH.
- exact IH.
Qed.

(** X18. What [reprocessDeferredNotesForContract] does to the deferred
    notes.  Whatever happens, the deferred notes of the other contracts stay
    as they are, in order.  When the call returns, the store holds no
    deferred note of the contract any more: exactly the other contracts'
    are left. *)
Theorem reprocess_drops_contract_deferred w contractAddress s :
  let o := fst (Synchronizer.reprocessDeferredNotesForContract w contractAddress s) in
  let s' := snd (Synchronizer.reprocessDeferredNotesForContract w contractAddress s) in
  otherContracts contractAddress (PxeDatabase.deferredNotes (Synchronizer.db s'))
  = otherContracts contractAddress (PxeDatabase.deferredNotes (Synchronizer.db s))
  /\ (o = Ret tt ->
      PxeDatabase.deferredNotes (Synchronizer.db s')
      = otherContracts contractAddress (PxeDatabase.deferredNotes (Synchronizer.db s))).
Proof.
intros o s'. subst o s'. rewrite reprocess_cases. cbv zeta.
destruct (faults w (PxeDatabase.GetDeferredNotesByContract contractAddress)
            (Synchronizer.db s)); [split; [reflexivity | discriminate]|].
destruct (fst (decodeGroups w _ _ _)) as [decoded|e]; [|split; [reflexivity | discriminate]].
destruct (faults w (PxeDatabase.RemoveDeferredNotesByContract contractAddress)
            (Synchronizer.db s)); [split; [reflexivity | discriminate]|].
match goal with
| |- context [afterDecoding w (concat decoded) ?s3] =>
    pose proof (afterDecoding_sameDeferred w (concat decoded) s3 _ _ (surjective_pairing _))
      as Hsame
end.
unfold sameDeferred in Hsame. cbn [Synchronizer.db Synchronizer.set_db
  PxeDatabase.deferredNotes] in Hsame.
rewrite Hsame. split; [apply otherContracts_idempotent | reflexivity].
Qed.

Lemma decodeGroups_no_processors w groups s :
  exists decoded, decodeGroups w [] groups s = (Ret decoded, s) /\ concat decoded = [].
Proof.
unfold decodeGroups. cbn [mapST]. induction groups as [|g groups IH].
- exists []. split; reflexivity.
- destruct IH as (decoded & Hrun & Hnone). exists ([] :: decoded).
  cbn [mapST]. unfold bind at 1. unfold bind at 1, ret at 1. unfold ret at 1.
  unfold bind at 1. rewrite Hrun. split; [reflexivity | exact Hnone].
Qed.

(** X19. Only the active processors are tried.  With no active processor
    (the registered accounts may all be in the catch-up list) and a store
    that does not fail, [reprocessDeferredNotesForContract] returns after
    three calls to the store: it has read the contract's deferred notes,
    removed them without decoding any, and added no note.  Nothing is
    logged and the node is not asked anything. *)
Theorem reprocess_without_active_processors w contractAddress s :
  Synchronizer.noteProcessors s = [] ->
  faultless w ->
  exists s',
    Synchronizer.reprocessDeferredNotesForContract w contractAddress s = (Ret tt, s')
    /\ PxeDatabase.deferredNotes (Synchronizer.db s')
       = otherContracts contractAddress (PxeDatabase.deferredNotes (Synchronizer.db s))
    /\ PxeDatabase.notes (Synchronizer.db s') = PxeDatabase.notes (Synchronizer.db s)
    /\ Synchronizer.log s' = Synchronizer.log s
    /\ called s s'
         [Synchronizer.CallDb (PxeDatabase.GetDeferredNotesByContract contractAddress);
          Synchronizer.CallDb (PxeDatabase.RemoveDeferredNotesByContract contractAddress);
          Synchronizer.CallDb (PxeDatabase.AddNotes [])]
    /\ Synchronizer.noteProcessorsToCatchUp s' = Synchronizer.noteProcessorsToCatchUp s.
Proof.
intros Hnone Hfaultless. rewrite reprocess_cases. cbv zeta.
rewrite !Hfaultless, Hnone.
match goal with
| |- context [decodeGroups w [] ?groups ?s1] =>
    destruct (decodeGroups_no_processors w groups s1) as (decoded & Hdecoded & Hempty);
    rewrite Hdecoded
end.
cbn [fst]. rewrite Hempty. unfold afterDecoding.
unfold bind at 1. unfold Synchronizer.db_addNotes at 1, PxeDatabase.addNotes at 1.
rewrite db_call_run. cbv zeta. rewrite Hfaultless. cbn [fst snd].
eexists. split; [reflexivity|].
unfold called. cbn. rewrite app_nil_r, <- !app_assoc. repeat split.
Qed.

Lemma decode_processors_raise w (g : list DeferredNoteDao.t) processors p e0 s :
  In p processors ->
  decodeDeferredNotes w (NoteProcessor.publicKey p)
    (List.filter (fun n => Point_equals (DeferredNoteDao.publicKey n)
                             (NoteProcessor.publicKey p)) g) = Throw e0 ->
  exists e,
    mapST (fun processor =>
             lift (S := Synchronizer.t)
                  (decodeDeferredNotes w (NoteProcessor.publicKey processor)
                     (List.filter (fun n => Point_equals (DeferredNoteDao.publicKey n)
                                              (NoteProcessor.publicKey processor)) g)))
          processors s = (Throw e, s).
Proof.
intros Hin Hraise. induction processors as [|q processors IH]; [destruct Hin|].
cbn [mapST]. unfold bind at 1, lift at 1.
destruct (decodeDeferredNotes w (NoteProcessor.publicKey q) _) as [l|e] eqn:Hq;
  [|exists e; reflexivity].
destruct Hin as [->|Hin]; [congruence|].
destruct (IH Hin) as (e & Hrest). exists e. unfold bind at 1. now rewrite Hrest.
Qed.

Lemma decodeGroups_raise w groups g processors p e0 s :
  In g groups ->
  In p processors ->
  decodeDeferredNotes w (NoteProcessor.publicKey p)
    (List.filter (fun n => Point_equals (DeferredNoteDao.publicKey n)
                             (NoteProcessor.publicKey p)) g) = Throw e0 ->
  exists e, decodeGroups w processors groups s = (Throw e, s).
Proof.
intros Hg Hp Hraise. unfold decodeGroups. induction groups as [|h groups IH]; [destruct Hg|].
cbn [mapST]. unfold bind at 1. unfold bind at 1.
match goal with
| |- context [mapST ?f processors s] =>
    pose proof (decodeGroups_state w processors [h] s) as Hstate;
    destruct (mapST f processors s) as [[per|e] s1] eqn:Hh
end.
- assert (s1 = s) as ->.
  { unfold decodeGroups in Hstate. cbn [mapST] in Hstate. unfold bind at 1 in Hstate.
    unfold bind at 1 in Hstate. rewrite Hh in Hstate. exact Hstate. }
  unfold ret at 1. destruct Hg as [->|Hg].
  + destruct (decode_processors_raise w g processors p e0 s Hp Hraise) as (e & He).
    rewrite He in Hh. discriminate Hh.
  + destruct (IH Hg) as (e & Hrest). exists e. unfold bind at 1. now rewrite Hrest.
- exists e. f_equal.
  unfold decodeGroups in Hstate. cbn [mapST] in Hstate. unfold bind at 1 in Hstate.
  unfold bind at 1 in Hstate. rewrite Hh in Hstate. exact Hstate.
Qed.

(** X20. Decoding comes before any write.  When the store hands out the
    contract's deferred notes and some active processor's
    [decodeDeferredNotes] raises on some group of them, the call raises and
    nothing has been written: the database, the log and the processors are
    as before, and the read is the only call made (the deferred notes are
    still there for a later attempt). *)
Theorem reprocess_decode_failure_writes_nothing w contractAddress s g p e0 :
  faults w (PxeDatabase.GetDeferredNotesByContract contractAddress) (Synchronizer.db s) = None ->
  In g (map snd
          (groupByRef (txHashRef w) DeferredNoteDao.txHash
             (List.filter (PxeDatabase.ofContract contractAddress)
                (PxeDatabase.deferredNotes (Synchronizer.db s))))) ->
  In p (Synchronizer.noteProcessors s) ->
  decodeDeferredNotes w (NoteProcessor.publicKey p)
    (List.filter (fun n => Point_equals (DeferredNoteDao.publicKey n)
                             (NoteProcessor.publicKey p)) g) = Throw e0 ->
  exists e,
    Synchronizer.reprocessDeferredNotesForContract w contractAddress s
    = (Throw e,
       Synchronizer.set_calls
         (Synchronizer.calls s
          ++ [Synchronizer.CallDb (PxeDatabase.GetDeferredNotesByContract contractAddress)])
         s).
Proof.
intros Hread Hg Hp Hraise. rewrite reprocess_cases. cbv zeta. rewrite Hread.
match goal with
| |- context [decodeGroups w ?ps ?groups ?s1] =>
    destruct (decodeGroups_raise w groups g ps p e0 s1 Hg Hp Hraise) as (e & ->)
end.
exists e. reflexivity.
Qed.
End Reprocess.

Lemma reprocess_drops_contract_deferred_witness :
  PxeDatabase.deferredNotes
    (Synchronizer.db
       (snd (Synchronizer.reprocessDeferredNotesForContract (decodingWorld 3)
               (mkAztecAddress (mkFr 5)) deferringSynchronizer)))
  = [].
Proof.
apply (proj2 (reprocess_drops_contract_deferred (decodingWorld 3) (mkAztecAddress (mkFr 5))
                deferringSynchronizer)).
reflexivity.
Defined.

Lemma reprocess_without_active_processors_witness :
  let s := @Synchronizer.mk vectorNotes sampleImports None [] true 0 [] [sampleProcessor 1 5]
             (PxeDatabase.mk (Some 5) None [] [sampleDeferredNote]) [] in
  exists s',
    Synchronizer.reprocessDeferredNotesForContract (decodingWorld 3)
      (mkAztecAddress (mkFr 5)) s = (Ret tt, s')
    /\ PxeDatabase.deferredNotes (Synchronizer.db s') = []
    /\ PxeDatabase.notes (Synchronizer.db s') = [].
Proof.
intros s.
destruct (reprocess_without_active_processors (decodingWorld 3) (mkAztecAddress (mkFr 5)) s)
  as (s' & Hrun & Hdeferred & Hnotes & _).
- reflexivity.
- intros op d. reflexivity.
- exists s'. split; [exact Hrun|]. split; [exact Hdeferred | exact Hnotes].
Defined.

Lemma reprocess_decode_failure_writes_nothing_witness :
  exists e,
    Synchronizer.reprocessDeferredNotesForContract undecodableWorld (mkAztecAddress (mkFr 5))
      deferringSynchronizer
    = (Throw e,
       Synchronizer.set_calls
         [Synchronizer.CallDb (PxeDatabase.GetDeferredNotesByContract (mkAztecAddress (mkFr 5)))]
         deferringSynchronizer).
Proof.
apply (reprocess_decode_failure_writes_nothing undecodableWorld (mkAztecAddress (mkFr 5))
         deferringSynchronizer [sampleDeferredNote] (sampleProcessor 1 5)
         (JsError "cannot decode")).
- reflexivity.
- left. reflexivity.
- left. reflexivity.
- reflexivity.
Defined.

(** ** The two groupings by key object *)

Section Grouping.
Context {K A : Type}.
Implicit Types (m : list (nat * K * list A)) (l : list (nat * A)).

Lemma mapPush_members ref key v m :
  concat (map snd (mapPush ref key v m)) ≡ₚ concat (map snd m) ++ [v].
Proof.
induction m as [|[[ref' key'] vs] m IH]; [reflexivity|].
cbn [mapPush]. destruct (Nat.eqb ref ref'); cbn [map concat snd].
- rewrite <- !app_assoc. apply Permutation_app_head, Permutation_app_comm.
- rewrite IH. now rewrite app_assoc.
Qed.

Lemma mapPush_refs ref key v m r :
  r ∈ map (fun g => g.1.1) (mapPush ref key v m) ->
  r = ref \/ r ∈ map (fun g => g.1.1) m.
Proof.
induction m as [|[[ref' key'] vs] m IH]; cbn [mapPush map].
- intros Hin. apply list_elem_of_singleton in Hin. now left.
- destruct (Nat.eqb ref ref'); cbn [map fst]; [now right|].
  intros Hin. apply elem_of_cons in Hin. destruct Hin as [->|Hin].
  + right. apply elem_of_cons. now left.
  + destruct (IH Hin) as [->|Hm]; [now left|]. right. apply elem_of_cons. now right.
Qed.

Lemma mapPush_distinct ref key v m :
  NoDup (map (fun g => g.1.1) m) -> NoDup (map (fun g => g.1.1) (mapPush ref key v m)).
Proof.
induction m as [|[[ref' key'] vs] m IH]; cbn [mapPush map fst].
- intros _. apply NoDup_singleton.
- intros Hm. apply NoDup_cons in Hm. destruct Hm as [Hfresh Hm].
  destruct (Nat.eqb_spec ref ref') as [->|Hne]; cbn [map fst].
  + apply NoDup_cons. now split.
  + apply NoDup_cons. split; [|now apply IH].
    intros Hin. apply mapPush_refs in Hin. destruct Hin as [->|Hin]; [now apply Hne|].
    now apply Hfresh.
Qed.

Lemma mapPush_nonempty ref key v m :
  Forall (fun g => g.2 <> []) m -> Forall (fun g => g.2 <> []) (mapPush ref key v m).
Proof.
induction m as [|[[ref' key'] vs] m IH]; cbn [mapPush].
- intros _. apply Forall_cons. split; [discriminate | apply Forall_nil_2].
- intros Hm. apply Forall_cons in Hm. destruct Hm as [Hvs Hm].
  destruct (Nat.eqb ref ref'); apply Forall_cons; split; try assumption.
  + cbn. intros Hnil. destruct vs; discriminate Hnil.
  + now apply IH.
Qed.

Lemma mapPush_fresh ref key v m :
  ref ∉ map (fun g => g.1.1) m -> mapPush ref key v m = m ++ [(ref, key, [v])].
Proof.
induction m as [|[[ref' key'] vs] m IH]; [reflexivity|].
cbn [mapPush map fst]. intros Hfresh.
destruct (Nat.eqb_spec ref ref') as [->|Hne].
- exfalso. apply Hfresh. apply elem_of_cons. now left.
- cbn [app]. f_equal. apply IH. intros Hin. apply Hfresh. apply elem_of_cons. now right.
Qed.

Lemma groupBy_fold (ref : nat -> nat) (key : A -> K) l m :
  let groups := fold_left (fun m ix => mapPush (ref ix.1) (key ix.2) ix.2 m) l m in
  concat (map snd groups) ≡ₚ concat (map snd m) ++ map snd l
  /\ (NoDup (map (fun g => g.1.1) m) -> NoDup (map (fun g => g.1.1) groups))
  /\ (Forall (fun g => g.2 <> []) m -> Forall (fun g => g.2 <> []) groups).
Proof.
revert m. induction l as [|ix l IH]; intros m; cbn [fold_left map].
- rewrite app_nil_r. repeat split; auto.
- destruct (IH (mapPush (ref ix.1) (key ix.2) ix.2 m)) as (Hperm & Hdistinct & Hnonempty).
  split; [|split].
  + rewrite Hperm, mapPush_members, <- app_assoc. reflexivity.
  + intros Hm. now apply Hdistinct, mapPush_distinct.
  + intros Hm. now apply Hnonempty, mapPush_nonempty.
Qed.

Lemma groupBy_fold_distinct (ref : nat -> nat) (key : A -> K) l m :
  NoDup (map (fun ix => ref ix.1) l) ->
  (forall ix, ix ∈ l -> ref ix.1 ∉ map (fun g => g.1.1) m) ->
  fold_left (fun m ix => mapPush (ref ix.1) (key ix.2) ix.2 m) l m
  = m ++ map (fun ix => (ref ix.1, key ix.2, [ix.2])) l.
Proof.
revert m. induction l as [|ix l IH]; intros m Hdistinct Hfresh; cbn [fold_left map].
- now rewrite app_nil_r.
- apply NoDup_cons in Hdistinct. destruct Hdistinct as [Hix Hdistinct].
  rewrite mapPush_fresh by (apply Hfresh, elem_of_cons; now left).
  rewrite IH; [now rewrite <- app_assoc | exact Hdistinct |].
  intros ix' Hin. rewrite map_app. cbn [map fst]. intros Hold.
  apply elem_of_app in Hold. destruct Hold as [Hold|Hold].
  + revert Hold. apply Hfresh, elem_of_cons. now right.
  + apply list_elem_of_singleton in Hold. apply Hix. rewrite <- Hold.
    apply (list_elem_of_fmap_2 (fun ix => ref ix.1)) in Hin. exact Hin.
Qed.

Lemma combine_seq_snd (xs : list A) n : map snd (combine (seq n (length xs)) xs) = xs.
Proof.
revert n. induction xs as [|x xs IH]; intros n; [reflexivity|].
cbn [length seq combine map snd]. now rewrite IH.
Qed.

Lemma combine_seq_fst (xs : list A) n : map fst (combine (seq n (length xs)) xs) = seq n (length xs).
Proof.
revert n. induction xs as [|x xs IH]; intros n; [reflexivity|].
cbn [length seq combine map fst]. now rewrite IH.
Qed.

(** X21. Grouping by key object loses and invents nothing: the groups of
    [groupByRef] hold, between them, exactly the elements of the input (each
    as often as it occurs there), no two groups have the same key object,
    and no group is empty. *)
Theorem groupByRef_partitions (ref : nat -> nat) (key : A -> K) (xs : list A) :
  let groups := groupByRef ref key xs in
  concat (map snd groups) ≡ₚ xs
  /\ NoDup (map (fun g => g.1.1) groups)
  /\ Forall (fun g => g.2 <> []) groups.
Proof.
intros groups. subst groups. unfold groupByRef.
destruct (groupBy_fold ref key (combine (seq 0 (length xs)) xs) [])
  as (Hperm & Hdistinct & Hnonempty).
split; [|split].
- rewrite Hperm. cbn [map concat app]. now rewrite combine_seq_snd.
- apply Hdistinct, NoDup_nil_2.
- apply Hnonempty, Forall_nil_2.
Qed.

(** X22. The maps are keyed by object, not by value: when the key objects of
    the elements are pairwise distinct (as for keys deserialized one by one),
    nothing is grouped, whatever the keys' values; every element is a group
    of its own, in the order of the input. *)
Theorem groupByRef_distinct_objects (ref : nat -> nat) (key : A -> K) (xs : list A) :
  NoDup (map ref (seq 0 (length xs))) ->
  map snd (groupByRef ref key xs) = map (fun x => [x]) xs
  /\ map (fun g => g.1.2) (groupByRef ref key xs) = map key xs.
Proof.
intros Hdistinct. unfold groupByRef.
rewrite groupBy_fold_distinct.
- cbn [app]. rewrite !map_map. cbn [snd fst].
  rewrite <- (map_map snd (fun x => [x])), <- (map_map snd key), combine_seq_snd.
  split; reflexivity.
- rewrite <- (map_map fst ref), combine_seq_fst. exact Hdistinct.
- intros ix _ Hin. cbn in Hin. now apply elem_of_nil in Hin.
Qed.
End Grouping.

Lemma groupByRef_distinct_objects_witness :
  map snd (groupByRef (fun i => i) (fun x : Z => x mod 2) [4; 6; 7]) = [[4]; [6]; [7]]
  /\ map (fun g => g.1.2) (groupByRef (fun i => i) (fun x : Z => x mod 2) [4; 6; 7])
     = [0; 0; 1].
Proof.
apply (groupByRef_distinct_objects (fun i => i) (fun x : Z => x mod 2) [4; 6; 7]).
apply (bool_decide_unpack _). reflexivity.
Defined.

(** ** isAccountStateSynchronized *)

Section AccountStatus.
Context {NC : NoteClass} {IM : Imports}.
Implicit Types (s : Synchronizer.t) (w : World).

Lemma run_keeps_registered (ops : list Op) s publicKey :
  In publicKey (registeredKeys s) -> In publicKey (registeredKeys (run ops s)).
Proof.
revert s. induction ops as [|op ops IH]; intros s Hin; [exact Hin|].
cbn [run fold_left]. apply (IH (step op s)). now apply step_keeps_registered.
Qed.

Lemma isAccountStateSynchronized_found w getCompleteAddress account completeAddress s :
  getCompleteAddress account = Ret (Some completeAddress) ->
  registered (CompleteAddress.publicKey completeAddress)
    (Synchronizer.noteProcessors s ++ Synchronizer.noteProcessorsToCatchUp s) ->
  exists p,
    In p (Synchronizer.noteProcessors s ++ Synchronizer.noteProcessorsToCatchUp s)
    /\ NoteProcessor.publicKey p = CompleteAddress.publicKey completeAddress
    /\ isAccountStateSynchronized w getCompleteAddress account s
       = (NoteProcessor_isSynchronized w p, s).
Proof.
intros Hknown (q & Hq & Heq).
unfold isAccountStateSynchronized, bind, lift, get. rewrite Hknown.
destruct (List.find _ (Synchronizer.noteProcessors s)) as [p|] eqn:Hactive.
- apply find_some in Hactive. destruct Hactive as [Hp Hpk]. apply Point_equals_eq in Hpk.
  exists p. split; [apply in_or_app; now left|]. split; [exact Hpk | reflexivity].
- destruct (List.find _ (Synchronizer.noteProcessorsToCatchUp s)) as [p|] eqn:HcatchUp.
  + apply find_some in HcatchUp. destruct HcatchUp as [Hp Hpk]. apply Point_equals_eq in Hpk.
    exists p. split; [apply in_or_app; now right|]. split; [exact Hpk | reflexivity].
  + apply in_app_or in Hq. destruct Hq as [Hq|Hq].
    * apply (find_none _ _ Hactive) in Hq. cbn in Hq. congruence.
    * apply (find_none _ _ HcatchUp) in Hq. cbn in Hq. congruence.
Qed.

(** X23. An account that was added has a status.  After [addAccount] for a
    public key and any further operations, [isAccountStateSynchronized] for
    an address whose complete address carries that key finds a processor
    (active or still catching up) and, when the node answers, returns
    whether that processor has reached the node's latest block; it does not
    raise, and it changes nothing. *)
Theorem added_account_has_status (ops : list Op) publicKey keyStore startingBlock s0
    w getCompleteAddress account completeAddress latest :
  getCompleteAddress account = Ret (Some completeAddress) ->
  CompleteAddress.publicKey completeAddress = publicKey ->
  AztecNode.getBlockNumber (node w) = Ret latest ->
  let s := run ops (Synchronizer.addAccount publicKey keyStore startingBlock s0) in
  exists p,
    In p (Synchronizer.noteProcessors s ++ Synchronizer.noteProcessorsToCatchUp s)
    /\ NoteProcessor.publicKey p = publicKey
    /\ isAccountStateSynchronized w getCompleteAddress account s
       = (Ret (latest <=? NoteProcessor.syncedToBlock p), s).
Proof.
intros Hknown Hkey Hlatest s.
assert (Hin : In publicKey (registeredKeys s)).
{ subst s. apply run_keeps_registered, addAccount_registers. }
unfold registeredKeys in Hin. apply in_map_iff in Hin. destruct Hin as (q & Hq & Hin).
destruct (isAccountStateSynchronized_found w getCompleteAddress account completeAddress s Hknown)
  as (p & Hp & Hpk & Hrun).
{ exists q. split; [exact Hin|]. rewrite Hq, Hkey. apply Point_equals_refl. }
exists p. split; [exact Hp|]. split; [congruence|].
rewrite Hrun. unfold NoteProcessor_isSynchronized. now rewrite Hlatest.
Qed.

(** X24. How [isAccountStateSynchronized] fails.  It raises, without
    changing anything, when the store cannot be read, when the store knows
    no complete address for the account, when no processor (active or
    catching up) has the account's public key, and when a processor is
    found but the node does not answer. *)
Theorem isAccountStateSynchronized_errors w getCompleteAddress account s :
  (forall e,
      getCompleteAddress account = Throw e ->
      isAccountStateSynchronized w getCompleteAddress account s = (Throw e, s))
  /\ (getCompleteAddress account = Ret None ->
      exists msg,
        isAccountStateSynchronized w getCompleteAddress account s = (Throw (JsError msg), s))
  /\ (forall completeAddress,
        getCompleteAddress account = Ret (Some completeAddress) ->
        ~ registered (CompleteAddress.publicKey completeAddress)
            (Synchronizer.noteProcessors s ++ Synchronizer.noteProcessorsToCatchUp s) ->
        exists msg,
          isAccountStateSynchronized w getCompleteAddress account s = (Throw (JsError msg), s))
  /\ (forall completeAddress e,
        getCompleteAddress account = Ret (Some completeAddress) ->
        registered (CompleteAddress.publicKey completeAddress)
          (Synchronizer.noteProcessors s ++ Synchronizer.noteProcessorsToCatchUp s) ->
        AztecNode.getBlockNumber (node w) = Throw e ->
        isAccountStateSynchronized w getCompleteAddress account s = (Throw e, s)).
Proof.
split; [|split; [|split]].
- intros e Hstore. unfold isAccountStateSynchronized, bind, lift. now rewrite Hstore.
- intros Hunknown. unfold isAccountStateSynchronized, bind, lift. rewrite Hunknown.
  eexists. reflexivity.
- intros completeAddress Hknown Hfresh.
  unfold isAccountStateSynchronized, bind, lift, get. rewrite Hknown.
  destruct (List.find _ (Synchronizer.noteProcessors s)) as [p|] eqn:Hactive.
  { exfalso. apply Hfresh. apply find_some in Hactive. exists p.
    split; [apply in_or_app; left|]; apply Hactive. }
  destruct (List.find _ (Synchronizer.noteProcessorsToCatchUp s)) as [p|] eqn:HcatchUp.
  { exfalso. apply Hfresh. apply find_some in HcatchUp. exists p.
    split; [apply in_or_app; right|]; apply HcatchUp. }
  eexists. reflexivity.
- intros completeAddress e Hknown Hregistered Hnode.
  destruct (isAccountStateSynchronized_found w getCompleteAddress account completeAddress s
              Hknown Hregistered) as (p & _ & _ & ->).
  unfold NoteProcessor_isSynchronized. now rewrite Hnode.
Qed.
End AccountStatus.

Lemma added_account_has_status_witness :
  let w := quietWorld (servingNode 3) in
  let account := mkAztecAddress (mkFr 5) in
  let getCompleteAddress :=
    fun _ : AztecAddress => Ret (Some (CompleteAddress.mk account (sampleKey 1) (mkFr 0))) in
  let s := run [sampleAddAccount 3 9; OpWork w 5]
             (@Synchronizer.addAccount vectorNotes sampleImports (sampleKey 1) tt 1
                (Synchronizer.new PxeDatabase.empty)) in
  exists p,
    In p (Synchronizer.noteProcessors s ++ Synchronizer.noteProcessorsToCatchUp s)
    /\ NoteProcessor.publicKey p = sampleKey 1
    /\ isAccountStateSynchronized w getCompleteAddress account s
       = (Ret (8 <=? NoteProcessor.syncedToBlock p), s).
Proof.
intros w account getCompleteAddress.
apply (added_account_has_status [sampleAddAccount 3 9; OpWork w 5] (sampleKey 1) tt 1
         (Synchronizer.new PxeDatabase.empty) w getCompleteAddress account
         (CompleteAddress.mk account (sampleKey 1) (mkFr 0)) 8); reflexivity.
Defined.

Lemma isAccountStateSynchronized_errors_witness :
  let s := sampleSynchronizer 5 [sampleProcessor 1 5] [] in
  exists msg,
    isAccountStateSynchronized (quietWorld emptyNode) (fun _ => Ret None)
      (mkAztecAddress (mkFr 5)) s = (Throw (JsError msg), s).
Proof.
intros s.
apply (proj1 (proj2 (isAccountStateSynchronized_errors (quietWorld emptyNode)
                       (fun _ => Ret None) (mkAztecAddress (mkFr 5)) s))).
reflexivity.
Defined.
